(** * Blog post controller: a shallow embedding of
      server/controllers/postcontroller.js and of the validation chain of
      the post routes, with the properties of the post/comment data-access
      layer stated over it.

    Conventions of the model.
    - A JavaScript string is a [string]; one [ascii] stands for one code
      unit, so the texts of the model are those whose code units lie in
      U+0000..U+00FF.  On this range white space (TAB, LF, VT, FF, CR, SPACE
      and NO-BREAK SPACE) and letter case (the ASCII letters and the letters
      of U+00C0..U+00FE) are those of the language and of the database
      server.
    - A JavaScript number is a [Num.number]: a double that holds an integer,
      an infinity, or NaN.  Reading and arithmetic round to the nearest
      double, ties to even, as the language does.  The two zeros are not
      told apart: no handler divides by one or shows its sign.
    - A field of a query string or of a body is a text or absent
      ([undefined] is [None]); repeated and nested fields are outside the
      model.
    - A handler is a total function from the collection and the request to a
      response and the collection afterwards.
    - The Post model (models/post.js) is not among the sources: its
      validators are parameters of the handlers that write a document, and
      its two schema methods are modelled from the specification.
    - What the database server makes of a search pattern outside the
      modelled syntax, of a negative limit, and of a skip or a limit outside
      the 32-bit integers is left open: these are parameters of the handlers
      that query. *)

From Stdlib Require Import Bool Arith ZArith QArith Qround Lia List.
From Stdlib Require Import Ascii String Sorting.Sorted.
From Stdlib Require DecimalString DecimalNat.
Import ListNotations.

Local Open Scope string_scope.
Local Open Scope Z_scope.

(** ** Characters and strings *)

Module Str.

Definition code (c : ascii) : nat := nat_of_ascii c.

Definition between (lo hi : nat) (c : ascii) : bool :=
  (Nat.leb lo (code c) && Nat.leb (code c) hi)%bool.

(** White space as [String.prototype.trim], [parseInt] and the class [\s]
    see it: TAB, LF, VT, FF, CR, SPACE and NO-BREAK SPACE (the white space
    and line terminators of the language below U+0100). *)
Definition isWhiteSpace (c : ascii) : bool :=
  (between 9 13 c || Nat.eqb (code c) 32 || Nat.eqb (code c) 160)%bool.

Definition isDigit (c : ascii) : bool := between 48 57 c.
Definition isUpper (c : ascii) : bool := between 65 90 c.
Definition isLower (c : ascii) : bool := between 97 122 c.

(** The capital letters of U+00C0..U+00DE (all of that range but the
    multiplication sign U+00D7). *)
Definition isUpperLatin (c : ascii) : bool :=
  (between 192 214 c || between 216 222 c)%bool.

(** The lower case of a character: a capital letter, ASCII or not, is 32
    below its small letter. *)
Definition toLowerChar (c : ascii) : ascii :=
  if (isUpper c || isUpperLatin c)%bool then ascii_of_nat (code c + 32) else c.

Fixpoint toLowerCase (s : string) : string :=
  match s with
  | EmptyString => EmptyString
  | String c s' => String (toLowerChar c) (toLowerCase s')
  end.

Fixpoint all (f : ascii -> bool) (s : string) : bool :=
  match s with
  | EmptyString => true
  | String c s' => (f c && all f s')%bool
  end.

Fixpoint trimStart (s : string) : string :=
  match s with
  | EmptyString => EmptyString
  | String c s' => if isWhiteSpace c then trimStart s' else s
  end.

(** [trimEnd] keeps a character when it is not white space or when
    something is left after it. *)
Fixpoint trimEnd (s : string) : string :=
  match s with
  | EmptyString => EmptyString
  | String c s' =>
      match trimEnd s' with
      | EmptyString => if isWhiteSpace c then EmptyString else String c EmptyString
      | t => String c t
      end
  end.

(** [String.prototype.trim] *)
Definition trim (s : string) : string := trimEnd (trimStart s).

(** [s.split(',')] for a one-character separator: never an empty array,
    one more piece than there are separators. *)
Fixpoint split (sep : ascii) (s : string) : list string :=
  match s with
  | EmptyString => [EmptyString]
  | String c s' =>
      if Ascii.eqb c sep then EmptyString :: split sep s'
      else match split sep s' with
           | [] => [String c EmptyString]
           | piece :: rest => String c piece :: rest
           end
  end.

Fixpoint count (sep : ascii) (s : string) : nat :=
  match s with
  | EmptyString => O
  | String c s' => if Ascii.eqb c sep then S (count sep s') else count sep s'
  end.

(** [pieces.join(sep)] *)
Fixpoint join (sep : ascii) (pieces : list string) : string :=
  match pieces with
  | [] => EmptyString
  | [piece] => piece
  | piece :: rest => piece ++ String sep (join sep rest)
  end.

(** JavaScript truthiness of an optional string: [undefined] and [""] are
    falsy. *)
Definition truthy (o : option string) : bool :=
  match o with
  | Some (String _ _) => true
  | _ => false
  end.

End Str.

(** ** Numbers

    The numbers of the handlers come from [parseInt], from a count or a
    length, and from [-], [*], [/] and [Math.ceil] on these. *)

Module Num.

Inductive number : Type :=
| Int (z : Z)
| Infinity (negative : bool)
| NaN.

(** The double nearest to a natural number [m], ties to even: a number of
    more than 53 bits loses the bits below its 53 leading ones. *)
Definition nearest (m : Z) : Z :=
  let excess := Z.log2 m + 1 - 53 in
  if excess <=? 0 then m
  else
    let q := Z.shiftr m excess in
    let r := m - Z.shiftl q excess in
    let half := Z.shiftl 1 (excess - 1) in
    Z.shiftl (if ((half <? r) || ((r =? half) && Z.odd q))%bool then q + 1 else q) excess.

(** The number that holds an integer: the nearest double, an infinity from
    2^1024 on. *)
Definition round (z : Z) : number :=
  let m := nearest (Z.abs z) in
  if 2 ^ 1024 <=? m then Infinity (z <? 0) else Int (Z.sgn z * m).

(** Value of a character as a digit, up to radix 16. *)
Definition digitValue (c : ascii) : option Z :=
  if Str.isDigit c then Some (Z.of_nat (Str.code c - 48))
  else if Str.between 97 102 c then Some (Z.of_nat (Str.code c - 87))
  else if Str.between 65 70 c then Some (Z.of_nat (Str.code c - 55))
  else None.

(** The longest prefix of radix-[r] digits; [acc] is [None] until the
    first digit has been read. *)
Fixpoint parseDigits (r : Z) (s : string) (acc : option Z) : option Z :=
  match s with
  | EmptyString => acc
  | String c s' =>
      match digitValue c with
      | Some d =>
          if d <? r
          then parseDigits r s' (Some (r * match acc with Some a => a | None => 0 end + d))
          else acc
      | None => acc
      end
  end.

(** After the sign: a [0x]/[0X] prefix selects radix 16. *)
Definition parseMagnitude (s : string) : option Z :=
  match s with
  | String "0" (String "x" s') => parseDigits 16 s' None
  | String "0" (String "X" s') => parseDigits 16 s' None
  | _ => parseDigits 10 s None
  end.

(** The integer [parseInt] reads at the start of a text, after white space
    and one optional sign; [None] when there is no digit to read. *)
Definition readInteger (x : option string) : option Z :=
  match x with
  | None => None
  | Some s =>
      match Str.trimStart s with
      | String "-" s' => option_map Z.opp (parseMagnitude s')
      | String "+" s' => parseMagnitude s'
      | s' => parseMagnitude s'
      end
  end.

(** [parseInt(x)] with no radix: the number that holds the integer read, NaN
    when there is none.  [parseInt(undefined)] reads the text "undefined"
    and is NaN. *)
Definition parseInt (x : option string) : number :=
  match readInteger x with
  | Some z => round z
  | None => NaN
  end.

(** [n || d] on a number: NaN and 0 are falsy. *)
Definition orDefault (n : number) (d : Z) : number :=
  match n with
  | Int z => if z =? 0 then Int d else n
  | Infinity _ => n
  | NaN => Int d
  end.

(** [a - b] *)
Definition sub (a b : number) : number :=
  match a, b with
  | Int x, Int y => round (x - y)
  | Int _, Infinity s => Infinity (negb s)
  | Infinity s, Int _ => Infinity s
  | Infinity s, Infinity t => if Bool.eqb s t then NaN else Infinity s
  | _, _ => NaN
  end.

(** [a * b] *)
Definition mul (a b : number) : number :=
  match a, b with
  | Int x, Int y => round (x * y)
  | Int x, Infinity s => if x =? 0 then NaN else Infinity (xorb (x <? 0) s)
  | Infinity s, Int y => if y =? 0 then NaN else Infinity (xorb s (y <? 0))
  | Infinity s, Infinity t => Infinity (xorb s t)
  | _, _ => NaN
  end.

(** 2^k, and 1 for a negative [k]. *)
Definition pow2 (k : Z) : Z := 2 ^ Z.max 0 k.

(** The binary exponent of the quotient [n / d] of two positive integers:
    the [e] with 2^e <= n / d < 2^(e+1). *)
Definition exponentOf (n d : Z) : Z :=
  let e := Z.log2 n - Z.log2 d in
  if d * pow2 e <=? n * pow2 (- e) then e else e - 1.

(** The double nearest to the quotient [n / d] of two positive integers,
    ties to even, as a pair [(m, p)] that stands for [m * 2^p]: 53 bits of
    the quotient are kept, fewer below 2^-1022. *)
Definition quotient (n d : Z) : Z * Z :=
  let p := Z.max (exponentOf n d - 52) (-1074) in
  let N := n * pow2 (- p) in
  let D := d * pow2 p in
  let m := N / D in
  let r := N mod D in
  (if ((D <? 2 * r) || ((2 * r =? D) && Z.odd m))%bool then m + 1 else m, p).

(** [Math.ceil] of [m * 2^p], or of its opposite. *)
Definition ceilDyadic (negative : bool) (m p : Z) : Z :=
  if negative then - ((m * pow2 p) / pow2 (- p))
  else - ((- (m * pow2 p)) / pow2 (- p)).

(** [Math.ceil(a / b)] *)
Definition ceilDiv (a b : number) : number :=
  match a, b with
  | Int x, Int y =>
      if y =? 0 then (if x =? 0 then NaN else Infinity (x <? 0))
      else if x =? 0 then Int 0
      else let (m, p) := quotient (Z.abs x) (Z.abs y) in
           let v := ceilDyadic (xorb (x <? 0) (y <? 0)) m p in
           if 2 ^ 1024 <=? Z.abs v then Infinity (v <? 0) else Int v
  | Int _, Infinity _ => Int 0
  | Infinity s, Int y => Infinity (xorb s (y <? 0))
  | _, _ => NaN
  end.

(** [k <= n] for an integer [k]. *)
Definition atLeast (k : Z) (n : number) : Prop :=
  match n with
  | Int z => k <= z
  | Infinity negative => negative = false
  | NaN => False
  end.

End Num.

(** ** Pagination of [getPosts] (lines 8-10 and 40-45) *)

Record Pagination := mkPagination
  { pg_page : Num.number;
    pg_limit : Num.number;
    pg_total : Num.number;
    pg_pages : Num.number }.

Definition pageOf (page : option string) : Num.number :=
  Num.orDefault (Num.parseInt page) 1.
Definition limitOf (limit : option string) : Num.number :=
  Num.orDefault (Num.parseInt limit) 10.

(** [(page - 1) * limit] *)
Definition skipOf (page limit : Num.number) : Num.number :=
  Num.mul (Num.sub page (Num.Int 1)) limit.


(** ** Tags and excerpt computed by [createPost] and [updatePost] *)

(** [tags ? tags.split(',').map(tag => tag.trim()) : []]
    (lines 108 and 170). *)
Definition tagsOf (tags : option string) : list string :=
  if Str.truthy tags
  then match tags with
       | Some s => map Str.trim (Str.split "," s)
       | None => []
       end
  else [].

(** The tag list as the specification words it: split on commas, trim
    every piece, drop the empty pieces. *)
Definition isEmptyString (s : string) : bool :=
  match s with EmptyString => true | _ => false end.

Definition specTagsOf (tags : option string) : list string :=
  match tags with
  | Some s => filter (fun t => negb (isEmptyString t)) (map Str.trim (Str.split "," s))
  | None => []
  end.

(** [content.substring(0, 200) + '...'] (lines 116 and 178). *)
Definition generatedExcerpt (content : string) : string :=
  substring 0 200 content ++ "...".

(** The derived excerpt as the specification words it: marker only when the
    content is longer than 200 characters. *)
Definition specExcerpt (content : string) : string :=
  if Nat.ltb 200 (String.length content)
  then substring 0 200 content ++ "..."
  else content.

(** ** Object identifiers *)

Module ObjectId.

Definition isHex (c : ascii) : bool :=
  (Str.isDigit c || Str.between 97 102 c || Str.between 65 70 c)%bool.

(** [mongoose.Types.ObjectId.isValid] on a string: 24 hexadecimal
    digits. *)
Definition isValid (s : string) : bool :=
  (Nat.eqb (String.length s) 24 && Str.all isHex s)%bool.

(** Casting a string to an identifier; the canonical text of an
    identifier ([toString()]) is in lower case. *)
Definition cast (s : string) : option string :=
  if isValid s then Some (Str.toLowerCase s) else None.

End ObjectId.

(** ** Documents of the posts collection *)

Record Comment := mkComment
  { comment_user : string;
    comment_content : string }.

Record Post := mkPost
  { _id : string;
    title : string;
    slug : string;
    content : string;
    excerpt : string;
    author : string;
    category : string;
    tags : list string;
    featuredImage : option string;
    isPublished : bool;
    viewCount : Z;
    comments : list Comment;
    createdAt : Z }.

Definition Store := list Post.

(** ** Regular expressions

    The search term is handed to [new RegExp(term, 'i')] and to [$regex]
    with option [i].  The model covers the pattern syntax made of literal
    characters, [.], the quantifiers [*], [+], [?] (and their lazy forms),
    [|], capturing groups and escaped syntax characters; any other construct
    is reported as [Unsupported], and what the engine makes of it is a
    parameter of the handlers that search. *)

Module Regex.

Inductive t : Type :=
| Void
| Eps
| Chr (c : ascii)
| Any
| Seq (a b : t)
| Alt (a b : t)
| Star (a : t).

(** Canonicalisation under the option [i]: two characters are the same
    when they have the same lower case. *)
Definition canon (c : ascii) : ascii := Str.toLowerChar c.

Fixpoint nullable (r : t) : bool :=
  match r with
  | Void => false
  | Eps => true
  | Chr _ => false
  | Any => false
  | Seq a b => (nullable a && nullable b)%bool
  | Alt a b => (nullable a || nullable b)%bool
  | Star _ => true
  end.

(** What is left of [r] after reading [c]. *)
Fixpoint deriv (c : ascii) (r : t) : t :=
  match r with
  | Void => Void
  | Eps => Void
  | Chr d => if Ascii.eqb (canon c) (canon d) then Eps else Void
  | Any => if Ascii.eqb c "010" then Void else Eps
  | Seq a b =>
      if nullable a
      then Alt (Seq (deriv c a) b) (deriv c b)
      else Seq (deriv c a) b
  | Alt a b => Alt (deriv c a) (deriv c b)
  | Star a => Seq (deriv c a) (Star a)
  end.

(** Some prefix of [s] matches [r]. *)
Fixpoint matchesPrefix (r : t) (s : string) : bool :=
  (nullable r ||
   match s with
   | EmptyString => false
   | String c s' => matchesPrefix (deriv c r) s'
   end)%bool.

(** [r.test(s)]: a match starting at some position of [s]. *)
Fixpoint test (r : t) (s : string) : bool :=
  (matchesPrefix r s ||
   match s with
   | EmptyString => false
   | String _ s' => test r s'
   end)%bool.

(** *** Reading a pattern *)

(** Whether the last term read may still take a quantifier. *)
Inductive Last := NoTerm | Atom | Quantified.

(** A group being read: the alternatives closed by [|] so far, the terms
    of the current alternative (latest first), and the state of the latest
    term. *)
Record Frame := mkFrame
  { alts : option t;
    terms : list t;
    last : Last }.

Definition emptyFrame : Frame := mkFrame None [] NoTerm.

Definition closeTerms (ts : list t) : t :=
  fold_left (fun acc a => Seq a acc) ts Eps.

Definition close (f : Frame) : t :=
  match alts f with
  | None => closeTerms (terms f)
  | Some a => Alt a (closeTerms (terms f))
  end.

Definition pushAtom (a : t) (f : Frame) : Frame :=
  mkFrame (alts f) (a :: terms f) Atom.

Definition newAlternative (f : Frame) : Frame :=
  mkFrame (Some (close f)) [] NoTerm.

Definition quantify (q : t -> t) (f : Frame) : option Frame :=
  match last f, terms f with
  | Atom, a :: ts => Some (mkFrame (alts f) (q a :: ts) Quantified)
  | _, _ => None
  end.

(** [?] after an atom makes it optional; after a quantifier it makes the
    quantifier lazy, which does not change what [test] answers. *)
Definition question (f : Frame) : option Frame :=
  match last f, terms f with
  | Atom, a :: ts => Some (mkFrame (alts f) (Alt a Eps :: ts) Quantified)
  | Quantified, _ => Some (mkFrame (alts f) (terms f) NoTerm)
  | _, _ => None
  end.

(** The syntax characters of a pattern. *)
Definition isSyntaxChar (c : ascii) : bool :=
  existsb (Ascii.eqb c)
    ["^"; "$"; "\"; "."; "*"; "+"; "?"; "("; ")"; "["; "]"; "{"; "}"; "|"; "/"]%char.

Inductive Compiled := Pattern (r : t) | SyntaxError | Unsupported.

Definition continue (k : Frame -> Compiled) (f : option Frame) : Compiled :=
  match f with
  | Some f' => k f'
  | None => SyntaxError
  end.

Fixpoint parse (s : string) (cur : Frame) (stack : list Frame) : Compiled :=
  match s with
  | EmptyString =>
      match stack with
      | [] => Pattern (close cur)
      | _ :: _ => SyntaxError
      end
  | String c s' =>
      match c with
      | "("%char =>
          match s' with
          | String "?" _ => Unsupported
          | _ => parse s' emptyFrame (cur :: stack)
          end
      | ")"%char =>
          match stack with
          | [] => SyntaxError
          | f :: st => parse s' (pushAtom (close cur) f) st
          end
      | "|"%char => parse s' (newAlternative cur) stack
      | "*"%char => continue (fun f => parse s' f stack) (quantify Star cur)
      | "+"%char =>
          continue (fun f => parse s' f stack) (quantify (fun a => Seq a (Star a)) cur)
      | "?"%char => continue (fun f => parse s' f stack) (question cur)
      | "."%char => parse s' (pushAtom Any cur) stack
      | "\"%char =>
          match s' with
          | EmptyString => SyntaxError
          | String d s'' =>
              if isSyntaxChar d then parse s'' (pushAtom (Chr d) cur) stack
              else Unsupported
          end
      | "["%char | "]"%char | "{"%char | "}"%char | "^"%char | "$"%char => Unsupported
      | _ => parse s' (pushAtom (Chr c) cur) stack
      end
  end.

(** [new RegExp(pattern, 'i')] *)
Definition compile (pattern : string) : Compiled := parse pattern emptyFrame [].

(** The pattern that reads a text literally. *)
Fixpoint literal (s : string) : t :=
  match s with
  | EmptyString => Eps
  | String c s' => Seq (Chr c) (literal s')
  end.

End Regex.

(** The characters the reader of patterns treats specially. *)
Definition isMetaChar (c : ascii) : bool :=
  existsb (Ascii.eqb c)
    ["^"; "$"; "\"; "."; "*"; "+"; "?"; "("; ")"; "["; "]"; "{"; "}"; "|"]%char.

(** ** Requests and responses *)

Record User := mkUser
  { user_id : string;
    role : string }.

(** The fields of a multipart body: each one a text or absent. *)
Record Body := mkBody
  { body_title : option string;
    body_content : option string;
    body_category : option string;
    body_tags : option string;
    body_excerpt : option string;
    body_isPublished : option string }.

Record File := mkFile { filename : string }.

Record Query := mkQuery
  { query_page : option string;
    query_limit : option string;
    query_category : option string;
    query_search : option string }.

(** What the handler answers.  [Failed] is an exception handed to
    [next(error)]. *)
Inductive Response (A : Type) : Type :=
| Ok200 (data : A)
| Created201 (data : A)
| BadRequest400
| Forbidden403
| NotFound404
| Failed.

Arguments Ok200 {A} data.
Arguments Created201 {A} data.
Arguments BadRequest400 {A}.
Arguments Forbidden403 {A}.
Arguments NotFound404 {A}.
Arguments Failed {A}.

(** ** The validation chain of the post routes ([postValidation]) *)

Definition notEmpty (v : option string) : bool := Str.truthy v.

(** [isHexadecimal] of the validator library: hexadecimal digits, at least
    one, after an optional prefix [0x] or [0h] in either case. *)
Definition isHexadecimal (s : string) : bool :=
  let digits (t : string) : bool :=
    (negb (isEmptyString t) && Str.all ObjectId.isHex t)%bool in
  (digits s ||
   match s with
   | String "0" (String p rest) =>
       existsb (Ascii.eqb p) ["x"; "X"; "h"; "H"]%char && digits rest
   | _ => false
   end)%bool.

(** [isMongoId]: hexadecimal and 24 characters long. *)
Definition isMongoId (v : option string) : bool :=
  match v with
  | Some s => (isHexadecimal s && Nat.eqb (String.length s) 24)%bool
  | None => false
  end.

(** [validationResult(req).isEmpty()] *)
Definition postValidation (b : Body) : bool :=
  (notEmpty (body_title b) && notEmpty (body_content b) && isMongoId (body_category b))%bool.

(** ** The collection *)

Definition hasId (id : string) (p : Post) : bool := String.eqb (_id p) id.

(** [Post.findById(id)]: the outer [None] is the cast error raised for a
    text that is not an identifier. *)
Definition findById (store : Store) (id : string) : option (option Post) :=
  match ObjectId.cast id with
  | Some oid => Some (find (hasId oid) store)
  | None => None
  end.

(** [Post.findOne({ slug })] *)
Definition findOneBySlug (store : Store) (s : string) : option Post :=
  find (fun p => String.eqb (slug p) s) store.

(** Writing a document back under its identifier. *)
Fixpoint save (p' : Post) (store : Store) : Store :=
  match store with
  | [] => []
  | p :: rest => if hasId (_id p') p then p' :: rest else p :: save p' rest
  end.

(** Removing the document that has a given identifier. *)
Fixpoint deleteById (oid : string) (store : Store) : Store :=
  match store with
  | [] => []
  | p :: rest => if hasId oid p then rest else p :: deleteById oid rest
  end.

(** [Post.findByIdAndDelete(id)]; [None] is the cast error. *)
Definition findByIdAndDelete (store : Store) (id : string) : option Store :=
  option_map (fun oid => deleteById oid store) (ObjectId.cast id).

(** [.sort({ createdAt: -1 })] *)
Fixpoint insertNewestFirst (p : Post) (l : list Post) : list Post :=
  match l with
  | [] => [p]
  | q :: l' =>
      if createdAt q <=? createdAt p then p :: l
      else q :: insertNewestFirst p l'
  end.

Definition sortNewestFirst (l : list Post) : list Post :=
  fold_right insertNewestFirst [] l.

(** What is left to the database server: how many of the documents it has
    found go into the single batch that a negative limit asks for, and what
    it does with a skip or a limit outside the 32-bit integers: refuse the
    query ([None]), or skip so many documents and return so many. *)
Record Server := mkServer
  { firstBatch : list Post -> nat;
    wide : Num.number -> Num.number -> list Post -> option (nat * nat) }.

(** The documents after the first [skipped], at most [returned] of them. *)
Definition window (skipped returned : nat) (l : list Post) : list Post :=
  firstn returned (skipn skipped l).

Definition int32 (z : Z) : bool := ((- 2 ^ 31 <=? z) && (z <? 2 ^ 31))%bool.

(** [.skip(n)]: the server refuses a negative value. *)
Definition skipDocs (n : Z) (l : list Post) : option (list Post) :=
  if n <? 0 then None else Some (skipn (Z.to_nat n) l).

(** [.limit(n)]: 0 is no limit; a negative value asks for one batch of at
    most [-n] documents, after which the cursor is closed. *)
Definition limitDocs (server : Server) (n : Z) (l : list Post) : list Post :=
  if n =? 0 then l
  else if n <? 0 then firstn (Nat.min (Z.to_nat (- n)) (firstBatch server l)) l
  else firstn (Z.to_nat n) l.

(** [.skip(skip).limit(limit)] *)
Definition skipLimit (server : Server) (skip limit : Num.number) (l : list Post)
  : option (list Post) :=
  match skip, limit with
  | Num.Int s, Num.Int n =>
      if (int32 s && int32 n)%bool
      then option_map (limitDocs server n) (skipDocs s l)
      else option_map (fun w => window (fst w) (snd w) l) (wide server skip limit l)
  | _, _ => option_map (fun w => window (fst w) (snd w) l) (wide server skip limit l)
  end.

(** The filter documents built by [getPosts] and [searchPosts]. *)
Record Filter := mkFilter
  { filter_isPublished : bool;
    filter_category : option string;
    filter_or : option (string -> bool) }.

(** The [$or] of lines 21-25 and 285-289: title, content, or one of the
    tags. *)
Definition matchesSearch (test : string -> bool) (p : Post) : bool :=
  (test (title p) || test (content p) || existsb test (tags p))%bool.

Definition matchesFilter (f : Filter) (p : Post) : bool :=
  (Bool.eqb (isPublished p) (filter_isPublished f)
   && match filter_category f with
      | Some c => String.eqb (category p) c
      | None => true
      end
   && match filter_or f with
      | Some test => matchesSearch test p
      | None => true
      end)%bool.

(** ** Schema methods of the Post model *)

(** Modelled from the spec: the schema method [incrementViewCount] of
    models/post.js, which is not among the sources.  "Increments the post's
    view counter exactly once per call". *)
Definition incrementViewCount (p : Post) : Post :=
  mkPost (_id p) (title p) (slug p) (content p) (excerpt p) (author p) (category p)
         (tags p) (featuredImage p) (isPublished p) (viewCount p + 1) (comments p)
         (createdAt p).

(** Modelled from the spec: the schema method [addComment] of
    models/post.js, which is not among the sources.  "Appends to the post's
    comment collection, ordered by insertion". *)
Definition schemaAddComment (userId text : string) (p : Post) : Post :=
  mkPost (_id p) (title p) (slug p) (content p) (excerpt p) (author p) (category p)
         (tags p) (featuredImage p) (isPublished p) (viewCount p)
         (comments p ++ [mkComment userId text]) (createdAt p).

(** ** The handlers of postcontroller.js *)

(** [isPublished === 'true'] *)
Definition isTrueText (v : option string) : bool :=
  match v with
  | Some s => String.eqb s "true"
  | None => false
  end.

(** The owner-or-admin test of lines 157 and 216; [true] when the request
    is turned away. *)
Definition notAuthorized (post : Post) (user : User) : bool :=
  (negb (String.eqb (author post) (user_id user)) && negb (String.eqb (role user) "admin"))%bool.

Definition uploadPath (file : option File) : option string :=
  option_map (fun f => "/uploads/" ++ filename f) file.

(** What the model and the store assign to a new document. *)
Record Fresh := mkFresh
  { fresh_id : string;
    fresh_slug : string;
    fresh_now : Z }.

(** [updateData] of lines 166-183. *)
Record UpdateData := mkUpdateData
  { set_title : option string;
    set_content : option string;
    set_category : option string;
    set_tags : list string;
    set_isPublished : bool;
    set_excerpt : option string;
    set_featuredImage : option string }.

Definition updateExcerpt (b : Body) (post : Post) : option string :=
  if Str.truthy (body_excerpt b) then body_excerpt b
  else match body_content b with
       | Some c =>
           if (Str.truthy (Some c) && negb (String.eqb c (content post)))%bool
           then Some (generatedExcerpt c)
           else None
       | None => None
       end.

Definition updateDataOf (b : Body) (file : option File) (post : Post) : UpdateData :=
  {| set_title := body_title b;
     set_content := body_content b;
     set_category := body_category b;
     set_tags := tagsOf (body_tags b);
     set_isPublished := isTrueText (body_isPublished b);
     set_excerpt := updateExcerpt b post;
     set_featuredImage := uploadPath file |}.

Definition orKeep {A : Type} (v : option A) (old : A) : A :=
  match v with
  | Some x => x
  | None => old
  end.

(** The document after the update: a field of [updateData] that is
    [undefined] is left as it was; the category text is cast to an
    identifier. *)
Definition applyUpdate (u : UpdateData) (p : Post) : option Post :=
  match
    match set_category u with
    | Some c => ObjectId.cast c
    | None => Some (category p)
    end
  with
  | Some cat =>
      Some (mkPost (_id p) (orKeep (set_title u) (title p)) (slug p)
              (orKeep (set_content u) (content p))
              (orKeep (set_excerpt u) (excerpt p))
              (author p) cat (set_tags u)
              (match set_featuredImage u with
               | Some path => Some path
               | None => featuredImage p
               end)
              (set_isPublished u) (viewCount p) (comments p) (createdAt p))
  | None => None
  end.

(** The validators that [runValidators] applies to an update: one for each
    path, run on the paths the update sets and on no other. *)
Record UpdateValidators := mkUpdateValidators
  { valid_title : string -> bool;
    valid_content : string -> bool;
    valid_category : string -> bool;
    valid_tags : list string -> bool;
    valid_isPublished : bool -> bool;
    valid_excerpt : string -> bool;
    valid_featuredImage : string -> bool }.

Definition validIfSet {A : Type} (valid : A -> bool) (v : option A) : bool :=
  match v with
  | Some x => valid x
  | None => true
  end.

Definition updateValid (v : UpdateValidators) (u : UpdateData) : bool :=
  (validIfSet (valid_title v) (set_title u)
   && validIfSet (valid_content v) (set_content u)
   && validIfSet (valid_category v)
        (match set_category u with
         | Some c => ObjectId.cast c
         | None => None
         end)
   && valid_tags v (set_tags u)
   && valid_isPublished v (set_isPublished u)
   && validIfSet (valid_excerpt v) (set_excerpt u)
   && validIfSet (valid_featuredImage v) (set_featuredImage u))%bool.

Section Handlers.

(** The validators of the Post schema (models/post.js is not among the
    sources): [schemaValid] is what [Post.create] checks on the whole new
    document, [updateValidators] what an update is checked with. *)
Variable schemaValid : Post -> bool.
Variable updateValidators : UpdateValidators.

(** [Post.findByIdAndUpdate(id, updateData, { new: true, runValidators:
    true })]: [None] is a cast or validation error, raised before the
    document is looked for. *)
Definition findByIdAndUpdate (store : Store) (id : string) (u : UpdateData)
  : option (option Post * Store) :=
  match findById store id with
  | None => None
  | Some found =>
      if updateValid updateValidators u
      then match found with
           | Some p =>
               match applyUpdate u p with
               | Some p' => Some (Some p', save p' store)
               | None => None
               end
           | None =>
               match set_category u with
               | Some c => if ObjectId.isValid c then Some (None, store) else None
               | None => Some (None, store)
               end
           end
      else None
  end.

(** [createPost], lines 91-134. *)
Definition createPost (store : Store) (user : User) (b : Body) (file : option File)
  (fresh : Fresh) : Response Post * Store :=
  if negb (postValidation b) then (BadRequest400, store)
  else
    match body_content b, body_category b with
    | Some text, Some cat =>
        match ObjectId.cast cat with
        | Some catId =>
            let doc :=
              mkPost (fresh_id fresh)
                (orKeep (body_title b) "")
                (fresh_slug fresh)
                text
                (if Str.truthy (body_excerpt b)
                 then orKeep (body_excerpt b) ""
                 else generatedExcerpt text)
                (user_id user)
                catId
                (tagsOf (body_tags b))
                (uploadPath file)
                (isTrueText (body_isPublished b))
                0 [] (fresh_now fresh) in
            if schemaValid doc then (Created201 doc, (store ++ [doc])%list)
            else (Failed, store)
        | None => (Failed, store)
        end
    | _, _ => (Failed, store)
    end.

(** [updatePost], lines 137-201. *)
Definition updatePost (store : Store) (user : User) (id : string) (b : Body)
  (file : option File) : Response (option Post) * Store :=
  if negb (postValidation b) then (BadRequest400, store)
  else
    match findById store id with
    | None => (Failed, store)
    | Some None => (NotFound404, store)
    | Some (Some post) =>
        if notAuthorized post user then (Forbidden403, store)
        else
          match findByIdAndUpdate store id (updateDataOf b file post) with
          | Some (updated, store') => (Ok200 updated, store')
          | None => (Failed, store)
          end
    end.

End Handlers.

(** [getPost], lines 53-88. *)
Definition getPost (store : Store) (param : string) : Response Post * Store :=
  let found :=
    if ObjectId.isValid param
    then match findById store param with
         | Some r => r
         | None => None
         end
    else findOneBySlug store param in
  match found with
  | None => (NotFound404, store)
  | Some post =>
      let post' := incrementViewCount post in
      (Ok200 post', save post' store)
  end.

(** [deletePost], lines 204-232. *)
Definition deletePost (store : Store) (user : User) (id : string)
  : Response unit * Store :=
  match findById store id with
  | None => (Failed, store)
  | Some None => (NotFound404, store)
  | Some (Some post) =>
      if notAuthorized post user then (Forbidden403, store)
      else
        match findByIdAndDelete store id with
        | Some store' => (Ok200 tt, store')
        | None => (Failed, store)
        end
  end.

(** [addComment], lines 235-269. *)
Definition addComment (store : Store) (user : User) (postId : string)
  (text : option string) : Response (list Comment) * Store :=
  if negb (Str.truthy text) then (BadRequest400, store)
  else
    match findById store postId with
    | None => (Failed, store)
    | Some None => (NotFound404, store)
    | Some (Some post) =>
        let store' := save (schemaAddComment (user_id user) (orKeep text "") post) store in
        match findById store' postId with
        | Some (Some updated) => (Created201 (comments updated), store')
        | _ => (Failed, store')
        end
    end.

(** The category of the filter is cast to an identifier when the query
    runs. *)
Definition castFilter (f : Filter) : option Filter :=
  match filter_category f with
  | Some c =>
      match ObjectId.cast c with
      | Some oid => Some (mkFilter (filter_isPublished f) (Some oid) (filter_or f))
      | None => None
      end
  | None => Some f
  end.

Definition find_ (f : Filter) (store : Store) : list Post := filter (matchesFilter f) store.

(** [Post.countDocuments(filter)] *)
Definition countDocuments (f : Filter) (store : Store) : Num.number :=
  Num.round (Z.of_nat (List.length (find_ f store))).

Section Queries.

(** What the engine makes of a pattern outside the modelled syntax: [None]
    when it raises, otherwise the test the pattern performs. *)
Variable beyond : string -> option (string -> bool).

Variable server : Server.

(** [new RegExp(pattern, 'i')] as the test it performs; [None] is the
    SyntaxError of a malformed pattern. *)
Definition regExp (pattern : string) : option (string -> bool) :=
  match Regex.compile pattern with
  | Regex.Pattern r => Some (Regex.test r)
  | Regex.SyntaxError => None
  | Regex.Unsupported => beyond pattern
  end.

(** The filter with its search part (lines 12-26 and 283-290); [None] when
    building or sending it raises: the pattern is malformed, or it holds the
    character U+0000, which a regular expression sent to the server cannot
    carry. *)
Definition searchFilter (term : option string) (cat : option string)
  : option Filter :=
  match (if Str.truthy term then term else None) with
  | Some s =>
      if Nat.eqb (Str.count "000" s) 0
      then match regExp s with
           | Some test => Some (mkFilter true cat (Some test))
           | None => None
           end
      else None
  | None => Some (mkFilter true cat None)
  end.

(** [getPosts], lines 6-50. *)
Definition getPosts (store : Store) (q : Query) : Response (list Post * Pagination) :=
  let page := pageOf (query_page q) in
  let limit := limitOf (query_limit q) in
  let skip := skipOf page limit in
  match searchFilter (query_search q)
          (if Str.truthy (query_category q) then query_category q else None) with
  | Some f =>
      match castFilter f with
      | Some f' =>
          match skipLimit server skip limit (sortNewestFirst (find_ f' store)) with
          | Some posts =>
              let total := countDocuments f' store in
              Ok200 (posts, mkPagination page limit total (Num.ceilDiv total limit))
          | None => Failed
          end
      | None => Failed
      end
  | None => Failed
  end.

(** [searchPosts], lines 272-303. *)
Definition searchPosts (store : Store) (q : option string) : Response (list Post) :=
  if negb (Str.truthy q) then BadRequest400
  else
    match searchFilter q None with
    | Some f => Ok200 (limitDocs server 20 (sortNewestFirst (find_ f store)))
    | None => Failed
    end.

End Queries.

(** ** Predicates of the specification *)

(** [term] occurs in [text] as a literal substring, letter case aside. *)
Definition occursIn (term text : string) : Prop :=
  exists before after : string,
    Str.toLowerCase text = before ++ Str.toLowerCase term ++ after.

(** The same, as a test: [term] is a prefix of [text], letter case aside,
    and [term] occurs somewhere in [text]. *)
Fixpoint ciPrefix (term text : string) : bool :=
  match term with
  | EmptyString => true
  | String c term' =>
      match text with
      | EmptyString => false
      | String d text' =>
          (Ascii.eqb (Str.toLowerChar d) (Str.toLowerChar c) && ciPrefix term' text')%bool
      end
  end.

Fixpoint ciIncludes (term text : string) : bool :=
  (ciPrefix term text ||
   match text with
   | EmptyString => false
   | String _ text' => ciIncludes term text'
   end)%bool.

(** A post matches a term as the specification words it. *)
Definition specMatches (term : string) (p : Post) : Prop :=
  occursIn term (title p) \/ occursIn term (content p) \/
  Exists (occursIn term) (tags p).

(** The owner-or-admin rule. *)
Definition permitted (post : Post) (user : User) : Prop :=
  author post = user_id user \/ role user = "admin".

(** Newest first. *)
Definition newestFirst (l : list Post) : Prop :=
  StronglySorted (fun p q => createdAt q <= createdAt p) l.

(** A text resolves as an identifier, or as a slug, of the collection. *)
Definition resolvesAsId (store : Store) (param : string) : Prop :=
  exists p oid, In p store /\ ObjectId.cast param = Some oid /\ _id p = oid.

Definition resolvesAsSlug (store : Store) (param : string) : Prop :=
  exists p, In p store /\ slug p = param.

(** ** Sample data *)

Definition alice : User := mkUser "aa0000000000000000000001" "user".
Definition bob : User := mkUser "aa0000000000000000000002" "user".
Definition root : User := mkUser "aa0000000000000000000003" "admin".

Definition techCategory : string := "cc0000000000000000000001".

Definition firstPost : Post :=
  mkPost "5f0000000000000000000001" "My First Post" "my-first-post"
    "This is the content" "Short description" (user_id alice) techCategory
    ["react"; "javascript"] None true 0 [] 1000.

Definition secondPost : Post :=
  mkPost "5f0000000000000000000002" "Release notes" "release-notes"
    "Version 1.0 (beta) is out" "Notes" (user_id bob) techCategory
    ["news"] None true 3 [mkComment (user_id alice) "Nice"] 3000.

Definition draftPost : Post :=
  mkPost "5f0000000000000000000003" "Unfinished" "unfinished"
    "abc" "abc..." (user_id alice) techCategory
    [] None false 0 [] 2000.

Definition sampleStore : Store := [firstPost; secondPost; draftPost].

Definition sampleBody : Body :=
  mkBody (Some "Edited title") (Some "Edited content") (Some techCategory)
    (Some "a,,b") None (Some "true").

Definition sampleFresh : Fresh :=
  mkFresh "5f0000000000000000000009" "edited-title" 4000.

(** An engine that refuses every pattern outside the modelled syntax. *)
Definition strictSyntax (pattern : string) : option (string -> bool) := None.

(** A server that puts at most 101 documents into a first batch and
    refuses a skip or a limit outside the 32-bit integers. *)
Definition sampleServer : Server :=
  mkServer (fun _ => 101%nat) (fun _ _ _ => None).

(** A schema that accepts every document, and validators that accept every
    update. *)
Definition acceptAll (p : Post) : bool := true.
Definition acceptUpdates : UpdateValidators :=
  mkUpdateValidators (fun _ => true) (fun _ => true) (fun _ => true) (fun _ => true)
    (fun _ => true) (fun _ => true) (fun _ => true).

(** The length limits the README lists for the Post model, on a document
    and on the paths of an update. *)
Definition lengthLimits (p : Post) : bool :=
  (Nat.leb (String.length (title p)) 100 && Nat.leb (String.length (excerpt p)) 200)%bool.

Definition updateLimits : UpdateValidators :=
  mkUpdateValidators (fun t => Nat.leb (String.length t) 100) (fun _ => true)
    (fun _ => true) (fun _ => true) (fun _ => true)
    (fun e => Nat.leb (String.length e) 200) (fun _ => true).

(** ** The callers of the post routes *)



(** [getExcerpt] of the post card (post card component, lines 35-47). *)
Definition cardExcerpt (p : Post) : string :=
  if Str.truthy (Some (excerpt p)) then excerpt p
  else if Str.truthy (Some (content p))
       then if Nat.ltb 150 (String.length (content p))
            then substring 0 150 (content p) ++ "..."
            else content p
       else "No content available".

(** ** The edit form (pages/editpost.jsx) *)

(** [pieces.join(sep)] for a separator of any length. *)
Fixpoint joinWith (sep : string) (pieces : list string) : string :=
  match pieces with
  | [] => EmptyString
  | [piece] => piece
  | piece :: rest => piece ++ sep ++ joinWith sep rest
  end.

Record EditForm := mkEditForm
  { form_title : string;
    form_content : string;
    form_category : string;
    form_tags : string;
    form_excerpt : string;
    form_isPublished : bool;
    form_featuredImage : option File }.

(** The form as [fetchPost] fills it from the post it has read (lines
    83-91); [x || ''] on a text is the text.  The category of the answer is
    the populated category, whose [_id] is the one stored in the post. *)
Definition loadEditForm (post : Post) : EditForm :=
  mkEditForm (title post) (content post) (category post)
    (joinWith ", " (tags post)) (excerpt post)
    (isPublished post || true)%bool None.

(** Opening the edit page: [fetchPost] reads the post through the route of
    [getPost] (line 80), which counts a view, and fills the form from the
    answer; no form when the read is not answered 200. *)
Definition openEditForm (store : Store) (id : string) : option EditForm * Store :=
  match getPost store id with
  | (Ok200 post, store') => (Some (loadEditForm post), store')
  | (_, store') => (None, store')
  end.

Record EditErrors := mkEditErrors
  { error_title : option string;
    error_content : option string;
    error_category : option string;
    error_excerpt : option string }.

(** The [errors] object of [validateForm] (lines 210-234). *)
Definition editErrors (f : EditForm) : EditErrors :=
  mkEditErrors
    (if negb (Str.truthy (Some (Str.trim (form_title f))))
     then Some "Title is required"
     else if Nat.ltb 100 (String.length (form_title f))
          then Some "Title cannot be more than 100 characters"
          else None)
    (if negb (Str.truthy (Some (Str.trim (form_content f))))
     then Some "Content is required"
     else None)
    (if negb (Str.truthy (Some (form_category f)))
     then Some "Category is required"
     else None)
    (if (Str.truthy (Some (form_excerpt f))
         && Nat.ltb 200 (String.length (form_excerpt f)))%bool
     then Some "Excerpt cannot be more than 200 characters"
     else None).

Definition isNone {A : Type} (o : option A) : bool :=
  match o with
  | None => true
  | Some _ => false
  end.

(** [Object.keys(errors).length === 0] *)
Definition editValid (f : EditForm) : bool :=
  (isNone (error_title (editErrors f)) && isNone (error_content (editErrors f))
   && isNone (error_category (editErrors f)) && isNone (error_excerpt (editErrors f)))%bool.

(** [value.toString()] of a boolean. *)
Definition boolText (v : bool) : string := if v then "true" else "false".

(** The body and the file [handleSubmit] sends (lines 235-257); nothing is
    sent when the form does not validate. *)
Definition submitEdit (f : EditForm) : option (Body * option File) :=
  if negb (editValid f) then None
  else Some (mkBody (Some (form_title f)) (Some (form_content f))
               (Some (form_category f)) (Some (form_tags f)) (Some (form_excerpt f))
               (Some (boolText (form_isPublished f))),
             form_featuredImage f).

(** ** The creation form (pages/createpost.jsx) *)

(** [content.replace(/<[^>]*>/g, '')]: a [<] with a [>] somewhere after it
    is removed together with everything up to the first such [>]. *)
Fixpoint stripTags (inTag : bool) (s : string) : string :=
  match s with
  | EmptyString => EmptyString
  | String c s' =>
      if inTag
      then if Ascii.eqb c ">" then stripTags false s' else stripTags true s'
      else if (Ascii.eqb c "<" && negb (Nat.eqb (Str.count ">" s') 0))%bool
           then stripTags true s'
           else String c (stripTags false s')
  end.

(** [generateExcerpt(content, maxLength)] (lines 8-12). *)
Definition generateExcerpt (content : string) (maxLength : nat) : string :=
  let plainText := stripTags false content in
  if Nat.leb (String.length plainText) maxLength then plainText
  else substring 0 maxLength plainText ++ "...".

Fixpoint keepChars (keep : ascii -> bool) (s : string) : string :=
  match s with
  | EmptyString => EmptyString
  | String c s' => if keep c then String c (keepChars keep s') else keepChars keep s'
  end.

(** [\w] *)
Definition isWordChar (c : ascii) : bool :=
  (Str.isLower c || Str.isUpper c || Str.isDigit c || Ascii.eqb c "_")%bool.

(** [.replace(/ +/g, '-')]: every run of spaces becomes one hyphen. *)
Fixpoint hyphenate (inRun : bool) (s : string) : string :=
  match s with
  | EmptyString => EmptyString
  | String c s' =>
      if Ascii.eqb c " "
      then if inRun then hyphenate true s' else String "-" (hyphenate true s')
      else String c (hyphenate false s')
  end.

(** The slug the form derives from the title (lines 126-135):
    [title.toLowerCase().replace(/[^\w ]+/g, '').replace(/ +/g, '-')]. *)
Definition generateSlug (title : string) : string :=
  hyphenate false
    (keepChars (fun c => (isWordChar c || Ascii.eqb c " ")%bool) (Str.toLowerCase title)).

(** The characters a derived slug is made of: [a-z], [0-9], [-] and [_]. *)
Definition slugClass (c : ascii) : bool :=
  (Str.isLower c || Str.isDigit c || Ascii.eqb c "-" || Ascii.eqb c "_")%bool.

(** [/^[a-z0-9-]+$/.test(slug)] *)
Definition slugPattern (s : string) : bool :=
  (negb (isEmptyString s)
   && Str.all (fun c => (Str.isLower c || Str.isDigit c || Ascii.eqb c "-")%bool) s)%bool.

Record CreateForm := mkCreateForm
  { create_title : string;
    create_content : string;
    create_category : string;
    create_tags : string;
    create_excerpt : string;
    create_metaDescription : string;
    create_slug : string;
    create_isPublished : bool }.

Record CreateErrors := mkCreateErrors
  { create_error_title : option string;
    create_error_content : option string;
    create_error_category : option string;
    create_error_excerpt : option string;
    create_error_slug : option string }.

(** The [errors] object of [validateForm] (lines 319-347). *)
Definition createErrors (f : CreateForm) : CreateErrors :=
  mkCreateErrors
    (if negb (Str.truthy (Some (Str.trim (create_title f))))
     then Some "Title is required"
     else if Nat.ltb 100 (String.length (create_title f))
          then Some "Title cannot be more than 100 characters"
          else None)
    (if negb (Str.truthy (Some (Str.trim (create_content f))))
     then Some "Content is required"
     else None)
    (if negb (Str.truthy (Some (create_category f)))
     then Some "Category is required"
     else None)
    (if (Str.truthy (Some (create_excerpt f))
         && Nat.ltb 200 (String.length (create_excerpt f)))%bool
     then Some "Excerpt cannot be more than 200 characters"
     else None)
    (if (Str.truthy (Some (create_slug f)) && negb (slugPattern (create_slug f)))%bool
     then Some "Slug can only contain lowercase letters, numbers, and hyphens"
     else None).

(** The form after the content has been typed with the automatic excerpt
    switched on ([handleChange], lines 189-213). *)
Definition typeContent (value : string) (f : CreateForm) : CreateForm :=
  mkCreateForm (create_title f) value (create_category f) (create_tags f)
    (if Nat.ltb 0 (String.length value) then generateExcerpt value 200
     else create_excerpt f)
    (create_metaDescription f) (create_slug f) (create_isPublished f).

(** The form after the title effect has run (lines 126-135). *)
Definition deriveSlug (f : CreateForm) : CreateForm :=
  if (Str.truthy (Some (create_title f)) && negb (Str.truthy (Some (create_slug f))))%bool
  then mkCreateForm (create_title f) (create_content f) (create_category f)
         (create_tags f) (create_excerpt f) (create_metaDescription f)
         (generateSlug (create_title f)) (create_isPublished f)
  else f.

(** ** The registration page *)

Record Level := mkLevel
  { level_label : string;
    level_color : string;
    level_text : string }.

Definition strengthLevels : list Level :=
  [ mkLevel "Very Weak" "bg-red-500" "text-red-600";
    mkLevel "Weak" "bg-orange-500" "text-orange-600";
    mkLevel "Fair" "bg-yellow-500" "text-yellow-600";
    mkLevel "Good" "bg-blue-500" "text-blue-600";
    mkLevel "Strong" "bg-green-500" "text-green-600" ].

(** [/[...]/.test(s)] for a class of characters: some character is in the
    class. *)
Fixpoint hasChar (class : ascii -> bool) (s : string) : bool :=
  match s with
  | EmptyString => false
  | String c s' => (class c || hasChar class s')%bool
  end.

(** One [if (test) score++; else feedback.push(message);]. *)
Definition criterion (test : bool) (message : string) (st : nat * list string)
  : nat * list string :=
  if test then (S (fst st), snd st) else (fst st, (snd st ++ [message])%list).

Record Strength := mkStrength
  { score : nat;
    level : option Level;
    feedback : list string }.

(** [checkPasswordStrength] (lines 6-38); [level] is [strengthLevels[score]],
    [None] when there is no such entry. *)
Definition checkPasswordStrength (password : string) : Strength :=
  let st := (O, []) in
  let st := criterion (Nat.leb 8 (String.length password)) "At least 8 characters" st in
  let st := criterion (hasChar Str.isUpper password) "One uppercase letter" st in
  let st := criterion (hasChar Str.isLower password) "One lowercase letter" st in
  let st := criterion (hasChar Str.isDigit password) "One number" st in
  let st := criterion
              (hasChar (fun c => negb (Str.isUpper c || Str.isLower c || Str.isDigit c))
                 password) "One special character" st in
  mkStrength (fst st) (nth_error strengthLevels (fst st))
    (if Nat.ltb 0 (List.length (snd st)) then snd st else ["Strong password!"]).

(** ** Words and reading time *)

(** [s.split(/\s+/)]: the pieces between the runs of white space. *)
Fixpoint splitSpaces (inRun : bool) (s : string) : list string :=
  match s with
  | EmptyString => [EmptyString]
  | String c s' =>
      if Str.isWhiteSpace c
      then if inRun then splitSpaces true s' else EmptyString :: splitSpaces true s'
      else match splitSpaces false s' with
           | [] => [String c EmptyString]
           | piece :: rest => String c piece :: rest
           end
  end.

(** [content.trim().split(/\s+/).length] of [calculateReadingTime]
    (pages/postdetail.jsx, lines 8-13). *)
Definition readingWords (content : string) : nat :=
  List.length (splitSpaces false (Str.trim content)).

Definition calculateReadingTime (content : string) : Num.number :=
  Num.ceilDiv (Num.round (Z.of_nat (readingWords content))) (Num.Int 200).

(** The word count of the creation form (pages/createpost.jsx, lines
    104-109) and the minutes it shows, [Math.ceil(wordCount / 200)] (line
    461). *)
Definition wordCount (content : string) : nat :=
  List.length
    (filter (fun word => Nat.ltb 0 (String.length word))
       (splitSpaces false (Str.trim content))).

Definition formMinutes (content : string) : Num.number :=
  Num.ceilDiv (Num.round (Z.of_nat (wordCount content))) (Num.Int 200).

(** * Properties *)

Ltac ascii_cases c := destruct c as [[|] [|] [|] [|] [|] [|] [|] [|]].

(** ** Numbers *)



Lemma pow2_pos : forall k, 0 < Num.pow2 k.
Proof. intro k. unfold Num.pow2. apply Z.pow_pos_nonneg; lia. Qed.

Lemma pow2_nonpos : forall k, k <= 0 -> Num.pow2 k = 1.
Proof. intros k H. unfold Num.pow2. rewrite Z.max_l by lia. reflexivity. Qed.

Lemma pow2_nonneg : forall k, 0 <= k -> Num.pow2 k = 2 ^ k.
Proof. intros k H. unfold Num.pow2. rewrite Z.max_r by lia. reflexivity. Qed.

Lemma nearest_safe : forall m, 0 <= m < 2 ^ 53 -> Num.nearest m = m.
Proof.
  intros m H. unfold Num.nearest.
  destruct (Z.leb_spec (Z.log2 m + 1 - 53) 0) as [_|Hex]; [reflexivity|].
  exfalso. destruct (Z.eq_dec m 0) as [->|Hm]; [simpl in Hex; lia|].
  assert (Z.log2 m < 53) by (apply Z.log2_lt_pow2; lia). lia.
Qed.

(** An integer of the safe range is held as it is. *)
Lemma round_safe : forall z, Z.abs z < 2 ^ 53 -> Num.round z = Num.Int z.
Proof.
  intros z H. unfold Num.round. rewrite nearest_safe by lia.
  destruct (Z.leb_spec (2 ^ 1024) (Z.abs z)) as [Hbig|_].
  - exfalso. assert (2 ^ 53 < 2 ^ 1024) by (apply Z.pow_lt_mono_r; lia). lia.
  - f_equal. lia.
Qed.

Lemma nearest_pos : forall m, 0 < m -> 0 < Num.nearest m.
Proof.
  intros m H. unfold Num.nearest.
  destruct (Z.leb_spec (Z.log2 m + 1 - 53) 0) as [_|Hex]; [exact H|].
  set (k := Z.log2 m + 1 - 53) in *.
  assert (Hq : 0 < Z.shiftr m k).
  { rewrite Z.shiftr_div_pow2 by lia.
    apply Z.div_str_pos. split; [apply Z.pow_pos_nonneg; lia|].
    transitivity (2 ^ Z.log2 m); [apply Z.pow_le_mono_r; lia|].
    apply Z.log2_spec. exact H. }
  rewrite Z.shiftl_mul_pow2 by lia.
  apply Z.mul_pos_pos; [|apply Z.pow_pos_nonneg; lia].
  destruct (_ || _)%bool; lia.
Qed.

Lemma round_bound : forall z m, Num.round z = Num.Int m -> Z.abs m < 2 ^ 1024.
Proof.
  intros z m H. unfold Num.round in H.
  destruct (Z.leb_spec (2 ^ 1024) (Num.nearest (Z.abs z))) as [_|Hlt]; [discriminate H|].
  injection H as <-.
  destruct (Z.eq_dec z 0) as [->|Hz]; [simpl; lia|].
  pose proof (nearest_pos (Z.abs z) ltac:(lia)).
  destruct z; simpl Z.sgn; lia.
Qed.

Lemma round_sign :
  forall z m, Num.round z = Num.Int m -> (0 < z -> 0 < m) /\ (z < 0 -> m < 0) /\ (z = 0 -> m = 0).
Proof.
  intros z m H. unfold Num.round in H.
  destruct (2 ^ 1024 <=? Num.nearest (Z.abs z)); [discriminate H|].
  injection H as <-.
  destruct (Z.eq_dec z 0) as [->|Hz]; [simpl; lia|].
  pose proof (nearest_pos (Z.abs z) ltac:(lia)).
  destruct z; simpl Z.sgn; lia.
Qed.

Lemma round_not_nan : forall z, Num.round z <> Num.NaN.
Proof. intros z. unfold Num.round. destruct (_ <=? _); discriminate. Qed.

Lemma round_infinity :
  forall z s, Num.round z = Num.Infinity s -> s = (z <? 0).
Proof.
  intros z s H. unfold Num.round in H.
  destruct (_ <=? _); [injection H as <-; reflexivity|discriminate H].
Qed.

(** The exponent computed is not above that of the quotient. *)
Lemma exponentOf_low :
  forall n d, 0 < n -> 0 < d ->
    d * Num.pow2 (Num.exponentOf n d) <= n * Num.pow2 (- Num.exponentOf n d).
Proof.
  intros n d Hn Hd. unfold Num.exponentOf.
  set (e := Z.log2 n - Z.log2 d).
  destruct (Z.leb_spec (d * Num.pow2 e) (n * Num.pow2 (- e))) as [H|H]; [exact H|].
  pose proof (Z.log2_spec n Hn) as [Hn1 _].
  pose proof (Z.log2_spec d Hd) as [_ Hd2].
  pose proof (Z.log2_nonneg n). pose proof (Z.log2_nonneg d).
  destruct (Z_le_gt_dec 0 (e - 1)) as [Hpos|Hneg].
  - rewrite (pow2_nonneg (e - 1)) by lia. rewrite (pow2_nonpos (- (e - 1))) by lia.
    assert (E : 2 ^ Z.log2 n = 2 ^ Z.succ (Z.log2 d) * 2 ^ (e - 1)).
    { rewrite <- Z.pow_add_r by lia. f_equal. unfold e. lia. }
    assert (0 < 2 ^ (e - 1)) by (apply Z.pow_pos_nonneg; lia).
    nia.
  - rewrite (pow2_nonpos (e - 1)) by lia. rewrite (pow2_nonneg (- (e - 1))) by lia.
    assert (E : 2 ^ Z.log2 n * 2 ^ (- (e - 1)) = 2 ^ Z.succ (Z.log2 d)).
    { rewrite <- Z.pow_add_r by lia. f_equal. unfold e. lia. }
    assert (0 < 2 ^ (- (e - 1))) by (apply Z.pow_pos_nonneg; lia).
    nia.
Qed.






Lemma quotient_positive :
  forall n d, 0 < n -> 0 < d -> d <= n * 2 ^ 1074 -> 1 <= fst (Num.quotient n d).
Proof.
  intros n d Hn Hd Hsmall.
  pose proof (exponentOf_low n d Hn Hd) as E1.
  unfold Num.quotient. cbv zeta. cbn [fst].
  set (e := Num.exponentOf n d) in *.
  set (p := Z.max (e - 52) (-1074)).
  assert (HD : 0 < d * Num.pow2 p) by (pose proof (pow2_pos p); nia).
  assert (Hge : d * Num.pow2 p <= n * Num.pow2 (- p)).
  { destruct (Z_le_gt_dec (-1074) (e - 52)) as [Hnorm|Hsub].
    - replace p with (e - 52) by (unfold p; lia).
      destruct (Z_le_gt_dec 52 e) as [H52|H52].
      + rewrite (pow2_nonneg (e - 52)), (pow2_nonpos (- (e - 52))) by lia.
        rewrite (pow2_nonneg e), (pow2_nonpos (- e)) in E1 by lia.
        assert (2 ^ (e - 52) <= 2 ^ e) by (apply Z.pow_le_mono_r; lia). nia.
      + rewrite (pow2_nonpos (e - 52)), (pow2_nonneg (- (e - 52))) by lia.
        destruct (Z_le_gt_dec 0 e) as [H0|H0].
        * rewrite (pow2_nonneg e), (pow2_nonpos (- e)) in E1 by lia.
          assert (0 < 2 ^ e) by (apply Z.pow_pos_nonneg; lia).
          assert (0 < 2 ^ (- (e - 52))) by (apply Z.pow_pos_nonneg; lia). nia.
        * rewrite (pow2_nonpos e), (pow2_nonneg (- e)) in E1 by lia.
          assert (2 ^ (- e) <= 2 ^ (- (e - 52))) by (apply Z.pow_le_mono_r; lia). nia.
    - replace p with (-1074) by (unfold p; lia).
      rewrite (pow2_nonpos (-1074)), (pow2_nonneg (- -1074)) by lia.
      change (- -1074) with 1074. lia. }
  assert (Hm : 1 <= n * Num.pow2 (- p) / (d * Num.pow2 p)).
  { apply Z.div_le_lower_bound; lia. }
  destruct (_ || _)%bool; lia.
Qed.

(** [Math.ceil(n / 200)] is at least 1 for every count [n] that is not 0. *)
Lemma ceilDiv_200_at_least_one :
  forall n, 1 <= n -> Num.atLeast 1 (Num.ceilDiv (Num.round n) (Num.Int 200)).
Proof.
  intros n Hn. destruct (Num.round n) as [a|s|] eqn:Er.
  - assert (Ha : 0 < a) by (apply (round_sign n a Er); lia).
    unfold Num.ceilDiv. cbn [Z.eqb].
    destruct (Z.eqb_spec a 0) as [E|_]; [lia|].
    rewrite (Z.abs_eq a) by lia. change (Z.abs 200) with 200.
    assert (Hsmall : 200 <= a * 2 ^ 1074).
    { assert (2 ^ 8 <= 2 ^ 1074) by (apply Z.pow_le_mono_r; lia).
      change (2 ^ 8) with 256 in *. nia. }
    pose proof (quotient_positive a 200 Ha ltac:(lia) Hsmall) as Hq.
    destruct (Num.quotient a 200) as [m p]. cbn [fst] in Hq.
    replace (a <? 0) with false by (symmetry; apply Z.ltb_ge; lia).
    change (200 <? 0) with false. cbn [xorb]. unfold Num.ceilDyadic.
    assert (Hv : 1 <= - (- (m * Num.pow2 p) / Num.pow2 (- p))).
    { pose proof (pow2_pos p). pose proof (pow2_pos (- p)).
      assert (- (m * Num.pow2 p) / Num.pow2 (- p) < 0); [|lia].
      apply Z.div_lt_upper_bound; nia. }
    destruct (Z.leb_spec (2 ^ 1024) (Z.abs (- (- (m * Num.pow2 p) / Num.pow2 (- p))))).
    + simpl. apply Z.ltb_ge. lia.
    + simpl. exact Hv.
  - rewrite (round_infinity n s Er). simpl.
    replace (n <? 0) with false by (symmetry; apply Z.ltb_ge; lia). reflexivity.
  - exfalso. exact (round_not_nan n Er).
Qed.

(** ** Page and limit *)

Lemma orDefault_cases :
  forall x d,
    d <> 0 -> Z.abs d < 2 ^ 53 ->
    match Num.readInteger x with
    | Some z => Num.orDefault (Num.parseInt x) d = if z =? 0 then Num.Int d else Num.round z
    | None => Num.orDefault (Num.parseInt x) d = Num.Int d
    end.
Proof.
  intros x d Hd Hsafe. unfold Num.parseInt.
  destruct (Num.readInteger x) as [z|]; [|reflexivity].
  destruct (Z.eqb_spec z 0) as [->|Hz]; [reflexivity|].
  destruct (Num.round z) as [m|s|] eqn:Er; cbn [Num.orDefault]; try reflexivity.
  - destruct (Z.eqb_spec m 0) as [->|_]; [|reflexivity].
    exfalso. pose proof (round_sign z 0 Er). lia.
  - exfalso. exact (round_not_nan z Er).
Qed.

(** The number read for the page or the limit is a double that is not 0. *)
Lemma orDefault_double :
  forall x d m,
    d <> 0 -> Z.abs d < 2 ^ 53 ->
    Num.orDefault (Num.parseInt x) d = Num.Int m ->
    m <> 0 /\ Z.abs m < 2 ^ 1024.
Proof.
  intros x d m Hd Hsafe H.
  pose proof (orDefault_cases x d Hd Hsafe) as Hc.
  assert (H53 : 2 ^ 53 < 2 ^ 1024) by (apply Z.pow_lt_mono_r; lia).
  destruct (Num.readInteger x) as [z|].
  - rewrite Hc in H. destruct (Z.eqb_spec z 0) as [_|Hz].
    + injection H as <-. lia.
    + split; [|apply (round_bound z m H)].
      intro E. subst m. pose proof (round_sign z 0 H). lia.
  - rewrite Hc in H. injection H as <-. lia.
Qed.

Lemma int32_bounds : forall z, int32 z = true -> - 2 ^ 31 <= z < 2 ^ 31.
Proof.
  intros z H. unfold int32 in H. apply andb_true_iff in H. destruct H as [H1 H2].
  apply Z.leb_le in H1. apply Z.ltb_lt in H2. lia.
Qed.

(** Within the 32-bit integers the skip is computed exactly. *)
Lemma skipOf_exact :
  forall p l,
    l <> 0 -> int32 ((p - 1) * l) = true ->
    skipOf (Num.Int p) (Num.Int l) = Num.Int ((p - 1) * l).
Proof.
  intros p l Hl H. apply int32_bounds in H.
  assert (H31 : 2 ^ 31 < 2 ^ 53) by (apply Z.pow_lt_mono_r; lia).
  assert (Hp : Z.abs (p - 1) < 2 ^ 53) by nia.
  unfold skipOf, Num.sub, Num.mul. rewrite (round_safe (p - 1) Hp).
  apply round_safe. lia.
Qed.

Lemma insertNewestFirst_length :
  forall p l, List.length (insertNewestFirst p l) = S (List.length l).
Proof.
  intros p l. induction l as [|q l IH]; [reflexivity|].
  simpl. destruct (createdAt q <=? createdAt p); simpl; [reflexivity|].
  rewrite IH. reflexivity.
Qed.

Lemma sortNewestFirst_length :
  forall l, List.length (sortNewestFirst l) = List.length l.
Proof.
  induction l as [|p l IH]; [reflexivity|].
  simpl. rewrite insertNewestFirst_length, IH. reflexivity.
Qed.

(** Whatever the skip and the limit, an answer is made of consecutive
    documents of the list. *)
Lemma skipLimit_window :
  forall server skip limit l posts,
    skipLimit server skip limit l = Some posts ->
    exists j k, posts = window j k l.
Proof.
  intros server skip limit l posts H. unfold skipLimit in H.
  assert (Hw : option_map (fun w => window (fst w) (snd w) l) (wide server skip limit l)
               = Some posts -> exists j k, posts = window j k l).
  { intro E. destruct (wide server skip limit l) as [[j k]|]; [|discriminate E].
    injection E as <-. exists j, k. reflexivity. }
  destruct skip as [s| |]; try exact (Hw H).
  destruct limit as [n| |]; try exact (Hw H).
  destruct (int32 s && int32 n)%bool; [|exact (Hw H)].
  unfold skipDocs in H. destruct (s <? 0); [discriminate H|].
  injection H as <-. unfold limitDocs.
  destruct (n =? 0).
  - exists (Z.to_nat s), (List.length (skipn (Z.to_nat s) l)).
    unfold window. rewrite firstn_all. reflexivity.
  - destruct (n <? 0); eexists; eexists; reflexivity.
Qed.

(** Within the 32-bit integers the skip and the limit are applied as they
    are. *)
Lemma skipLimit_exact :
  forall server s n l,
    int32 s = true -> int32 n = true ->
    skipLimit server (Num.Int s) (Num.Int n) l
    = if s <? 0 then None else Some (limitDocs server n (skipn (Z.to_nat s) l)).
Proof.
  intros server s n l Hs Hn. unfold skipLimit, skipDocs. rewrite Hs, Hn.
  destruct (s <? 0); reflexivity.
Qed.

Lemma searchFilter_published :
  forall beyond term cat f,
    searchFilter beyond term cat = Some f -> filter_isPublished f = true.
Proof.
  intros beyond term cat f H. unfold searchFilter in H.
  destruct (if Str.truthy term then term else None) as [s|].
  - destruct (Nat.eqb (Str.count "000" s) 0); [|discriminate H].
    destruct (regExp beyond s); inversion H; reflexivity.
  - inversion H; reflexivity.
Qed.

Lemma castFilter_published :
  forall f f', castFilter f = Some f' -> filter_isPublished f' = filter_isPublished f.
Proof.
  intros f f' H. unfold castFilter in H.
  destruct (filter_category f) as [c|].
  - destruct (ObjectId.cast c); inversion H; reflexivity.
  - inversion H; reflexivity.
Qed.

(** What a successful [getPosts] has computed. *)
Lemma getPosts_ok_inv :
  forall beyond server store q posts pg,
    getPosts beyond server store q = Ok200 (posts, pg) ->
    exists f,
      filter_isPublished f = true /\
      skipLimit server (skipOf (pageOf (query_page q)) (limitOf (query_limit q)))
        (limitOf (query_limit q)) (sortNewestFirst (find_ f store)) = Some posts /\
      pg = mkPagination (pageOf (query_page q)) (limitOf (query_limit q))
             (countDocuments f store)
             (Num.ceilDiv (countDocuments f store) (limitOf (query_limit q))).
Proof.
  intros beyond server store q posts pg H. unfold getPosts in H.
  destruct (searchFilter beyond (query_search q) _) as [f|] eqn:Ef; [|discriminate H].
  destruct (castFilter f) as [f'|] eqn:Ec; [|discriminate H].
  destruct (skipLimit server _ _ _) as [found|] eqn:Es; [|discriminate H].
  inversion H; subst; clear H.
  exists f'. split; [|split; [exact Es|reflexivity]].
  rewrite (castFilter_published f f' Ec).
  apply (searchFilter_published _ _ _ _ Ef).
Qed.

(** A number of the safe range holds one integer only. *)
Lemma round_safe_inv :
  forall z m, Num.round z = Num.Int m -> Z.abs m < 2 ^ 53 -> z = m.
Proof.
  intros z m H Hm.
  destruct (Z_lt_le_dec (Z.abs z) (2 ^ 53)) as [Hz|Hz].
  - rewrite (round_safe z Hz) in H. congruence.
  - exfalso. unfold Num.round in H.
    destruct (2 ^ 1024 <=? Num.nearest (Z.abs z)); [discriminate H|].
    injection H as <-.
    assert (Hn : 2 ^ 53 <= Num.nearest (Z.abs z)).
    { unfold Num.nearest.
      destruct (Z.leb_spec (Z.log2 (Z.abs z) + 1 - 53) 0) as [Hex|Hex]; [exact Hz|].
      set (k := Z.log2 (Z.abs z) + 1 - 53) in *.
      assert (Hq : 2 ^ 52 <= Z.shiftr (Z.abs z) k).
      { rewrite Z.shiftr_div_pow2 by lia.
        apply Z.div_le_lower_bound; [apply Z.pow_pos_nonneg; lia|].
        rewrite <- Z.pow_add_r by lia.
        replace (k + 52) with (Z.log2 (Z.abs z)) by (unfold k; lia).
        apply Z.log2_spec. lia. }
      rewrite Z.shiftl_mul_pow2 by lia.
      assert (2 <= 2 ^ k).
      { change 2 with (2 ^ 1) at 1. apply Z.pow_le_mono_r; lia. }
      change (2 ^ 53) with (2 ^ 52 * 2).
      destruct (_ || _)%bool; nia. }
    destruct z; simpl Z.sgn in Hm; lia.
Qed.

(** Within the 32-bit integers an answered page is the limit applied to
    what is left after the skip. *)
Lemma getPosts_exact :
  forall beyond server store q posts pg p l,
    getPosts beyond server store q = Ok200 (posts, pg) ->
    pg_page pg = Num.Int p -> pg_limit pg = Num.Int l ->
    int32 ((p - 1) * l) = true -> int32 l = true ->
    exists f,
      filter_isPublished f = true /\
      pg_total pg = countDocuments f store /\
      0 <= (p - 1) * l /\
      posts = limitDocs server l
                (skipn (Z.to_nat ((p - 1) * l)) (sortNewestFirst (find_ f store))).
Proof.
  intros beyond server store q posts pg p l H Ep El Hs Hl.
  destruct (getPosts_ok_inv beyond server store q posts pg H) as (f & Hf & Hposts & Hpg).
  subst pg. cbn [pg_page pg_limit pg_total] in *.
  destruct (orDefault_double (query_limit q) 10 l ltac:(lia) ltac:(simpl; lia) El)
    as [Hl0 _].
  rewrite Ep, El, (skipOf_exact p l Hl0 Hs), (skipLimit_exact _ _ _ _ Hs Hl) in Hposts.
  destruct (Z.ltb_spec ((p - 1) * l) 0) as [Hneg|Hpos]; [discriminate Hposts|].
  injection Hposts as Hposts.
  exists f. split; [exact Hf|]. split; [reflexivity|]. split; [exact Hpos|].
  symmetry. exact Hposts.
Qed.

Lemma limitDocs_positive :
  forall server n l, 0 < n -> limitDocs server n l = firstn (Z.to_nat n) l.
Proof.
  intros server n l H. unfold limitDocs.
  destruct (Z.eqb_spec n 0); [lia|]. destruct (Z.ltb_spec n 0); [lia|reflexivity].
Qed.



(** ** Splitting and trimming *)

Lemma split_nonempty : forall sep s, Str.split sep s <> [].
Proof.
  intros sep s. destruct s as [|c s]; simpl; [discriminate|].
  destruct (Ascii.eqb c sep); [discriminate|].
  destruct (Str.split sep s); discriminate.
Qed.

Lemma split_length :
  forall sep s, List.length (Str.split sep s) = S (Str.count sep s).
Proof.
  intros sep s. induction s as [|c s IH]; [reflexivity|].
  simpl. destruct (Ascii.eqb c sep); simpl.
  - rewrite IH. reflexivity.
  - destruct (Str.split sep s) as [|piece rest] eqn:E.
    + exfalso. exact (split_nonempty sep s E).
    + simpl in *. exact IH.
Qed.

Lemma join_split : forall sep s, Str.join sep (Str.split sep s) = s.
Proof.
  intros sep s. induction s as [|c s IH]; [reflexivity|].
  simpl. destruct (Ascii.eqb_spec c sep) as [->|Hne].
  - destruct (Str.split sep s) as [|piece rest] eqn:E.
    + exfalso. exact (split_nonempty sep s E).
    + change (Str.join sep ("" :: piece :: rest))
        with (String sep (Str.join sep (piece :: rest))).
      rewrite IH. reflexivity.
  - destruct (Str.split sep s) as [|piece rest] eqn:E.
    + exfalso. exact (split_nonempty sep s E).
    + destruct rest as [|piece' rest']; simpl in *; rewrite IH; reflexivity.
Qed.

Lemma split_pieces_clean :
  forall sep s, Forall (fun piece => Str.count sep piece = O) (Str.split sep s).
Proof.
  intros sep s. induction s as [|c s IH]; simpl.
  - constructor; [reflexivity|constructor].
  - destruct (Ascii.eqb c sep) eqn:Ec.
    + constructor; [reflexivity|exact IH].
    + destruct (Str.split sep s) as [|piece rest].
      * constructor; [simpl; rewrite Ec; reflexivity|constructor].
      * inversion IH; subst. constructor; [simpl; rewrite Ec; assumption|assumption].
Qed.

Lemma trimStart_decompose :
  forall s, exists l, s = l ++ Str.trimStart s /\ Str.all Str.isWhiteSpace l = true.
Proof.
  induction s as [|c s (l & Hl & Hw)]; simpl.
  - exists "". split; reflexivity.
  - destruct (Str.isWhiteSpace c) eqn:Ec.
    + exists (String c l). simpl. rewrite Ec, Hw, <- Hl. split; reflexivity.
    + exists "". split; reflexivity.
Qed.

Lemma trimEnd_decompose :
  forall s, exists r, s = Str.trimEnd s ++ r /\ Str.all Str.isWhiteSpace r = true.
Proof.
  induction s as [|c s (r & Hr & Hw)]; simpl.
  - exists "". split; reflexivity.
  - destruct (Str.trimEnd s) as [|d t] eqn:E.
    + destruct (Str.isWhiteSpace c) eqn:Ec.
      * exists (String c r). simpl in *. rewrite Ec, Hw, <- Hr. split; reflexivity.
      * exists r. simpl in *. split; [congruence|assumption].
    + exists r. simpl in *. split; [congruence|assumption].
Qed.

Lemma trimStart_fixed :
  forall c s, Str.isWhiteSpace c = false -> Str.trimStart (String c s) = String c s.
Proof. intros c s H. simpl. rewrite H. reflexivity. Qed.

Lemma trimStart_head :
  forall s, Str.trimStart s = "" \/
            exists c t, Str.trimStart s = String c t /\ Str.isWhiteSpace c = false.
Proof.
  induction s as [|c s IH]; simpl; [left; reflexivity|].
  destruct (Str.isWhiteSpace c) eqn:Ec; [exact IH|].
  right. exists c, s. split; [reflexivity|assumption].
Qed.

Lemma trimEnd_head :
  forall c s, Str.isWhiteSpace c = false ->
              exists t, Str.trimEnd (String c s) = String c t.
Proof.
  intros c s H. simpl. destruct (Str.trimEnd s) as [|d t].
  - rewrite H. exists "". reflexivity.
  - exists (String d t). reflexivity.
Qed.

Lemma trimEnd_idempotent : forall s, Str.trimEnd (Str.trimEnd s) = Str.trimEnd s.
Proof.
  induction s as [|c s IH]; [reflexivity|].
  simpl. destruct (Str.trimEnd s) as [|d t] eqn:E.
  - destruct (Str.isWhiteSpace c) eqn:Ec; [reflexivity|].
    simpl. rewrite Ec. reflexivity.
  - change (Str.trimEnd (String c (String d t))) with
      (match Str.trimEnd (String d t) with
       | EmptyString => if Str.isWhiteSpace c then EmptyString else String c EmptyString
       | u => String c u
       end).
    rewrite IH. reflexivity.
Qed.

Lemma trim_idempotent : forall s, Str.trim (Str.trim s) = Str.trim s.
Proof.
  intro s. unfold Str.trim.
  destruct (trimStart_head s) as [E|(c & t & E & Hc)]; rewrite E.
  - reflexivity.
  - destruct (trimEnd_head c t Hc) as (u & Eu).
    rewrite Eu, (trimStart_fixed c u Hc), <- Eu.
    apply trimEnd_idempotent.
Qed.

(** A trimmed text is the text without the white space at its two ends. *)
Lemma trim_decompose :
  forall s, exists l r,
    s = l ++ Str.trim s ++ r /\
    Str.all Str.isWhiteSpace l = true /\
    Str.all Str.isWhiteSpace r = true.
Proof.
  intro s. unfold Str.trim.
  destruct (trimStart_decompose s) as (l & Hl & Hwl).
  destruct (trimEnd_decompose (Str.trimStart s)) as (r & Hr & Hwr).
  exists l, r. split; [|split; assumption].
  rewrite <- Hr. exact Hl.
Qed.

(** ** What the writing handlers have done when they answer *)

Lemma createPost_created_inv :
  forall sv store user b file fresh doc store',
    createPost sv store user b file fresh = (Created201 doc, store') ->
    exists text cat catId,
      postValidation b = true /\
      body_content b = Some text /\
      body_category b = Some cat /\
      ObjectId.cast cat = Some catId /\
      doc = mkPost (fresh_id fresh) (orKeep (body_title b) "") (fresh_slug fresh) text
              (if Str.truthy (body_excerpt b)
               then orKeep (body_excerpt b) ""
               else generatedExcerpt text)
              (user_id user) catId (tagsOf (body_tags b)) (uploadPath file)
              (isTrueText (body_isPublished b)) 0 [] (fresh_now fresh) /\
      sv doc = true /\
      store' = (store ++ [doc])%list.
Proof.
  intros sv store user b file fresh doc store' H. unfold createPost in H.
  destruct (postValidation b) eqn:Ev; simpl in H; [|discriminate H].
  destruct (body_content b) as [text|]; [|discriminate H].
  destruct (body_category b) as [cat|]; [|discriminate H].
  destruct (ObjectId.cast cat) as [catId|] eqn:Ec; [|discriminate H].
  match type of H with
  | (if sv ?d then _ else _) = _ => destruct (sv d) eqn:Es; [|discriminate H]
  end.
  inversion H; subst. exists text, cat, catId.
  repeat split; try reflexivity; assumption.
Qed.

Lemma postValidation_content :
  forall b, postValidation b = true -> exists text, body_content b = Some text /\ text <> "".
Proof.
  intros b H. unfold postValidation, notEmpty in H.
  apply andb_true_iff in H. destruct H as [H _].
  apply andb_true_iff in H. destruct H as [_ H].
  destruct (body_content b) as [[|c t]|]; try discriminate H.
  exists (String c t). split; [reflexivity|discriminate].
Qed.

(** A creation whose body passes the validation chain and whose category
    is an identifier is decided by the schema alone. *)
Lemma createPost_outcome :
  forall sv store user b file fresh cat,
    postValidation b = true ->
    body_category b = Some cat ->
    ObjectId.isValid cat = true ->
    exists text doc,
      body_content b = Some text /\
      doc = mkPost (fresh_id fresh) (orKeep (body_title b) "") (fresh_slug fresh) text
              (if Str.truthy (body_excerpt b)
               then orKeep (body_excerpt b) ""
               else generatedExcerpt text)
              (user_id user) (Str.toLowerCase cat) (tagsOf (body_tags b)) (uploadPath file)
              (isTrueText (body_isPublished b)) 0 [] (fresh_now fresh) /\
      createPost sv store user b file fresh
      = if sv doc then (Created201 doc, (store ++ [doc])%list) else (Failed, store).
Proof.
  intros sv store user b file fresh cat Hv Hc Hcat.
  destruct (postValidation_content b Hv) as (text & Ht & _).
  exists text. eexists. split; [exact Ht|]. split; [reflexivity|].
  unfold createPost, ObjectId.cast. rewrite Hv, Ht, Hc, Hcat. reflexivity.
Qed.

Lemma updatePost_ok_inv :
  forall uv store user id b file r store',
    updatePost uv store user id b file = (Ok200 r, store') ->
    exists post p',
      postValidation b = true /\
      findById store id = Some (Some post) /\
      notAuthorized post user = false /\
      applyUpdate (updateDataOf b file post) post = Some p' /\
      updateValid uv (updateDataOf b file post) = true /\
      r = Some p' /\
      store' = save p' store.
Proof.
  intros uv store user id b file r store' H. unfold updatePost in H.
  destruct (postValidation b) eqn:Ev; simpl in H; [|discriminate H].
  destruct (findById store id) as [[post|]|] eqn:Ef; try discriminate H.
  destruct (notAuthorized post user) eqn:Ea; [discriminate H|].
  unfold findByIdAndUpdate in H. rewrite Ef in H.
  destruct (updateValid uv (updateDataOf b file post)) eqn:Es; [|discriminate H].
  destruct (applyUpdate (updateDataOf b file post) post) as [p'|] eqn:Eu; [|discriminate H].
  inversion H; subst. exists post, p'. repeat split; assumption.
Qed.

(** An update of an existing post by a user who may change it, with a body
    that passes the validation chain, is decided by the cast of the category
    and by the validators of the paths it sets. *)
Lemma updatePost_outcome :
  forall uv store user id b file post,
    findById store id = Some (Some post) ->
    postValidation b = true ->
    notAuthorized post user = false ->
    updatePost uv store user id b file
    = match applyUpdate (updateDataOf b file post) post with
      | Some p' =>
          if updateValid uv (updateDataOf b file post)
          then (Ok200 (Some p'), save p' store)
          else (Failed, store)
      | None => (Failed, store)
      end.
Proof.
  intros uv store user id b file post Hf Hv Ha.
  unfold updatePost, findByIdAndUpdate. rewrite Hv, Hf, Ha. cbn [negb].
  destruct (updateValid uv (updateDataOf b file post));
    destruct (applyUpdate (updateDataOf b file post) post); reflexivity.
Qed.

Lemma applyUpdate_fields :
  forall u p p',
    applyUpdate u p = Some p' ->
    _id p' = _id p /\
    slug p' = slug p /\
    tags p' = set_tags u /\
    isPublished p' = set_isPublished u /\
    excerpt p' = orKeep (set_excerpt u) (excerpt p) /\
    content p' = orKeep (set_content u) (content p) /\
    viewCount p' = viewCount p /\
    comments p' = comments p.
Proof.
  intros u p p' H. unfold applyUpdate in H.
  destruct (match set_category u with
            | Some c => ObjectId.cast c
            | None => Some (category p)
            end); [|discriminate H].
  inversion H; subst; simpl. repeat split; reflexivity.
Qed.

Lemma find_hasId :
  forall oid store p, find (hasId oid) store = Some p -> In p store /\ _id p = oid.
Proof.
  intros oid store p H. apply find_some in H. destruct H as [Hin Hid].
  split; [exact Hin|]. unfold hasId in Hid. apply String.eqb_eq. exact Hid.
Qed.

Lemma find_save :
  forall oid store p p',
    find (hasId oid) store = Some p ->
    _id p' = oid ->
    find (hasId oid) (save p' store) = Some p'.
Proof.
  intros oid store p p' H Hid. subst oid.
  induction store as [|q store IH]; simpl in *; [discriminate H|].
  destruct (hasId (_id p') q) eqn:Eq.
  - simpl. unfold hasId. rewrite String.eqb_refl. reflexivity.
  - simpl. rewrite Eq. apply IH. exact H.
Qed.

Lemma map_other_ids :
  forall (change : Post -> Post) oid store,
    ~ In oid (map _id store) ->
    map (fun q => if hasId oid q then change q else q) store = store.
Proof.
  intros change oid store. induction store as [|r store IH]; intro Hnotin; [reflexivity|].
  simpl in *.
  assert (Hr : hasId oid r = false).
  { unfold hasId. apply String.eqb_neq. intro E. apply Hnotin. left. exact E. }
  rewrite Hr. f_equal. apply IH. intro Hin. apply Hnotin. right. exact Hin.
Qed.

(** With unique identifiers, writing a changed document back changes that
    document and no other. *)
Lemma save_map :
  forall (change : Post -> Post) store p,
    (forall q, _id (change q) = _id q) ->
    NoDup (map _id store) ->
    In p store ->
    save (change p) store =
    map (fun q => if hasId (_id p) q then change q else q) store.
Proof.
  intros change store p Hc. induction store as [|q store IH]; intros Hnd Hin.
  - destruct Hin.
  - simpl in Hnd. inversion Hnd as [|x l Hnotin Hnd']; subst.
    simpl. rewrite Hc. destruct Hin as [->|Hin].
    + assert (Hpp : hasId (_id p) p = true) by (unfold hasId; apply String.eqb_refl).
      rewrite Hpp. f_equal. symmetry. apply map_other_ids. exact Hnotin.
    + assert (Hq : hasId (_id p) q = false).
      { unfold hasId. apply String.eqb_neq. intro E. apply Hnotin.
        rewrite E. apply in_map. exact Hin. }
      rewrite Hq. f_equal. apply IH; assumption.
Qed.

Lemma findById_save :
  forall store id post p',
    findById store id = Some (Some post) ->
    _id p' = _id post ->
    findById (save p' store) id = Some (Some p').
Proof.
  intros store id post p' H Hid. unfold findById in *.
  destruct (ObjectId.cast id) as [oid|]; [|discriminate H].
  inversion H as [Hf]. destruct (find_hasId _ _ _ Hf) as [_ Ho].
  rewrite (find_save oid store post p' Hf); [reflexivity|congruence].
Qed.

(** ** Tags *)

Lemma Forall2_map_pointwise :
  forall (A B : Type) (P : A -> Prop) (Q : A -> B -> Prop) (f : A -> B) (l : list A),
    Forall P l -> (forall x, Q x (f x)) ->
    Forall2 (fun x y => P x /\ Q x y) l (map f l).
Proof.
  intros A B P Q f l HP HQ. induction HP as [|x l Hx _ IH]; simpl; constructor.
  - split; [exact Hx|apply HQ].
  - exact IH.
Qed.

Lemma specTagsOf_filter :
  forall t, specTagsOf t = filter (fun x => negb (isEmptyString x)) (tagsOf t).
Proof.
  intros [[|c s]|]; reflexivity.
Qed.

(** C6, as amended: the tag list stored by [createPost] and [updatePost] is
    the tags text split on commas with every piece trimmed, in the original
    order, nothing removed (empty pieces are kept, nothing is deduplicated);
    an absent or empty tags text gives the empty list.  The document with
    these tags is the one written to the collection: appended by a creation,
    found under the identifier after an update.  Dropping the empty entries
    of the stored list gives the list the specification words. *)
Theorem tags_stored :
  forall sv uv store user id b file fresh,
    (forall doc store',
        createPost sv store user b file fresh = (Created201 doc, store') ->
        tags doc = tagsOf (body_tags b) /\
        store' = (store ++ [doc])%list) /\
    (forall cat,
        postValidation b = true -> body_category b = Some cat ->
        ObjectId.isValid cat = true -> (forall p, sv p = true) ->
        exists doc,
          createPost sv store user b file fresh = (Created201 doc, (store ++ [doc])%list) /\
          tags doc = tagsOf (body_tags b)) /\
    (forall r store',
        updatePost uv store user id b file = (Ok200 r, store') ->
        exists p', r = Some p' /\ tags p' = tagsOf (body_tags b) /\
                   store' = save p' store /\
                   findById store' id = Some (Some p')) /\
    (Str.truthy (body_tags b) = false -> tagsOf (body_tags b) = []) /\
    (forall s, body_tags b = Some s -> s <> "" ->
        List.length (tagsOf (body_tags b)) = S (Str.count "," s) /\
        Str.join "," (Str.split "," s) = s /\
        Forall2 (fun piece tag =>
                   Str.count "," piece = O /\
                   (Str.trim tag = tag /\
                    exists l r, piece = l ++ tag ++ r /\
                                Str.all Str.isWhiteSpace l = true /\
                                Str.all Str.isWhiteSpace r = true))
          (Str.split "," s) (tagsOf (body_tags b))) /\
    specTagsOf (body_tags b) =
    filter (fun t => negb (isEmptyString t)) (tagsOf (body_tags b)).
Proof.
  intros sv uv store user id b file fresh.
  split; [|split; [|split; [|split; [|split]]]].
  - intros doc store' H.
    destruct (createPost_created_inv _ _ _ _ _ _ _ _ H)
      as (text & cat & catId & _ & _ & _ & _ & Hdoc & _ & Hs).
    split; [subst doc; reflexivity|exact Hs].
  - intros cat Hv Hc Hcat Hsv.
    destruct (createPost_outcome sv store user b file fresh cat Hv Hc Hcat)
      as (text & doc & _ & Hdoc & Hout).
    rewrite Hsv in Hout. exists doc. split; [exact Hout|]. subst doc. reflexivity.
  - intros r store' H.
    destruct (updatePost_ok_inv _ _ _ _ _ _ _ _ H)
      as (post & p' & _ & Hf & _ & Hu & _ & Hr & Hs).
    exists p'. split; [exact Hr|].
    apply applyUpdate_fields in Hu. destruct Hu as (Hid & _ & Ht & _).
    split; [exact Ht|]. split; [exact Hs|].
    subst store'. apply (findById_save store id post p' Hf Hid).
  - intro Ht. unfold tagsOf. rewrite Ht. reflexivity.
  - intros s H Hne. split; [|split].
    + rewrite H. destruct s as [|c s]; [contradiction|].
      unfold tagsOf. cbn [Str.truthy]. rewrite length_map. apply split_length.
    + apply join_split.
    + rewrite H. destruct s as [|c s]; [contradiction|].
      unfold tagsOf. cbn [Str.truthy].
      apply Forall2_map_pointwise with
        (Q := fun piece tag =>
                Str.trim tag = tag /\
                exists l r, piece = l ++ tag ++ r /\
                            Str.all Str.isWhiteSpace l = true /\
                            Str.all Str.isWhiteSpace r = true).
      * apply split_pieces_clean.
      * intro x. split; [apply trim_idempotent|apply trim_decompose].
  - apply specTagsOf_filter.
Qed.

(** [tags_stored] at an update by the owner whose tags text is "a,,b". *)
Lemma tags_stored_witness :
  exists p' store',
    updatePost acceptUpdates sampleStore alice (_id firstPost) sampleBody None
    = (Ok200 (Some p'), store') /\
    tags p' = ["a"; ""; "b"] /\
    findById store' (_id firstPost) = Some (Some p') /\
    List.length (tagsOf (body_tags sampleBody)) = 3%nat.
Proof.
  eexists; eexists. split; [reflexivity|].
  pose proof (tags_stored acceptAll acceptUpdates sampleStore alice (_id firstPost)
                sampleBody None sampleFresh) as (_ & _ & Hupd & _ & Hpieces & _).
  destruct (Hupd _ _ eq_refl) as (p' & Hp & Ht & _ & Hfound).
  inversion Hp; subst. split; [exact Ht|]. split; [exact Hfound|].
  destruct (Hpieces "a,,b" eq_refl) as (Hlen & _); [discriminate|exact Hlen].
Defined.

(** C6 as stated fails: an empty piece between two commas is stored, not
    dropped. *)
Lemma tags_stored_counterexample :
  exists doc store',
    createPost acceptAll sampleStore alice sampleBody None sampleFresh
    = (Created201 doc, store') /\
    In doc store' /\
    tags doc = ["a"; ""; "b"] /\
    specTagsOf (body_tags sampleBody) = ["a"; "b"] /\
    tags doc <> specTagsOf (body_tags sampleBody).
Proof.
  eexists; eexists. split; [reflexivity|].
  split; [simpl; tauto|].
  split; [reflexivity|]. split; [reflexivity|].
  simpl. discriminate.
Qed.

(** ** Excerpt *)

Lemma substring_whole :
  forall n s, (String.length s <= n)%nat -> substring 0 n s = s.
Proof.
  induction n as [|n IH]; intros s H.
  - destruct s; [reflexivity|simpl in H; lia].
  - destruct s as [|c s]; [reflexivity|].
    simpl. rewrite IH; [reflexivity|simpl in H; lia].
Qed.

Lemma generatedExcerpt_long :
  forall text, (200 < String.length text)%nat -> generatedExcerpt text = specExcerpt text.
Proof.
  intros text H. unfold specExcerpt, generatedExcerpt.
  destruct (Nat.ltb_spec 200 (String.length text)); [reflexivity|lia].
Qed.

Lemma generatedExcerpt_short :
  forall text, (String.length text <= 200)%nat -> generatedExcerpt text = text ++ "...".
Proof.
  intros text H. unfold generatedExcerpt. rewrite substring_whole; [reflexivity|exact H].
Qed.

Lemma truthy_some :
  forall e, e <> "" -> Str.truthy (Some e) = true.
Proof. intros [|c e] H; [contradiction|reflexivity]. Qed.

Lemma length_append_string :
  forall a b : string, String.length (a ++ b) = (String.length a + String.length b)%nat.
Proof.
  induction a as [|c a IH]; intro b; simpl; [reflexivity|]. rewrite IH. reflexivity.
Qed.

Lemma length_substring_prefix :
  forall n s, String.length (substring 0 n s) = Nat.min n (String.length s).
Proof.
  induction n as [|n IH]; intro s.
  - destruct s; reflexivity.
  - destruct s as [|c s]; simpl; [reflexivity|]. rewrite IH. reflexivity.
Qed.

(** The derived excerpt is three characters longer than the part of the
    content it keeps. *)
Lemma generatedExcerpt_length :
  forall text,
    String.length (generatedExcerpt text) = (Nat.min 200 (String.length text) + 3)%nat.
Proof.
  intro text. unfold generatedExcerpt.
  rewrite length_append_string, length_substring_prefix. reflexivity.
Qed.

(** ** The owner-or-admin test *)

Lemma notAuthorized_false :
  forall post user, notAuthorized post user = false <-> permitted post user.
Proof.
  intros post user. unfold notAuthorized, permitted.
  destruct (String.eqb_spec (author post) (user_id user));
    destruct (String.eqb_spec (role user) "admin"); simpl; split; intro H;
    try reflexivity; try discriminate; try tauto.
Qed.

Lemma notAuthorized_true :
  forall post user, notAuthorized post user = true <-> ~ permitted post user.
Proof.
  intros post user. rewrite <- notAuthorized_false.
  destruct (notAuthorized post user); split; intro H;
    try reflexivity; try discriminate; congruence.
Qed.

(** ** The excerpt that is stored *)

(** C3, as amended: on [createPost] a non-empty excerpt is stored as it is;
    otherwise the stored excerpt is the first 200 characters of the content
    followed by the marker "...", whatever the length of the content (so a
    content of at most 200 characters is stored followed by the marker).  On
    [updatePost] the same derivation is applied exactly when no excerpt is
    supplied and the content differs from the stored one; with no excerpt
    and the same content the stored excerpt is kept.  The document with this
    excerpt is the one written to the collection, and it is written only if
    the Post schema accepts it: under a limit of 200 characters on the
    excerpt, which the data model states, a creation or a content-changing
    update that leaves the excerpt to be derived from a content of 198
    characters or more is refused and writes nothing. *)
Theorem excerpt_stored :
  forall sv uv store user id b file fresh,
    (forall doc store',
        createPost sv store user b file fresh = (Created201 doc, store') ->
        store' = (store ++ [doc])%list /\
        exists text,
          body_content b = Some text /\
          (forall e, body_excerpt b = Some e -> e <> "" -> excerpt doc = e) /\
          (Str.truthy (body_excerpt b) = false ->
           excerpt doc = substring 0 200 text ++ "..." /\
           ((200 < String.length text)%nat -> excerpt doc = specExcerpt text) /\
           ((String.length text <= 200)%nat -> excerpt doc = text ++ "..."))) /\
    (forall cat,
        postValidation b = true -> body_category b = Some cat ->
        ObjectId.isValid cat = true -> (forall p, sv p = true) ->
        exists doc,
          createPost sv store user b file fresh = (Created201 doc, (store ++ [doc])%list)) /\
    ((forall p, sv p = true -> (String.length (excerpt p) <= 200)%nat) ->
     forall text,
       postValidation b = true -> body_content b = Some text ->
       Str.truthy (body_excerpt b) = false -> (198 <= String.length text)%nat ->
       createPost sv store user b file fresh = (Failed, store)) /\
    (forall r store',
        updatePost uv store user id b file = (Ok200 r, store') ->
        exists post p' text,
          findById store id = Some (Some post) /\
          r = Some p' /\
          store' = save p' store /\
          findById store' id = Some (Some p') /\
          body_content b = Some text /\
          (forall e, body_excerpt b = Some e -> e <> "" -> excerpt p' = e) /\
          (Str.truthy (body_excerpt b) = false -> text <> content post ->
           excerpt p' = substring 0 200 text ++ "...") /\
          (Str.truthy (body_excerpt b) = false -> text = content post ->
           excerpt p' = excerpt post)) /\
    ((forall e, valid_excerpt uv e = true -> (String.length e <= 200)%nat) ->
     forall post text,
       findById store id = Some (Some post) -> permitted post user ->
       postValidation b = true -> body_content b = Some text ->
       Str.truthy (body_excerpt b) = false -> text <> content post ->
       (198 <= String.length text)%nat ->
       updatePost uv store user id b file = (Failed, store)).
Proof.
  intros sv uv store user id b file fresh.
  split; [|split; [|split; [|split]]].
  - intros doc store' H.
    destruct (createPost_created_inv _ _ _ _ _ _ _ _ H)
      as (text & cat & catId & _ & Hc & _ & _ & Hdoc & _ & Hs).
    split; [exact Hs|].
    exists text. split; [exact Hc|]. subst doc. cbn [excerpt]. split.
    + intros e He Hne. rewrite He, (truthy_some e Hne). reflexivity.
    + intro Hf. rewrite Hf. split; [reflexivity|]. split.
      * apply generatedExcerpt_long.
      * apply generatedExcerpt_short.
  - intros cat Hv Hc Hcat Hsv.
    destruct (createPost_outcome sv store user b file fresh cat Hv Hc Hcat)
      as (text & doc & _ & _ & Hout).
    rewrite Hsv in Hout. exists doc. exact Hout.
  - intros Hlimit text Hv Hc He Hlen.
    unfold createPost. rewrite Hv, Hc, He. cbn [negb].
    destruct (body_category b) as [cat|]; [|reflexivity].
    destruct (ObjectId.cast cat) as [catId|]; [|reflexivity].
    match goal with
    | |- (if sv ?d then _ else _) = _ => destruct (sv d) eqn:Es; [|reflexivity]
    end.
    exfalso. apply Hlimit in Es. cbn [excerpt] in Es.
    rewrite generatedExcerpt_length in Es. lia.
  - intros r store' H.
    destruct (updatePost_ok_inv _ _ _ _ _ _ _ _ H)
      as (post & p' & Hv & Hf & _ & Hu & _ & Hr & Hs).
    apply applyUpdate_fields in Hu.
    destruct Hu as (Hid & _ & _ & _ & He & _). cbn [updateDataOf set_excerpt] in He.
    destruct (postValidation_content b Hv) as (text & Eb & Hne).
    pose proof (truthy_some text Hne) as Hc.
    exists post, p', text.
    split; [exact Hf|]. split; [exact Hr|]. split; [exact Hs|].
    split; [subst store'; apply (findById_save store id post p' Hf Hid)|].
    split; [exact Eb|]. split; [|split].
    + intros e Ee Hnee. rewrite He. unfold updateExcerpt.
      rewrite Ee, (truthy_some e Hnee). reflexivity.
    + intros Ht Hnc. rewrite He. unfold updateExcerpt. rewrite Ht, Eb, Hc.
      destruct (String.eqb_spec text (content post)); [contradiction|reflexivity].
    + intros Ht Heq. rewrite He. unfold updateExcerpt. rewrite Ht, Eb, Hc.
      destruct (String.eqb_spec text (content post)); [reflexivity|contradiction].
  - intros Hlimit post text Hf Hp Hv Hc He Hnc Hlen.
    apply notAuthorized_false in Hp.
    rewrite (updatePost_outcome uv store user id b file post Hf Hv Hp).
    destruct (applyUpdate (updateDataOf b file post) post) as [p'|]; [|reflexivity].
    destruct (updateValid uv (updateDataOf b file post)) eqn:Es; [|reflexivity].
    exfalso. unfold updateValid in Es.
    repeat (apply andb_true_iff in Es; destruct Es as [Es ?]).
    match goal with
    | Hx : validIfSet (valid_excerpt uv) _ = true |- _ => rename Hx into Hex
    end.
    cbn [updateDataOf set_excerpt] in Hex. unfold updateExcerpt in Hex.
    assert (Hne : text <> "").
    { destruct (postValidation_content b Hv) as (t & Et & Hn). congruence. }
    rewrite He, Hc, (truthy_some text Hne) in Hex.
    destruct (String.eqb_spec text (content post)); [contradiction|].
    cbn [andb negb validIfSet] in Hex. apply Hlimit in Hex.
    rewrite generatedExcerpt_length in Hex. lia.
Qed.

(** [excerpt_stored] at a creation with the short content "hi" and no
    excerpt. *)
Lemma excerpt_stored_witness :
  exists doc store',
    createPost lengthLimits sampleStore alice
      (mkBody (Some "Note") (Some "hi") (Some techCategory) None None None)
      None sampleFresh = (Created201 doc, store') /\
    excerpt doc = "hi..." /\
    store' = (sampleStore ++ [doc])%list.
Proof.
  eexists; eexists. split; [reflexivity|].
  pose proof (excerpt_stored lengthLimits updateLimits sampleStore alice (_id firstPost)
                (mkBody (Some "Note") (Some "hi") (Some techCategory) None None None)
                None sampleFresh) as (Hcreate & _).
  destruct (Hcreate _ _ eq_refl) as (Hstore & text & Ht & _ & Hgen).
  inversion Ht; subst text.
  destruct (Hgen eq_refl) as (_ & _ & Hshort).
  split; [apply Hshort; simpl; lia|exact Hstore].
Defined.

(** C3 as stated fails: for a content of at most 200 characters the stored
    excerpt is the content followed by "...", not the content itself. *)
Lemma excerpt_stored_counterexample :
  exists doc store',
    createPost lengthLimits sampleStore alice
      (mkBody (Some "Note") (Some "hi") (Some techCategory) None None None)
      None sampleFresh = (Created201 doc, store') /\
    In doc store' /\
    excerpt doc = "hi..." /\
    specExcerpt "hi" = "hi" /\
    excerpt doc <> specExcerpt "hi".
Proof.
  eexists; eexists. split; [reflexivity|].
  split; [simpl; tauto|].
  split; [reflexivity|]. split; [reflexivity|].
  simpl. discriminate.
Qed.

(** ** Updates overwrite tags and the published flag *)

Lemma isTrueText_other :
  forall v, v <> Some "true" -> isTrueText v = false.
Proof.
  intros [s|] H; [|reflexivity]. simpl.
  destruct (String.eqb_spec s "true") as [->|Hne]; [contradiction H|]; reflexivity.
Qed.

(** C10: on every authorized [updatePost] call (existing post, valid body,
    author or admin) the tags and the published flag handed to the store
    are functions of the request body alone, and unless the store refuses
    the write they replace what was stored: with the tags field left out the
    tag list becomes empty, and with an [isPublished] field that is not
    exactly the text "true" (left out included) the post becomes
    unpublished, whatever was stored before. *)
Theorem updatePost_resets_tags_and_flag :
  forall sv store user id b file post,
    findById store id = Some (Some post) ->
    postValidation b = true ->
    permitted post user ->
    set_tags (updateDataOf b file post) = tagsOf (body_tags b) /\
    set_isPublished (updateDataOf b file post) = isTrueText (body_isPublished b) /\
    (updatePost sv store user id b file = (Failed, store) \/
     exists p',
       updatePost sv store user id b file = (Ok200 (Some p'), save p' store) /\
       findById (save p' store) id = Some (Some p') /\
       tags p' = tagsOf (body_tags b) /\
       isPublished p' = isTrueText (body_isPublished b) /\
       (body_tags b = None -> tags p' = []) /\
       (body_isPublished b <> Some "true" -> isPublished p' = false)).
Proof.
  intros sv store user id b file post Hf Hv Hp.
  split; [reflexivity|]. split; [reflexivity|].
  apply notAuthorized_false in Hp.
  rewrite (updatePost_outcome sv store user id b file post Hf Hv Hp).
  destruct (applyUpdate (updateDataOf b file post) post) as [p'|] eqn:Hu;
    [|left; reflexivity].
  destruct (updateValid sv (updateDataOf b file post)); [|left; reflexivity].
  right. exists p'.
  apply applyUpdate_fields in Hu.
  destruct Hu as (Hid & _ & Ht & Hpub & _).
  cbn [updateDataOf set_tags set_isPublished] in Ht, Hpub.
  repeat split; try assumption.
  - apply (findById_save store id post p' Hf Hid).
  - intro Hn. rewrite Ht, Hn. reflexivity.
  - intro Hn. rewrite Hpub. apply isTrueText_other. exact Hn.
Qed.

(** [updatePost_resets_tags_and_flag] at an update by the owner that sends
    only title, content and category: the published post with two tags
    comes out unpublished and without tags. *)
Lemma updatePost_resets_tags_and_flag_witness :
  isPublished firstPost = true /\
  tags firstPost = ["react"; "javascript"] /\
  exists p',
    updatePost updateLimits sampleStore alice (_id firstPost)
      (mkBody (Some "Retitled") (Some "This is the content") (Some techCategory)
         None None None) None
    = (Ok200 (Some p'), save p' sampleStore) /\
    findById (save p' sampleStore) (_id firstPost) = Some (Some p') /\
    tags p' = [] /\ isPublished p' = false.
Proof.
  split; [reflexivity|]. split; [reflexivity|].
  destruct (updatePost_resets_tags_and_flag updateLimits sampleStore alice (_id firstPost)
              (mkBody (Some "Retitled") (Some "This is the content") (Some techCategory)
                 None None None) None firstPost eq_refl eq_refl (or_introl eq_refl))
    as (_ & _ & [Hfail|(p' & Hok & Hstored & _ & _ & Htags & Hflag)]).
  - vm_compute in Hfail. discriminate Hfail.
  - exists p'. split; [exact Hok|]. split; [exact Hstored|].
    split; [exact (Htags eq_refl)|]. apply Hflag. discriminate.
Defined.

(** ** Owner-or-admin *)

(** C1, as amended: for a [deletePost] request on an existing post, and for
    an [updatePost] request on an existing post whose body passes the
    validation chain, the handler goes on to the mutation if and only if the
    acting user is the author of the post or has the role "admin", and
    otherwise answers 403 Forbidden; an [updatePost] request whose body
    fails validation is answered 400 before the owner is looked at, whoever
    sends it.  No request by a user who is neither author nor admin changes
    the collection. *)
Theorem mutation_authorization :
  forall sv store user id b file post,
    findById store id = Some (Some post) ->
    (fst (deletePost store user id) = Forbidden403 <-> ~ permitted post user) /\
    (permitted post user ->
     deletePost store user id = (Ok200 tt, deleteById (_id post) store)) /\
    (~ permitted post user -> deletePost store user id = (Forbidden403, store)) /\
    (postValidation b = false ->
     updatePost sv store user id b file = (BadRequest400, store)) /\
    (postValidation b = true ->
     (fst (updatePost sv store user id b file) = Forbidden403 <-> ~ permitted post user)) /\
    (postValidation b = true -> ~ permitted post user ->
     updatePost sv store user id b file = (Forbidden403, store)) /\
    (postValidation b = true -> permitted post user ->
     updatePost sv store user id b file =
     match findByIdAndUpdate sv store id (updateDataOf b file post) with
     | Some (updated, store') => (Ok200 updated, store')
     | None => (Failed, store)
     end) /\
    (~ permitted post user ->
     snd (updatePost sv store user id b file) = store /\
     (fst (updatePost sv store user id b file) = Forbidden403 \/
      fst (updatePost sv store user id b file) = BadRequest400)).
Proof.
  intros sv store user id b file post Hf.
  assert (Hdel : findByIdAndDelete store id = Some (deleteById (_id post) store)).
  { unfold findByIdAndDelete. unfold findById in Hf.
    destruct (ObjectId.cast id) as [oid|]; [|discriminate Hf].
    inversion Hf as [Hfind]. destruct (find_hasId _ _ _ Hfind) as [_ ->]. reflexivity. }
  unfold deletePost, updatePost. rewrite Hf, Hdel.
  destruct (notAuthorized post user) eqn:Ea.
  - assert (Hn : ~ permitted post user) by (apply notAuthorized_true; exact Ea).
    repeat split; intros; simpl; try tauto; try contradiction.
    + rewrite H. reflexivity.
    + rewrite H. reflexivity.
    + rewrite H. reflexivity.
    + destruct (postValidation b); reflexivity.
    + destruct (postValidation b); simpl; [left|right]; reflexivity.
  - assert (Hp : permitted post user) by (apply notAuthorized_false; exact Ea).
    repeat split; intros; simpl; try tauto; try contradiction; try discriminate.
    + rewrite H. reflexivity.
    + rewrite H in H0. simpl in H0.
      destruct (findByIdAndUpdate sv store id (updateDataOf b file post)) as [[u s']|];
        discriminate H0.
    + rewrite H. reflexivity.
Qed.

(** [mutation_authorization] at the first post: its author and an admin may
    delete it, another user is answered 403 on delete and on a valid update
    and leaves the collection as it was; with a body that fails validation
    the author is answered 400. *)
Lemma mutation_authorization_witness :
  deletePost sampleStore alice (_id firstPost) = (Ok200 tt, [secondPost; draftPost]) /\
  deletePost sampleStore root (_id firstPost) = (Ok200 tt, [secondPost; draftPost]) /\
  deletePost sampleStore bob (_id firstPost) = (Forbidden403, sampleStore) /\
  updatePost acceptUpdates sampleStore bob (_id firstPost) sampleBody None
  = (Forbidden403, sampleStore) /\
  updatePost acceptUpdates sampleStore alice (_id firstPost)
    (mkBody None (Some "Edited content") (Some techCategory) None None None) None
  = (BadRequest400, sampleStore).
Proof.
  pose proof (fun user b =>
                mutation_authorization acceptUpdates sampleStore user (_id firstPost)
                  b None firstPost eq_refl) as H.
  assert (Hn : ~ permitted firstPost bob).
  { intros [E|E]; discriminate E. }
  split; [|split; [|split; [|split]]].
  - destruct (H alice sampleBody) as (_ & Hd & _). apply Hd. left. reflexivity.
  - destruct (H root sampleBody) as (_ & Hd & _). apply Hd. right. reflexivity.
  - destruct (H bob sampleBody) as (_ & _ & Hd & _). exact (Hd Hn).
  - destruct (H bob sampleBody) as (_ & _ & _ & _ & _ & Hu & _). exact (Hu eq_refl Hn).
  - destruct (H alice (mkBody None (Some "Edited content") (Some techCategory)
                         None None None)) as (_ & _ & _ & Hbad & _).
    exact (Hbad eq_refl).
Defined.

(** C1 as stated fails: an update by a user who is neither author nor admin
    is answered 400, not 403, when its body fails validation. *)
Lemma mutation_authorization_counterexample :
  findById sampleStore (_id firstPost) = Some (Some firstPost) /\
  ~ permitted firstPost bob /\
  updatePost acceptUpdates sampleStore bob (_id firstPost)
    (mkBody None (Some "Edited content") (Some techCategory) None None None) None
  = (BadRequest400, sampleStore) /\
  fst (updatePost acceptUpdates sampleStore bob (_id firstPost)
         (mkBody None (Some "Edited content") (Some techCategory) None None None) None)
  <> Forbidden403.
Proof.
  split; [reflexivity|]. split.
  - intros [E|E]; discriminate E.
  - split; [reflexivity|]. simpl. discriminate.
Qed.
(** ** Reading one post *)

Lemma incrementViewCount_id : forall q, _id (incrementViewCount q) = _id q.
Proof. reflexivity. Qed.

Lemma find_unique_key :
  forall (key : Post -> string) store p,
    NoDup (map key store) -> In p store ->
    find (fun q => String.eqb (key q) (key p)) store = Some p.
Proof.
  intros key store p. induction store as [|q store IH]; intros Hnd Hin; [destruct Hin|].
  simpl in Hnd. inversion Hnd as [|x l Hnotin Hnd']; subst.
  simpl. destruct Hin as [->|Hin].
  - rewrite String.eqb_refl. reflexivity.
  - destruct (String.eqb_spec (key q) (key p)) as [E|_].
    + exfalso. apply Hnotin. rewrite E. apply in_map. exact Hin.
    + apply IH; assumption.
Qed.

Lemma cast_isValid :
  forall s oid, ObjectId.cast s = Some oid -> ObjectId.isValid s = true.
Proof.
  intros s oid H. unfold ObjectId.cast in H.
  destruct (ObjectId.isValid s); [reflexivity|discriminate H].
Qed.

Lemma isValid_cast :
  forall s, ObjectId.isValid s = true -> ObjectId.cast s = Some (Str.toLowerCase s).
Proof. intros s H. unfold ObjectId.cast. rewrite H. reflexivity. Qed.

Lemma getPost_found_inv :
  forall store param post store',
    getPost store param = (Ok200 post, store') ->
    exists old,
      In old store /\
      post = incrementViewCount old /\
      store' = save post store /\
      (if ObjectId.isValid param
       then ObjectId.cast param = Some (_id old)
       else slug old = param).
Proof.
  intros store param post store' H. unfold getPost in H.
  destruct (ObjectId.isValid param) eqn:Ev.
  - unfold findById in H. rewrite (isValid_cast param Ev) in H.
    destruct (find (hasId (Str.toLowerCase param)) store) as [old|] eqn:Ef;
      [|discriminate H].
    inversion H; subst. exists old.
    destruct (find_hasId _ _ _ Ef) as [Hin Hid].
    repeat split; [exact Hin|]. rewrite Hid. apply isValid_cast. exact Ev.
  - unfold findOneBySlug in H.
    destruct (find (fun p => String.eqb (slug p) param) store) as [old|] eqn:Ef;
      [|discriminate H].
    inversion H; subst. exists old.
    apply find_some in Ef. destruct Ef as [Hin Hs].
    repeat split; [exact Hin|]. apply String.eqb_eq. exact Hs.
Qed.

Lemma getPost_not_found_store :
  forall store param,
    fst (getPost store param) = NotFound404 -> snd (getPost store param) = store.
Proof.
  intros store param. unfold getPost.
  destruct (if ObjectId.isValid param
            then match findById store param with
                 | Some r => r
                 | None => None
                 end
            else findOneBySlug store param); simpl; [discriminate|reflexivity].
Qed.

Lemma getPost_answered :
  forall store param p,
    In p store ->
    (if ObjectId.isValid param then _id p = Str.toLowerCase param else slug p = param) ->
    exists post store', getPost store param = (Ok200 post, store').
Proof.
  intros store param p Hin Hres. unfold getPost.
  destruct (ObjectId.isValid param) eqn:Ev.
  - unfold findById. rewrite (isValid_cast param Ev).
    destruct (find (hasId (Str.toLowerCase param)) store) as [old|] eqn:Ef.
    + eexists; eexists; reflexivity.
    + exfalso. pose proof (find_none _ _ Ef p Hin) as Hno.
      unfold hasId in Hno. rewrite Hres, String.eqb_refl in Hno. discriminate Hno.
  - unfold findOneBySlug.
    destruct (find (fun q => String.eqb (slug q) param) store) as [old|] eqn:Ef.
    + eexists; eexists; reflexivity.
    + exfalso. pose proof (find_none _ _ Ef p Hin) as Hno. cbv beta in Hno.
      rewrite Hres, String.eqb_refl in Hno. discriminate Hno.
Qed.

(** C4: with the schema method [incrementViewCount] as the specification
    describes it, a [getPost] call that finds a post - the post whose
    identifier the parameter is, when the parameter has the form of an
    identifier, and otherwise a post whose slug it is - answers with that
    post and a view count one above the stored one, and leaves a collection
    in which that post, and no other, has its view count raised by exactly
    1; the call finds a post whenever there is such a post; and a call
    answered 404 leaves the collection as it was. *)
Theorem getPost_view_count :
  forall store param,
    NoDup (map _id store) ->
    (forall post store',
        getPost store param = (Ok200 post, store') ->
        exists old,
          In old store /\
          (if ObjectId.isValid param
           then _id old = Str.toLowerCase param
           else slug old = param) /\
          post = incrementViewCount old /\
          viewCount post = viewCount old + 1 /\
          store' = map (fun q => if hasId (_id old) q
                                 then incrementViewCount q else q) store /\
          map viewCount store' =
          map (fun q => if hasId (_id old) q then viewCount q + 1 else viewCount q) store) /\
    (forall p,
        In p store ->
        (if ObjectId.isValid param then _id p = Str.toLowerCase param else slug p = param) ->
        exists post store', getPost store param = (Ok200 post, store')) /\
    (fst (getPost store param) = NotFound404 -> snd (getPost store param) = store).
Proof.
  intros store param Hnd. split; [|split].
  - intros post store' H.
    destruct (getPost_found_inv store param post store' H) as (old & Hin & Hp & Hs & Hres).
    exists old. split; [exact Hin|]. split.
    { destruct (ObjectId.isValid param) eqn:Ev; [|exact Hres].
      rewrite (isValid_cast param Ev) in Hres. congruence. }
    split; [exact Hp|].
    split; [subst post; reflexivity|].
    assert (Hmap : store' = map (fun q => if hasId (_id old) q
                                          then incrementViewCount q else q) store).
    { subst store' post.
      apply (save_map incrementViewCount store old incrementViewCount_id Hnd Hin). }
    split; [exact Hmap|].
    rewrite Hmap, map_map. apply map_ext. intro q.
    destruct (hasId (_id old) q); reflexivity.
  - apply getPost_answered.
  - apply getPost_not_found_store.
Qed.

(** [getPost_view_count] at a read of the first post by its slug: the
    count answered is 1 and the other posts keep theirs. *)
Lemma getPost_view_count_witness :
  NoDup (map _id sampleStore) /\
  getPost sampleStore "my-first-post"
  = (Ok200 (incrementViewCount firstPost),
     [incrementViewCount firstPost; secondPost; draftPost]) /\
  map viewCount sampleStore = [0; 3; 0] /\
  exists old,
    In old sampleStore /\
    slug old = "my-first-post" /\
    incrementViewCount firstPost = incrementViewCount old /\
    viewCount (incrementViewCount firstPost) = viewCount old + 1 /\
    [incrementViewCount firstPost; secondPost; draftPost] =
    map (fun q => if hasId (_id old) q then incrementViewCount q else q) sampleStore /\
    map viewCount [incrementViewCount firstPost; secondPost; draftPost] =
    map (fun q => if hasId (_id old) q then viewCount q + 1 else viewCount q) sampleStore.
Proof.
  assert (Hnd : NoDup (map _id sampleStore)).
  { repeat constructor; simpl; intuition discriminate. }
  split; [exact Hnd|]. split; [reflexivity|]. split; [reflexivity|].
  exact (proj1 (getPost_view_count sampleStore "my-first-post" Hnd) _ _ eq_refl).
Defined.

Lemma getPost_by_id :
  forall store p,
    NoDup (map _id store) -> ObjectId.cast (_id p) = Some (_id p) -> In p store ->
    getPost store (_id p) = (Ok200 (incrementViewCount p), save (incrementViewCount p) store).
Proof.
  intros store p Hnd Hc Hin.
  unfold getPost, findById. rewrite (cast_isValid _ _ Hc), Hc.
  unfold hasId. rewrite (find_unique_key _id store p Hnd Hin).
  reflexivity.
Qed.

Lemma getPost_by_slug :
  forall store p,
    NoDup (map slug store) -> ObjectId.isValid (slug p) = false -> In p store ->
    getPost store (slug p) = (Ok200 (incrementViewCount p), save (incrementViewCount p) store).
Proof.
  intros store p Hnd Hs Hin.
  unfold getPost, findOneBySlug. rewrite Hs.
  rewrite (find_unique_key slug store p Hnd Hin).
  reflexivity.
Qed.

Lemma getPost_not_found_iff :
  forall store param,
    fst (getPost store param) = NotFound404 <->
    if ObjectId.isValid param
    then ~ resolvesAsId store param
    else ~ resolvesAsSlug store param.
Proof.
  intros store param. unfold getPost.
  destruct (ObjectId.isValid param) eqn:Ev.
  - unfold findById. rewrite (isValid_cast param Ev).
    destruct (find (hasId (Str.toLowerCase param)) store) as [old|] eqn:Ef; simpl.
    + split; [discriminate|]. intros Hid. exfalso. apply Hid.
      destruct (find_hasId _ _ _ Ef) as [Hin Ho].
      exists old, (Str.toLowerCase param).
      split; [exact Hin|]. split; [apply isValid_cast; exact Ev|exact Ho].
    + split; [|reflexivity]. intros _.
      intros (p & oid & Hin & Hc & Ho).
      rewrite (isValid_cast param Ev) in Hc. injection Hc as Hc.
      pose proof (find_none _ _ Ef p Hin) as Hno.
      unfold hasId in Hno. rewrite Ho, Hc, String.eqb_refl in Hno. discriminate Hno.
  - unfold findOneBySlug.
    destruct (find (fun p => String.eqb (slug p) param) store) as [old|] eqn:Ef; simpl.
    + split; [discriminate|]. intros Hs. exfalso. apply Hs.
      apply find_some in Ef. destruct Ef as [Hin He].
      exists old. split; [exact Hin|]. apply String.eqb_eq. exact He.
    + split; [|reflexivity]. intros _.
      intros (p & Hin & Hs).
      pose proof (find_none _ _ Ef p Hin) as Hno. cbv beta in Hno.
      rewrite Hs, String.eqb_refl in Hno. discriminate Hno.
Qed.

(** C5, as amended: [getPost] looks the parameter up as an identifier when
    it is a text of 24 hexadecimal digits and as a slug otherwise, never as
    both.  A post whose identifier is unique is answered when read by its
    identifier; a post whose slug is unique is answered, as the identical
    record, when read by its slug, provided the slug is not itself a text of
    24 hexadecimal digits.  Every answer is the post the parameter resolves
    to in the one way it is read, and the answer is 404 exactly when the
    parameter, read in that way, resolves to no post. *)
Theorem getPost_by_id_or_slug :
  forall store,
    (forall p,
        In p store ->
        NoDup (map _id store) -> ObjectId.cast (_id p) = Some (_id p) ->
        fst (getPost store (_id p)) = Ok200 (incrementViewCount p) /\
        (NoDup (map slug store) -> ObjectId.isValid (slug p) = false ->
         getPost store (slug p) = getPost store (_id p))) /\
    (forall param post,
        fst (getPost store param) = Ok200 post ->
        exists p, In p store /\ post = incrementViewCount p /\
                  (if ObjectId.isValid param
                   then ObjectId.cast param = Some (_id p)
                   else slug p = param)) /\
    (forall param,
        fst (getPost store param) = NotFound404 <->
        if ObjectId.isValid param
        then ~ resolvesAsId store param
        else ~ resolvesAsSlug store param).
Proof.
  intros store. split; [|split].
  - intros p Hin Hnd Hc.
    rewrite (getPost_by_id store p Hnd Hc Hin). split; [reflexivity|].
    intros Hslugs Hs. apply (getPost_by_slug store p Hslugs Hs Hin).
  - intros param post H.
    destruct (getPost store param) as [r store'] eqn:E. simpl in H. subst r.
    destruct (getPost_found_inv store param post store' E) as (old & Hin & Hp & _ & Hd).
    exists old. split; [exact Hin|]. split; [exact Hp|exact Hd].
  - intro param. apply getPost_not_found_iff.
Qed.

(** [getPost_by_id_or_slug] at the sample collection: the second post read
    by identifier and by slug, and a slug nobody has. *)
Lemma getPost_by_id_or_slug_witness :
  getPost sampleStore "release-notes" = getPost sampleStore (_id secondPost) /\
  fst (getPost sampleStore (_id secondPost)) = Ok200 (incrementViewCount secondPost) /\
  fst (getPost sampleStore "no-such-post") = NotFound404.
Proof.
  pose proof (getPost_by_id_or_slug sampleStore) as (Hsame & _ & Hnf).
  destruct (Hsame secondPost) as [H1 H2]; [right; left; reflexivity| |reflexivity|].
  - repeat constructor; simpl; intuition discriminate.
  - split; [|split; [exact H1|]].
    + apply H2; [|reflexivity]. repeat constructor; simpl; intuition discriminate.
    + apply (Hnf "no-such-post"). simpl.
      intros (p & [E|[E|[E|[]]]] & Hs); subst p; discriminate Hs.
Defined.

(** C5 as stated fails: a post whose slug is a text of 24 hexadecimal digits
    is answered when read by its identifier, and not found when read by its
    slug, although the slug resolves to it. *)
Lemma getPost_by_id_or_slug_counterexample :
  let odd := mkPost (_id firstPost) "Hex" "deadbeefdeadbeefdeadbeef" "x" "x..."
               (user_id alice) techCategory [] None true 0 [] 1 in
  NoDup (map _id [odd]) /\ NoDup (map slug [odd]) /\
  resolvesAsSlug [odd] (slug odd) /\
  fst (getPost [odd] (_id odd)) = Ok200 (incrementViewCount odd) /\
  getPost [odd] (slug odd) = (NotFound404, [odd]) /\
  getPost [odd] (slug odd) <> getPost [odd] (_id odd).
Proof.
  cbv zeta. split; [repeat constructor; simpl; tauto|].
  split; [repeat constructor; simpl; tauto|].
  split; [eexists; split; [left; reflexivity|reflexivity]|].
  split; [reflexivity|]. split; [reflexivity|].
  vm_compute. discriminate.
Qed.

(** ** Comments *)

Lemma schemaAddComment_id :
  forall userId text q, _id (schemaAddComment userId text q) = _id q.
Proof. reflexivity. Qed.

Lemma trim_nonempty_source : forall t, Str.trim t <> "" -> t <> "".
Proof. intros t H E. subst t. apply H. reflexivity. Qed.

(** C7, as amended: [addComment] answers 400 exactly when the submitted
    content is absent or the empty text (the handler does not trim), and
    then adds no comment; no request that is not answered 201 changes the
    collection; and when the content is not empty after trimming and the
    target post exists, the handler hands it to the schema method, which, as
    the specification describes it, appends the comment at the end of the
    comments of that post and of no other. *)
Theorem addComment_validation :
  forall store user postId text,
    (fst (addComment store user postId text) = BadRequest400 <-> Str.truthy text = false) /\
    (Str.truthy text = false -> addComment store user postId text = (BadRequest400, store)) /\
    ((forall cs, fst (addComment store user postId text) <> Created201 cs) ->
     snd (addComment store user postId text) = store) /\
    (forall t post,
        text = Some t -> Str.trim t <> "" ->
        NoDup (map _id store) ->
        findById store postId = Some (Some post) ->
        addComment store user postId text =
        (Created201 (comments post ++ [mkComment (user_id user) t])%list,
         map (fun q => if hasId (_id post) q
                       then schemaAddComment (user_id user) t q else q) store)).
Proof.
  intros store user postId text.
  assert (Hsaved : forall post,
             findById store postId = Some (Some post) ->
             findById (save (schemaAddComment (user_id user) (orKeep text "") post) store)
               postId
             = Some (Some (schemaAddComment (user_id user) (orKeep text "") post))).
  { intros post Ef. apply (findById_save store postId post _ Ef). reflexivity. }
  split; [|split; [|split]].
  - unfold addComment. destruct (Str.truthy text); simpl.
    + split; [|discriminate].
      destruct (findById store postId) as [[post|]|] eqn:Ef; simpl; try discriminate.
      rewrite (Hsaved post eq_refl). simpl. discriminate.
    + split; reflexivity.
  - intro Ht. unfold addComment. rewrite Ht. reflexivity.
  - unfold addComment. destruct (Str.truthy text); simpl; [|reflexivity].
    destruct (findById store postId) as [[post|]|] eqn:Ef; simpl; try reflexivity.
    rewrite (Hsaved post eq_refl). simpl. intro H. exfalso. exact (H _ eq_refl).
  - intros t post Et Hne Hnd Ef. subst text.
    unfold addComment. rewrite (truthy_some t (trim_nonempty_source t Hne)). simpl.
    rewrite Ef. simpl in Hsaved. rewrite (Hsaved post Ef). simpl.
    f_equal.
    unfold findById in Ef. destruct (ObjectId.cast postId) as [oid|]; [|discriminate Ef].
    injection Ef as Ef. destruct (find_hasId _ _ _ Ef) as [Hin _].
    apply (save_map (schemaAddComment (user_id user) t) store post
             (schemaAddComment_id (user_id user) t) Hnd Hin).
Qed.

(** [addComment_validation] at a comment by bob on the second post. *)
Lemma addComment_validation_witness :
  addComment sampleStore bob (_id secondPost) (Some " Thanks! ") =
  (Created201 [mkComment (user_id alice) "Nice"; mkComment (user_id bob) " Thanks! "],
   [firstPost; schemaAddComment (user_id bob) " Thanks! " secondPost; draftPost]) /\
  addComment sampleStore bob (_id secondPost) (Some "") = (BadRequest400, sampleStore).
Proof.
  destruct (addComment_validation sampleStore bob (_id secondPost) (Some " Thanks! "))
    as (_ & _ & _ & Happend).
  destruct (addComment_validation sampleStore bob (_id secondPost) (Some ""))
    as (_ & Hempty & _).
  split.
  - apply (Happend " Thanks! " secondPost eq_refl).
    + vm_compute. discriminate.
    + repeat constructor; simpl; intuition discriminate.
    + reflexivity.
  - apply Hempty. reflexivity.
Defined.

(** C7 as stated fails: a content of blanks only is empty after trimming,
    yet the request is not answered 400; for a post that does not exist the
    answer is 404. *)
Lemma addComment_validation_counterexample :
  Str.trim "   " = "" /\
  addComment sampleStore bob "5f00000000000000000000ff" (Some "   ")
  = (NotFound404, sampleStore) /\
  fst (addComment sampleStore bob "5f00000000000000000000ff" (Some "   "))
  <> BadRequest400.
Proof.
  split; [reflexivity|]. split; [reflexivity|]. simpl. discriminate.
Qed.

(** ** Public listing and search *)

Lemma Forall_limit :
  forall (P : Post -> Prop) n l, Forall P l -> Forall P (firstn n l).
Proof.
  intros P n l H. revert n. induction H as [|x l Hx _ IH]; intro n.
  - rewrite firstn_nil. constructor.
  - destruct n; simpl; constructor; [exact Hx|apply IH].
Qed.

Lemma Forall_skip :
  forall (P : Post -> Prop) n l, Forall P l -> Forall P (skipn n l).
Proof.
  intros P n l H. revert n. induction H as [|x l Hx Hl IH]; intro n.
  - rewrite skipn_nil. constructor.
  - destruct n; simpl; [constructor; assumption|apply IH].
Qed.

Lemma newestFirst_limit :
  forall n l, newestFirst l -> newestFirst (firstn n l).
Proof.
  unfold newestFirst. intros n l H. revert n.
  induction H as [|x l _ IH Hx]; intro n.
  - rewrite firstn_nil. constructor.
  - destruct n; simpl; constructor; [apply IH|].
    clear - Hx. revert n. induction Hx as [|y l Hy _ IHx]; intro n.
    + rewrite firstn_nil. constructor.
    + destruct n; simpl; constructor; [exact Hy|apply IHx].
Qed.

Lemma newestFirst_skip :
  forall n l, newestFirst l -> newestFirst (skipn n l).
Proof.
  unfold newestFirst. intros n l H. revert n.
  induction H as [|x l Hl IH Hx]; intro n.
  - rewrite skipn_nil. constructor.
  - destruct n; simpl; [constructor; assumption|apply IH].
Qed.

Lemma insertNewestFirst_Forall :
  forall (P : Post -> Prop) p l, P p -> Forall P l -> Forall P (insertNewestFirst p l).
Proof.
  intros P p l Hp H. induction H as [|q l Hq Hl IH]; simpl.
  - constructor; [exact Hp|constructor].
  - destruct (createdAt q <=? createdAt p).
    + constructor; [exact Hp|]. constructor; assumption.
    + constructor; assumption.
Qed.

Lemma sortNewestFirst_Forall :
  forall (P : Post -> Prop) l, Forall P l -> Forall P (sortNewestFirst l).
Proof.
  intros P l H. induction H as [|p l Hp _ IH]; simpl.
  - constructor.
  - apply insertNewestFirst_Forall; assumption.
Qed.

Lemma insertNewestFirst_sorted :
  forall p l, newestFirst l -> newestFirst (insertNewestFirst p l).
Proof.
  unfold newestFirst. intros p l H. induction H as [|q l Hl IH Hq]; simpl.
  - constructor; constructor.
  - destruct (Z.leb_spec (createdAt q) (createdAt p)) as [Hle|Hgt].
    + constructor.
      * constructor; assumption.
      * constructor; [exact Hle|].
        apply Forall_impl with (P := fun r => createdAt r <= createdAt q); [|exact Hq].
        intros r Hr. lia.
    + constructor; [exact IH|].
      apply insertNewestFirst_Forall; [lia|exact Hq].
Qed.

Lemma sortNewestFirst_sorted : forall l, newestFirst (sortNewestFirst l).
Proof.
  induction l as [|p l IH]; simpl.
  - constructor.
  - apply insertNewestFirst_sorted. exact IH.
Qed.

Lemma find_published :
  forall f store,
    filter_isPublished f = true ->
    Forall (fun p => isPublished p = true /\ In p store) (find_ f store).
Proof.
  intros f store Hf. apply Forall_forall. intros p Hin.
  unfold find_ in Hin. apply filter_In in Hin. destruct Hin as [Hin Hm].
  split; [|exact Hin]. unfold matchesFilter in Hm. rewrite Hf in Hm.
  destruct (isPublished p); [reflexivity|discriminate Hm].
Qed.

Lemma searchPosts_ok_inv :
  forall beyond server store q posts,
    searchPosts beyond server store q = Ok200 posts ->
    exists f,
      filter_isPublished f = true /\
      posts = firstn 20 (sortNewestFirst (find_ f store)).
Proof.
  intros beyond server store q posts H. unfold searchPosts in H.
  destruct (Str.truthy q); simpl in H; [|discriminate H].
  destruct (searchFilter beyond q None) as [f|] eqn:Ef; [|discriminate H].
  inversion H; subst. exists f. split; [|reflexivity].
  apply (searchFilter_published beyond q None f Ef).
Qed.

(** C2: every post answered by [getPosts] and by [searchPosts] is a post of
    the collection whose published flag is set, and [searchPosts] answers
    with at most 20 posts, newest first by creation time. *)
Theorem public_results_published :
  forall beyond server store,
    (forall q posts pg,
        getPosts beyond server store q = Ok200 (posts, pg) ->
        Forall (fun p => isPublished p = true /\ In p store) posts /\
        newestFirst posts) /\
    (forall q posts,
        searchPosts beyond server store q = Ok200 posts ->
        Forall (fun p => isPublished p = true /\ In p store) posts /\
        (List.length posts <= 20)%nat /\
        newestFirst posts).
Proof.
  intros beyond server store. split.
  - intros q posts pg H.
    destruct (getPosts_ok_inv beyond server store q posts pg H) as (f & Hf & Hposts & _).
    destruct (skipLimit_window _ _ _ _ _ Hposts) as (j & k & ->).
    unfold window. split.
    + apply Forall_limit, Forall_skip, sortNewestFirst_Forall, find_published. exact Hf.
    + apply newestFirst_limit, newestFirst_skip, sortNewestFirst_sorted.
  - intros q posts H.
    destruct (searchPosts_ok_inv beyond server store q posts H) as (f & Hf & Hposts).
    subst posts. split; [|split].
    + apply Forall_limit, sortNewestFirst_Forall, find_published. exact Hf.
    + apply firstn_le_length.
    + apply newestFirst_limit, sortNewestFirst_sorted.
Qed.

(** [public_results_published] at the sample collection: the draft matches
    the term "e" and the empty listing filter, and is left out of both
    answers. *)
Lemma public_results_published_witness :
  isPublished draftPost = false /\
  searchPosts strictSyntax sampleServer sampleStore (Some "e")
  = Ok200 [secondPost; firstPost] /\
  (exists pg, getPosts strictSyntax sampleServer sampleStore (mkQuery None None None None)
              = Ok200 ([secondPost; firstPost], pg)) /\
  Forall (fun p => isPublished p = true /\ In p sampleStore) [secondPost; firstPost] /\
  (List.length [secondPost; firstPost] <= 20)%nat /\
  newestFirst [secondPost; firstPost].
Proof.
  split; [reflexivity|]. split; [reflexivity|].
  split; [eexists; reflexivity|].
  exact (proj2 (public_results_published strictSyntax sampleServer sampleStore)
           (Some "e") _ eq_refl).
Defined.

(** ** Search terms *)

(** Comparing under the option [i] is comparing in lower case. *)
Lemma canon_eqb :
  forall c d,
    Ascii.eqb (Regex.canon d) (Regex.canon c)
    = Ascii.eqb (Str.toLowerChar d) (Str.toLowerChar c).
Proof. reflexivity. Qed.

Lemma matchesPrefix_void : forall r s, Regex.matchesPrefix (Regex.Seq Regex.Void r) s = false.
Proof.
  intros r s. induction s as [|c s IH]; [reflexivity|]. simpl. exact IH.
Qed.

Lemma matchesPrefix_alt :
  forall s a b,
    Regex.matchesPrefix (Regex.Alt a b) s
    = (Regex.matchesPrefix a s || Regex.matchesPrefix b s)%bool.
Proof.
  induction s as [|c s IH]; intros a b.
  - simpl. rewrite !orb_false_r. reflexivity.
  - cbn [Regex.matchesPrefix Regex.nullable Regex.deriv]. rewrite IH.
    destruct (Regex.nullable a), (Regex.nullable b),
      (Regex.matchesPrefix (Regex.deriv c a) s); reflexivity.
Qed.

Lemma matchesPrefix_eps :
  forall r s, Regex.matchesPrefix (Regex.Seq Regex.Eps r) s = Regex.matchesPrefix r s.
Proof.
  intros r s. destruct s as [|c s].
  - simpl. rewrite !orb_false_r. reflexivity.
  - cbn [Regex.matchesPrefix Regex.nullable Regex.deriv andb].
    rewrite matchesPrefix_alt, matchesPrefix_void. reflexivity.
Qed.

Lemma matchesPrefix_literal :
  forall term text, Regex.matchesPrefix (Regex.literal term) text = ciPrefix term text.
Proof.
  induction term as [|c term IH]; intro text.
  - destruct text; reflexivity.
  - destruct text as [|d text]; [reflexivity|].
    cbn [Regex.literal Regex.matchesPrefix Regex.nullable Regex.deriv andb orb ciPrefix].
    rewrite canon_eqb.
    destruct (Ascii.eqb (Str.toLowerChar d) (Str.toLowerChar c)).
    + rewrite matchesPrefix_eps. apply IH.
    + apply matchesPrefix_void.
Qed.

Lemma test_literal :
  forall term text, Regex.test (Regex.literal term) text = ciIncludes term text.
Proof.
  intros term text. induction text as [|d text IH].
  - cbn [Regex.test ciIncludes]. rewrite matchesPrefix_literal. reflexivity.
  - cbn [Regex.test ciIncludes]. rewrite matchesPrefix_literal, IH. reflexivity.
Qed.

Lemma ciPrefix_spec :
  forall term text,
    ciPrefix term text = true <->
    exists after, Str.toLowerCase text = Str.toLowerCase term ++ after.
Proof.
  induction term as [|c term IH]; intro text.
  - simpl. split; [|reflexivity]. intros _. exists (Str.toLowerCase text). reflexivity.
  - destruct text as [|d text]; simpl.
    + split; [discriminate|]. intros (after & H). discriminate H.
    + rewrite andb_true_iff, IH. split.
      * intros (Hc & after & Ht). exists after.
        apply Ascii.eqb_eq in Hc. rewrite Hc, Ht. reflexivity.
      * intros (after & H). injection H as Hc Ht. split.
        -- rewrite Hc. apply Ascii.eqb_refl.
        -- exists after. exact Ht.
Qed.

Lemma ciIncludes_spec :
  forall term text, ciIncludes term text = true <-> occursIn term text.
Proof.
  intros term text. unfold occursIn. induction text as [|d text IH].
  - simpl. rewrite orb_false_r, ciPrefix_spec. split.
    + intros (after & H). exists "", after. exact H.
    + intros (before & after & H). destruct before as [|x before]; [|discriminate H].
      exists after. exact H.
  - cbn [ciIncludes]. rewrite orb_true_iff, ciPrefix_spec, IH. split.
    + intros [(after & H)|(before & after & H)].
      * exists "", after. exact H.
      * exists (String (Str.toLowerChar d) before), after. simpl. rewrite H. reflexivity.
    + intros (before & after & H). destruct before as [|x before].
      * left. exists after. exact H.
      * right. simpl in H. injection H as _ H. exists before, after. exact H.
Qed.

Lemma matchesSearch_literal :
  forall term p,
    matchesSearch (Regex.test (Regex.literal term)) p = true <-> specMatches term p.
Proof.
  intros term p. unfold matchesSearch, specMatches.
  rewrite !orb_true_iff, !test_literal, !ciIncludes_spec.
  rewrite existsb_exists, Exists_exists.
  split.
  - intros [[H|H]|(t & Hin & H)]; [left|right; left|right; right]; try exact H.
    exists t. split; [exact Hin|]. apply ciIncludes_spec. rewrite <- test_literal. exact H.
  - intros [H|[H|(t & Hin & H)]]; [left; left|left; right|right]; try exact H.
    exists t. split; [exact Hin|]. rewrite test_literal. apply ciIncludes_spec. exact H.
Qed.

Lemma parse_plain_char :
  forall c s cur stack,
    isMetaChar c = false ->
    Regex.parse (String c s) cur stack
    = Regex.parse s (Regex.pushAtom (Regex.Chr c) cur) stack.
Proof.
  intros c s cur stack H.
  ascii_cases c; try discriminate H; reflexivity.
Qed.

Lemma parse_plain :
  forall s cur,
    Str.all (fun c => negb (isMetaChar c)) s = true ->
    Regex.parse s cur []
    = Regex.Pattern
        (Regex.close
           (Regex.mkFrame (Regex.alts cur)
              (rev (map Regex.Chr (list_ascii_of_string s)) ++ Regex.terms cur)
              (match s with EmptyString => Regex.last cur | _ => Regex.Atom end))).
Proof.
  induction s as [|c s IH]; intros cur H.
  - destruct cur; reflexivity.
  - simpl in H. apply andb_true_iff in H. destruct H as [Hc Hs].
    apply negb_true_iff in Hc.
    rewrite (parse_plain_char c s cur [] Hc), (IH _ Hs).
    cbn [Regex.pushAtom Regex.alts Regex.terms Regex.last list_ascii_of_string map rev].
    rewrite <- app_assoc. cbn [app].
    unfold Regex.close. cbn [Regex.alts Regex.terms].
    destruct s; reflexivity.
Qed.

Lemma closeTerms_literal :
  forall s,
    Regex.closeTerms (rev (map Regex.Chr (list_ascii_of_string s))) = Regex.literal s.
Proof.
  intro s. unfold Regex.closeTerms.
  rewrite <- fold_left_rev_right, rev_involutive.
  induction s as [|c s IH]; [reflexivity|].
  simpl. rewrite IH. reflexivity.
Qed.

Lemma compile_literal :
  forall term,
    Str.all (fun c => negb (isMetaChar c)) term = true ->
    Regex.compile term = Regex.Pattern (Regex.literal term).
Proof.
  intros term H. unfold Regex.compile. rewrite (parse_plain term Regex.emptyFrame H).
  unfold Regex.close. cbn [Regex.alts Regex.terms Regex.emptyFrame].
  rewrite app_nil_r, closeTerms_literal. reflexivity.
Qed.

Lemma matchesFilter_search :
  forall (r : string -> bool) p,
    matchesFilter (mkFilter true None (Some r)) p = true <->
    isPublished p = true /\ matchesSearch r p = true.
Proof.
  intros r p. unfold matchesFilter. cbn [filter_isPublished filter_category filter_or].
  rewrite andb_true_r, andb_true_iff.
  destruct (isPublished p); simpl; intuition congruence.
Qed.

Lemma searchFilter_plain :
  forall beyond term cat,
    term <> "" ->
    Str.all (fun c => negb (isMetaChar c)) term = true ->
    searchFilter beyond (Some term) cat
    = if Nat.eqb (Str.count "000" term) 0
      then Some (mkFilter true cat (Some (Regex.test (Regex.literal term))))
      else None.
Proof.
  intros beyond term cat Hne Hplain. unfold searchFilter, regExp.
  rewrite (truthy_some term Hne), (compile_literal term Hplain). reflexivity.
Qed.

(** C9, as amended: a search term of [getPosts] or [searchPosts] is read
    as a regular expression.  For a term without any pattern syntax
    character, the request fails on the term when the term holds the
    character U+0000; otherwise it does not fail on the term, and a post
    matches if and only if the term occurs, letter case aside, as a literal
    substring of the title, of the content, or of one of the tags. *)
Theorem search_plain_term :
  forall term,
    term <> "" ->
    Str.all (fun c => negb (isMetaChar c)) term = true ->
    (Str.count "000" term <> O ->
     forall beyond server store,
       searchPosts beyond server store (Some term) = Failed /\
       forall page limit cat,
         getPosts beyond server store (mkQuery page limit cat (Some term)) = Failed) /\
    (Str.count "000" term = O ->
     exists r,
       Regex.compile term = Regex.Pattern r /\
       (forall p, matchesSearch (Regex.test r) p = true <-> specMatches term p) /\
       (forall p, matchesFilter (mkFilter true None (Some (Regex.test r))) p = true <->
                  isPublished p = true /\ specMatches term p) /\
       (forall beyond server store,
           searchPosts beyond server store (Some term)
           = Ok200 (firstn 20
                      (sortNewestFirst
                         (find_ (mkFilter true None (Some (Regex.test r))) store)))) /\
       (forall beyond server store page limit,
           getPosts beyond server store (mkQuery page limit None (Some term))
           = match skipLimit server (skipOf (pageOf page) (limitOf limit)) (limitOf limit)
                     (sortNewestFirst
                        (find_ (mkFilter true None (Some (Regex.test r))) store)) with
             | Some posts =>
                 Ok200 (posts,
                        mkPagination (pageOf page) (limitOf limit)
                          (countDocuments (mkFilter true None (Some (Regex.test r))) store)
                          (Num.ceilDiv
                             (countDocuments (mkFilter true None (Some (Regex.test r)))
                                store)
                             (limitOf limit)))
             | None => Failed
             end)).
Proof.
  intros term Hne Hplain.
  pose proof (compile_literal term Hplain) as Hc.
  pose proof (truthy_some term Hne) as Ht.
  split.
  - intros Hnul beyond server store.
    assert (Hf : forall cat, searchFilter beyond (Some term) cat = None).
    { intro cat. rewrite (searchFilter_plain beyond term cat Hne Hplain).
      destruct (Nat.eqb_spec (Str.count "000" term) 0); [contradiction|reflexivity]. }
    split.
    + unfold searchPosts. rewrite Ht, Hf. reflexivity.
    + intros page limit cat. unfold getPosts. cbn [query_search query_category].
      rewrite Hf. reflexivity.
  - intro Hnul. exists (Regex.literal term).
    assert (Hf : forall beyond cat,
               searchFilter beyond (Some term) cat
               = Some (mkFilter true cat (Some (Regex.test (Regex.literal term))))).
    { intros beyond cat. rewrite (searchFilter_plain beyond term cat Hne Hplain), Hnul.
      reflexivity. }
    split; [exact Hc|]. split; [apply matchesSearch_literal|]. split; [|split].
    + intro p. rewrite matchesFilter_search, matchesSearch_literal. reflexivity.
    + intros beyond server store. unfold searchPosts. rewrite Ht, Hf. reflexivity.
    + intros beyond server store page limit. unfold getPosts.
      cbn [query_page query_limit query_category query_search Str.truthy].
      rewrite Hf. reflexivity.
Qed.

(** [search_plain_term] at the term "JAVA": it is found in the tag
    "javascript" of the first post. *)
Lemma search_plain_term_witness :
  searchPosts strictSyntax sampleServer sampleStore (Some "JAVA") = Ok200 [firstPost] /\
  specMatches "JAVA" firstPost /\
  ~ specMatches "JAVA" secondPost.
Proof.
  destruct (search_plain_term "JAVA") as (_ & Hok); [discriminate|reflexivity|].
  destruct (Hok eq_refl) as (r & Hc & Hm & _ & Hs & _).
  vm_compute in Hc. injection Hc as Hr. subst r.
  split; [rewrite Hs; reflexivity|]. split.
  - apply Hm. reflexivity.
  - intro H. apply Hm in H. vm_compute in H. discriminate H.
Defined.

(** C9 as stated fails: a term is read as a pattern, so "v.r" finds a post
    in which it does not occur, and "(beta", which occurs in a post, makes
    the request fail. *)
Lemma search_plain_term_counterexample :
  (searchPosts strictSyntax sampleServer sampleStore (Some "v.r") = Ok200 [secondPost] /\
   ~ specMatches "v.r" secondPost) /\
  (specMatches "(beta" secondPost /\
   isPublished secondPost = true /\
   searchPosts strictSyntax sampleServer sampleStore (Some "(beta") = Failed /\
   getPosts strictSyntax sampleServer sampleStore (mkQuery None None None (Some "(beta"))
   = Failed).
Proof.
  split; split.
  - reflexivity.
  - intro H. apply matchesSearch_literal in H. vm_compute in H. discriminate H.
  - apply matchesSearch_literal. reflexivity.
  - split; [reflexivity|]. split; reflexivity.
Qed.

(** * Further properties of the handlers *)

(** ** Pages *)

Lemma skipn_length_Z :
  forall (l : list Post) n,
    0 <= n ->
    Z.of_nat (List.length (skipn (Z.to_nat n) l)) = Z.max 0 (Z.of_nat (List.length l) - n).
Proof.
  intros l n Hn. rewrite length_skipn. lia.
Qed.

(** X1: when page and limit are such that the skip and the limit are 32-bit
    integers, the number of posts on an answered page of [getPosts] is, for
    a positive limit, the smaller of the limit and of what is left of the
    matching posts after the skipped ones, and for a negative limit at most
    the smaller of its size and of what is left; a page that starts at or
    after the total is empty. *)
Theorem getPosts_page_size :
  forall beyond server store q posts pg p l,
    getPosts beyond server store q = Ok200 (posts, pg) ->
    pg_page pg = Num.Int p -> pg_limit pg = Num.Int l ->
    int32 ((p - 1) * l) = true -> int32 l = true ->
    exists total,
      pg_total pg = Num.round total /\
      (total < 2 ^ 53 -> pg_total pg = Num.Int total) /\
      0 <= (p - 1) * l /\
      (0 < l ->
       Z.of_nat (List.length posts) = Z.min l (Z.max 0 (total - (p - 1) * l))) /\
      (l < 0 ->
       Z.of_nat (List.length posts) <= Z.min (- l) (Z.max 0 (total - (p - 1) * l))) /\
      (total <= (p - 1) * l -> posts = []).
Proof.
  intros beyond server store q posts pg p l H Ep El Hs Hl.
  destruct (getPosts_exact beyond server store q posts pg p l H Ep El Hs Hl)
    as (f & _ & Ht & Hskip & Hposts).
  unfold countDocuments in Ht.
  set (matched := sortNewestFirst (find_ f store)) in *.
  exists (Z.of_nat (List.length matched)).
  assert (Hlen : List.length matched = List.length (find_ f store))
    by apply sortNewestFirst_length.
  assert (Hrest : Z.of_nat (List.length (skipn (Z.to_nat ((p - 1) * l)) matched))
                  = Z.max 0 (Z.of_nat (List.length matched) - (p - 1) * l))
    by (apply skipn_length_Z; exact Hskip).
  assert (Hle : Z.of_nat (List.length posts)
                <= Z.max 0 (Z.of_nat (List.length matched) - (p - 1) * l)).
  { rewrite <- Hrest, Hposts. unfold limitDocs.
    destruct (l =? 0); [lia|]. destruct (l <? 0); rewrite length_firstn; lia. }
  split; [rewrite Hlen; exact Ht|]. split.
  { intro Hsafe. rewrite Ht, <- Hlen. apply round_safe. lia. }
  split; [exact Hskip|]. split; [|split].
  - intro Hlpos. rewrite Hposts, (limitDocs_positive server l _ Hlpos).
    rewrite length_firstn, Nat2Z.inj_min, Hrest.
    rewrite Z2Nat.id by lia. reflexivity.
  - intro Hlneg. apply Z.min_glb; [|exact Hle].
    rewrite Hposts. unfold limitDocs.
    destruct (Z.eqb_spec l 0); [lia|]. destruct (Z.ltb_spec l 0); [|lia].
    rewrite length_firstn. lia.
  - intro Hend. destruct posts as [|x posts]; [reflexivity|].
    simpl List.length in Hle. lia.
Qed.

(** [getPosts_page_size] at the second page of size 1 of the sample
    collection, and at a page past the end. *)
Lemma getPosts_page_size_witness :
  (exists posts pg,
      getPosts strictSyntax sampleServer sampleStore (mkQuery (Some "2") (Some "1") None None)
      = Ok200 (posts, pg) /\
      Z.of_nat (List.length posts) = 1) /\
  (exists pg,
      getPosts strictSyntax sampleServer sampleStore (mkQuery (Some "7") None None None)
      = Ok200 ([], pg)).
Proof.
  split.
  - eexists; eexists. split; [reflexivity|].
    destruct (getPosts_page_size strictSyntax sampleServer sampleStore
                (mkQuery (Some "2") (Some "1") None None) _ _ 2 1 eq_refl eq_refl eq_refl
                eq_refl eq_refl) as (total & Ht & _ & _ & Hlen & _).
    assert (E : total = 2).
    { cbn [pg_total] in Ht. symmetry in Ht. apply round_safe_inv in Ht; [exact Ht|].
      vm_compute. reflexivity. }
    subst total. exact (Hlen eq_refl).
  - destruct (getPosts strictSyntax sampleServer sampleStore
                (mkQuery (Some "7") None None None)) as [[posts pg]| | | | |] eqn:E;
      try discriminate E.
    assert (Ep : pg_page pg = Num.Int 7) by (vm_compute in E; injection E as _ <-; reflexivity).
    assert (El : pg_limit pg = Num.Int 10)
      by (vm_compute in E; injection E as _ <-; reflexivity).
    assert (Et : pg_total pg = Num.Int 2)
      by (vm_compute in E; injection E as _ <-; reflexivity).
    destruct (getPosts_page_size strictSyntax sampleServer sampleStore
                (mkQuery (Some "7") None None None) posts pg 7 10 E Ep El eq_refl eq_refl)
      as (total & Ht & _ & _ & _ & _ & Hend).
    assert (Etot : total = 2).
    { rewrite Et in Ht. symmetry in Ht. apply round_safe_inv in Ht; [exact Ht|].
      vm_compute. reflexivity. }
    exists pg. rewrite Hend; [reflexivity|]. rewrite Etot. vm_compute. discriminate.
Defined.

(** ** Search and listing side by side *)

(** X2: [searchPosts] with a term answers exactly what [getPosts] answers
    for the same term as [search], no category, first page and limit 20;
    the default first page of that listing is the first ten posts of the
    search; and either both fail or none does. *)
Theorem searchPosts_as_getPosts :
  forall beyond server store term,
    term <> "" ->
    match searchPosts beyond server store (Some term) with
    | Ok200 found =>
        (exists pg, getPosts beyond server store (mkQuery None (Some "20") None (Some term))
                    = Ok200 (found, pg)) /\
        (exists pg, getPosts beyond server store (mkQuery None None None (Some term))
                    = Ok200 (firstn 10 found, pg))
    | r =>
        r = Failed /\
        getPosts beyond server store (mkQuery None (Some "20") None (Some term)) = Failed /\
        getPosts beyond server store (mkQuery None None None (Some term)) = Failed
    end.
Proof.
  intros beyond server store term Hne.
  pose proof (truthy_some term Hne) as Ht.
  unfold searchPosts, getPosts.
  cbn [query_page query_limit query_category query_search].
  rewrite Ht. cbn [negb Str.truthy].
  destruct (searchFilter beyond (Some term) None) as [f|] eqn:Ef.
  - assert (Hc : castFilter f = Some f).
    { unfold searchFilter in Ef. rewrite Ht in Ef.
      destruct (Nat.eqb (Str.count "000" term) 0); [|discriminate Ef].
      destruct (regExp beyond term); inversion Ef; reflexivity. }
    rewrite Hc.
    assert (E20 : forall l,
               skipLimit server (skipOf (pageOf None) (limitOf (Some "20")))
                 (limitOf (Some "20")) l = Some (limitDocs server 20 l)).
    { intro l. reflexivity. }
    assert (E10 : forall l,
               skipLimit server (skipOf (pageOf None) (limitOf None)) (limitOf None) l
               = Some (firstn 10 (limitDocs server 20 l))).
    { intro l. rewrite (limitDocs_positive server 20 l) by lia.
      change (Z.to_nat 20) with 20%nat.
      rewrite firstn_firstn. reflexivity. }
    rewrite E20, E10. split; eexists; reflexivity.
  - repeat split; reflexivity.
Qed.

(** [searchPosts_as_getPosts] at the term "e" on the sample collection. *)
Lemma searchPosts_as_getPosts_witness :
  searchPosts strictSyntax sampleServer sampleStore (Some "e")
  = Ok200 [secondPost; firstPost] /\
  exists pg,
    getPosts strictSyntax sampleServer sampleStore
      (mkQuery None (Some "20") None (Some "e"))
    = Ok200 ([secondPost; firstPost], pg).
Proof.
  split; [reflexivity|].
  pose proof (searchPosts_as_getPosts strictSyntax sampleServer sampleStore "e") as H.
  change (searchPosts strictSyntax sampleServer sampleStore (Some "e"))
    with (@Ok200 (list Post) [secondPost; firstPost]) in H.
  apply H. discriminate.
Defined.

(** ** Listing by category *)

Lemma find_category :
  forall f store c,
    filter_category f = Some c ->
    Forall (fun p => category p = c) (find_ f store).
Proof.
  intros f store c Hc. apply Forall_forall. intros p Hin.
  unfold find_ in Hin. apply filter_In in Hin. destruct Hin as [_ Hm].
  unfold matchesFilter in Hm. rewrite Hc in Hm.
  apply andb_true_iff in Hm. destruct Hm as [Hm _].
  apply andb_true_iff in Hm. destruct Hm as [_ Hm].
  apply String.eqb_eq. exact Hm.
Qed.

(** X3: a [getPosts] request with a category answers only with posts of
    that category (the identifier in its canonical lower-case text), and a
    category text that is not an identifier makes the request fail rather
    than answer an empty page. *)
Theorem getPosts_category :
  forall beyond server store q c,
    query_category q = Some c ->
    c <> "" ->
    (ObjectId.isValid c = false -> getPosts beyond server store q = Failed) /\
    (forall posts pg,
        getPosts beyond server store q = Ok200 (posts, pg) ->
        ObjectId.isValid c = true /\
        Forall (fun p => category p = Str.toLowerCase c /\ isPublished p = true) posts).
Proof.
  intros beyond server store q c Hq Hne.
  pose proof (truthy_some c Hne) as Ht.
  unfold getPosts. rewrite Hq, Ht.
  destruct (searchFilter beyond (query_search q) (Some c)) as [f|] eqn:Ef.
  - assert (Hcat : filter_category f = Some c /\ filter_isPublished f = true).
    { unfold searchFilter in Ef.
      destruct (if Str.truthy (query_search q) then query_search q else None) as [s|].
      - destruct (Nat.eqb (Str.count "000" s) 0); [|discriminate Ef].
        destruct (regExp beyond s); inversion Ef; split; reflexivity.
      - inversion Ef; split; reflexivity. }
    destruct Hcat as [Hcat Hpub].
    unfold castFilter. rewrite Hcat. unfold ObjectId.cast.
    destruct (ObjectId.isValid c) eqn:Ev.
    + split; [discriminate|]. intros posts pg H. split; [reflexivity|].
      destruct (skipLimit server _ _ _) as [found|] eqn:Es; [|discriminate H].
      inversion H; subst.
      destruct (skipLimit_window _ _ _ _ _ Es) as (j & k & ->). unfold window.
      apply Forall_limit, Forall_skip, sortNewestFirst_Forall.
      apply Forall_forall. intros p Hin.
      split.
      * pose proof (find_category
                      (mkFilter (filter_isPublished f) (Some (Str.toLowerCase c))
                         (filter_or f)) store (Str.toLowerCase c) eq_refl) as Hall.
        rewrite Forall_forall in Hall. apply Hall. exact Hin.
      * pose proof (find_published
                      (mkFilter (filter_isPublished f) (Some (Str.toLowerCase c))
                         (filter_or f)) store Hpub) as Hall.
        rewrite Forall_forall in Hall. apply Hall. exact Hin.
    + split; [reflexivity|]. intros posts pg H. discriminate H.
  - split; [reflexivity|]. intros posts pg H. discriminate H.
Qed.

(** [getPosts_category] at the category of the sample posts, written in
    upper case, and at a text that is not an identifier. *)
Lemma getPosts_category_witness :
  (exists pg,
      getPosts strictSyntax sampleServer sampleStore
        (mkQuery None None (Some "CC0000000000000000000001") None)
      = Ok200 ([secondPost; firstPost], pg)) /\
  Forall (fun p => category p = techCategory /\ isPublished p = true)
    [secondPost; firstPost] /\
  getPosts strictSyntax sampleServer sampleStore (mkQuery None None (Some "tech") None)
  = Failed.
Proof.
  split; [eexists; reflexivity|]. split.
  - destruct (getPosts_category strictSyntax sampleServer sampleStore
                (mkQuery None None (Some "CC0000000000000000000001") None)
                "CC0000000000000000000001" eq_refl) as (_ & Hok); [discriminate|].
    exact (proj2 (Hok _ _ eq_refl)).
  - destruct (getPosts_category strictSyntax sampleServer sampleStore
                (mkQuery None None (Some "tech") None) "tech" eq_refl) as (Hbad & _);
      [discriminate|].
    apply Hbad. reflexivity.
Defined.

(** ** What an update keeps *)

Lemma applyUpdate_frame :
  forall u p p',
    applyUpdate u p = Some p' ->
    author p' = author p /\
    createdAt p' = createdAt p /\
    title p' = orKeep (set_title u) (title p) /\
    featuredImage p' = match set_featuredImage u with
                       | Some path => Some path
                       | None => featuredImage p
                       end /\
    match set_category u with
    | Some c => ObjectId.cast c = Some (category p')
    | None => category p' = category p
    end.
Proof.
  intros u p p' H. unfold applyUpdate in H.
  destruct (set_category u) as [c|].
  - destruct (ObjectId.cast c) as [cat|]; [|discriminate H].
    inversion H; subst; simpl. repeat split; reflexivity.
  - inversion H; subst; simpl. repeat split; reflexivity.
Qed.

Lemma save_length : forall p store, List.length (save p store) = List.length store.
Proof.
  intros p store. induction store as [|q store IH]; [reflexivity|].
  simpl. destruct (hasId (_id p) q); simpl; [reflexivity|]. rewrite IH. reflexivity.
Qed.

Lemma save_idempotent : forall p store, save p (save p store) = save p store.
Proof.
  intros p store. induction store as [|q store IH]; [reflexivity|].
  simpl. destruct (hasId (_id p) q) eqn:Eq; simpl.
  - unfold hasId. rewrite String.eqb_refl. reflexivity.
  - rewrite Eq, IH. reflexivity.
Qed.

(** X4: an answered [updatePost] never changes the identifier, the slug,
    the author, the view count, the comments or the creation time of the
    post, so the users allowed to change or delete it stay the same; the
    image path changes only when a file comes with the request; and, with
    unique identifiers, every other post of the collection is left as it
    was. *)
Theorem updatePost_frame :
  forall sv store user id b file r store',
    updatePost sv store user id b file = (Ok200 r, store') ->
    exists post p',
      findById store id = Some (Some post) /\
      r = Some p' /\
      (_id p' = _id post /\ slug p' = slug post /\ author p' = author post /\
       viewCount p' = viewCount post /\ comments p' = comments post /\
       createdAt p' = createdAt post) /\
      (forall u, permitted p' u <-> permitted post u) /\
      (file = None -> featuredImage p' = featuredImage post) /\
      List.length store' = List.length store /\
      (NoDup (map _id store) ->
       store' = map (fun q => if hasId (_id post) q then p' else q) store).
Proof.
  intros sv store user id b file r store' H.
  destruct (updatePost_ok_inv _ _ _ _ _ _ _ _ H)
    as (post & p' & _ & Hf & _ & Hu & _ & Hr & Hs).
  pose proof (applyUpdate_fields _ _ _ Hu) as (Hid & Hslug & _ & _ & _ & _ & Hv & Hc).
  pose proof (applyUpdate_frame _ _ _ Hu) as (Ha & Ht & _ & Himg & _).
  exists post, p'. split; [exact Hf|]. split; [exact Hr|].
  split; [repeat split; assumption|]. split; [|split; [|split]].
  - intro u. unfold permitted. rewrite Ha. reflexivity.
  - intro Hfile. subst file. exact Himg.
  - subst store'. apply save_length.
  - intro Hnd. subst store'.
    assert (Hin : In post store).
    { unfold findById in Hf. destruct (ObjectId.cast id); [|discriminate Hf].
      injection Hf as Hf. apply (find_hasId _ _ _ Hf). }
    pose proof (save_map (fun q => if hasId (_id post) q then p' else q) store post) as Hm.
    cbv beta in Hm.
    assert (Hpp : hasId (_id post) post = true) by (unfold hasId; apply String.eqb_refl).
    rewrite Hpp in Hm. rewrite Hm; [|intro q|exact Hnd|exact Hin].
    + apply map_ext. intro q. destruct (hasId (_id post) q); reflexivity.
    + destruct (hasId (_id post) q) eqn:Eq; [|reflexivity].
      unfold hasId in Eq. apply String.eqb_eq in Eq. congruence.
Qed.

(** [updatePost_frame] at an update of the second post by its author. *)
Lemma updatePost_frame_witness :
  exists p' store',
    updatePost acceptUpdates sampleStore bob (_id secondPost) sampleBody None
    = (Ok200 (Some p'), store') /\
    title p' = "Edited title" /\
    slug p' = "release-notes" /\ author p' = user_id bob /\ viewCount p' = 3 /\
    comments p' = [mkComment (user_id alice) "Nice"] /\
    store' = [firstPost; p'; draftPost].
Proof.
  eexists; eexists. split; [reflexivity|].
  destruct (updatePost_frame acceptUpdates sampleStore bob (_id secondPost) sampleBody None
              _ _ eq_refl)
    as (post & p' & Hf & Hr & (_ & Hslug & Ha & Hv & Hc & _) & _ & _ & _ & Hstore).
  injection Hf as Hf. injection Hr as Hr. subst post p'.
  split; [reflexivity|]. split; [exact Hslug|]. split; [exact Ha|].
  split; [exact Hv|]. split; [exact Hc|].
  apply Hstore. repeat constructor; simpl; intuition discriminate.
Defined.

(** ** Sending the same update twice *)

Lemma applyUpdate_again :
  forall b file p p',
    applyUpdate (updateDataOf b file p) p = Some p' ->
    applyUpdate (updateDataOf b file p') p' = Some p'.
Proof.
  intros b file p p' H. unfold applyUpdate, updateDataOf in *.
  cbn [set_title set_content set_category set_tags set_isPublished set_excerpt
         set_featuredImage] in *.
  destruct (match body_category b with
            | Some c => ObjectId.cast c
            | None => Some (category p)
            end) as [cat|] eqn:Ec; [|discriminate H].
  injection H as H. subst p'.
  cbn [_id title slug content excerpt author category tags featuredImage isPublished
         viewCount comments createdAt].
  assert (Ec' : match body_category b with
                | Some c => ObjectId.cast c
                | None => Some cat
                end = Some cat).
  { destruct (body_category b); [exact Ec|reflexivity]. }
  rewrite Ec'. f_equal. f_equal.
  - destruct (body_title b); reflexivity.
  - destruct (body_content b); reflexivity.
  - unfold updateExcerpt. cbn [content excerpt].
    destruct (Str.truthy (body_excerpt b)) eqn:Ee.
    + destruct (body_excerpt b); [reflexivity|discriminate Ee].
    + destruct (body_content b) as [c|]; cbn [orKeep].
      * rewrite String.eqb_refl, andb_false_r. reflexivity.
      * reflexivity.
  - destruct (uploadPath file); reflexivity.
Qed.

Lemma updateValid_again :
  forall uv b file p p',
    applyUpdate (updateDataOf b file p) p = Some p' ->
    updateValid uv (updateDataOf b file p) = true ->
    updateValid uv (updateDataOf b file p') = true.
Proof.
  intros uv b file p p' Hu Hv.
  apply applyUpdate_fields in Hu. destruct Hu as (_ & _ & _ & _ & _ & Hc & _).
  cbn [updateDataOf set_content] in Hc.
  unfold updateValid in *.
  cbn [updateDataOf set_title set_content set_category set_tags set_isPublished
         set_excerpt set_featuredImage] in *.
  repeat (apply andb_true_iff in Hv; destruct Hv as [Hv ?]).
  repeat (apply andb_true_iff; split); try assumption.
  unfold updateExcerpt in *.
  destruct (Str.truthy (body_excerpt b)); [assumption|].
  destruct (body_content b) as [c|]; [|reflexivity].
  cbn [orKeep] in Hc. rewrite Hc, String.eqb_refl, andb_false_r. reflexivity.
Qed.

(** X5: sending the same [updatePost] request a second time changes
    nothing more: it is answered with the same post and leaves the
    collection as the first request left it. *)
Theorem updatePost_idempotent :
  forall sv store user id b file r store',
    updatePost sv store user id b file = (Ok200 r, store') ->
    updatePost sv store' user id b file = (Ok200 r, store').
Proof.
  intros sv store user id b file r store' H.
  destruct (updatePost_ok_inv _ _ _ _ _ _ _ _ H)
    as (post & p' & Hv & Hf & Ha & Hu & Hsv & Hr & Hs).
  pose proof (applyUpdate_fields _ _ _ Hu) as (Hid & _).
  pose proof (applyUpdate_frame _ _ _ Hu) as (Hauthor & _).
  pose proof (findById_save store id post p' Hf Hid) as Hf'.
  subst r store'.
  assert (Ha' : notAuthorized p' user = false).
  { unfold notAuthorized in *. rewrite Hauthor. exact Ha. }
  rewrite (updatePost_outcome sv (save p' store) user id b file p' Hf' Hv Ha').
  rewrite (applyUpdate_again b file post p' Hu), (updateValid_again sv b file post p' Hu Hsv).
  rewrite save_idempotent. reflexivity.
Qed.

(** [updatePost_idempotent] at the sample update of the second post. *)
Lemma updatePost_idempotent_witness :
  exists p' store',
    updatePost updateLimits sampleStore bob (_id secondPost) sampleBody None
    = (Ok200 (Some p'), store') /\
    updatePost updateLimits store' bob (_id secondPost) sampleBody None
    = (Ok200 (Some p'), store').
Proof.
  eexists; eexists. split; [reflexivity|].
  apply (updatePost_idempotent updateLimits sampleStore). reflexivity.
Defined.

(** ** Deleting *)

Lemma deleteById_absent :
  forall oid store, ~ In oid (map _id store) -> deleteById oid store = store.
Proof.
  intros oid store. induction store as [|q store IH]; intro H; [reflexivity|].
  simpl in *.
  assert (Hq : hasId oid q = false).
  { unfold hasId. apply String.eqb_neq. intro E. apply H. left. exact E. }
  rewrite Hq. f_equal. apply IH. intro Hin. apply H. right. exact Hin.
Qed.

Lemma deleteById_In :
  forall oid store q,
    NoDup (map _id store) ->
    (In q (deleteById oid store) <-> In q store /\ _id q <> oid).
Proof.
  intros oid store q. induction store as [|p store IH]; intro Hnd.
  - simpl. tauto.
  - simpl in Hnd. inversion Hnd as [|x l Hnotin Hnd']; subst.
    simpl. unfold hasId at 1. destruct (String.eqb_spec (_id p) oid) as [E|E].
    + split.
      * intro Hin. split; [right; exact Hin|].
        intro Hq. apply Hnotin. rewrite E, <- Hq. apply in_map. exact Hin.
      * intros [[->|Hin] Hq]; [contradiction|exact Hin].
    + simpl. rewrite (IH Hnd'). split.
      * intros [->|[Hin Hq]]; [split; [left; reflexivity|exact E]|].
        split; [right; exact Hin|exact Hq].
      * intros [[->|Hin] Hq]; [left; reflexivity|right; split; assumption].
Qed.

Lemma deleteById_found :
  forall oid store p,
    find (hasId oid) store = Some p ->
    S (List.length (deleteById oid store)) = List.length store.
Proof.
  intros oid store p. induction store as [|q store IH]; intro H; [discriminate H|].
  simpl in *. destruct (hasId oid q); [reflexivity|].
  simpl. rewrite (IH H). reflexivity.
Qed.

Lemma find_deleteById :
  forall oid store,
    NoDup (map _id store) -> find (hasId oid) (deleteById oid store) = None.
Proof.
  intros oid store Hnd.
  destruct (find (hasId oid) (deleteById oid store)) as [q|] eqn:E; [|reflexivity].
  exfalso. destruct (find_hasId _ _ _ E) as [Hin Hid].
  apply (deleteById_In oid store q Hnd) in Hin. destruct Hin as [_ Hne].
  contradiction.
Qed.

(** X6: with unique identifiers, a [deletePost] that is answered 200
    removes exactly the post with that identifier: the collection is one
    shorter, every other post is still there, the identifier no longer
    resolves, and a second [deletePost] with it, by anyone, is answered 404
    and changes nothing. *)
Theorem deletePost_removes :
  forall store user id u store',
    NoDup (map _id store) ->
    deletePost store user id = (Ok200 u, store') ->
    exists post,
      findById store id = Some (Some post) /\
      permitted post user /\
      S (List.length store') = List.length store /\
      (forall q, In q store' <-> In q store /\ _id q <> _id post) /\
      findById store' id = Some None /\
      (forall other, deletePost store' other id = (NotFound404, store')).
Proof.
  intros store user id u store' Hnd H. unfold deletePost in H.
  destruct (findById store id) as [[post|]|] eqn:Ef; try discriminate H.
  destruct (notAuthorized post user) eqn:Ea; [discriminate H|].
  unfold findByIdAndDelete in H. unfold findById in Ef.
  destruct (ObjectId.cast id) as [oid|] eqn:Ec; [|discriminate Ef].
  injection Ef as Ef. simpl in H. injection H as _ Hs. subst store'.
  destruct (find_hasId _ _ _ Ef) as [Hin Hid].
  assert (Hgone : findById (deleteById oid store) id = Some None).
  { unfold findById. rewrite Ec, (find_deleteById oid store Hnd). reflexivity. }
  exists post. split; [reflexivity|]. split; [apply notAuthorized_false; exact Ea|].
  split; [apply (deleteById_found oid store post Ef)|].
  split; [rewrite Hid; intro q; apply deleteById_In; exact Hnd|].
  split; [exact Hgone|].
  intro other. unfold deletePost. rewrite Hgone. reflexivity.
Qed.

(** [deletePost_removes] at the deletion of the draft by its author. *)
Lemma deletePost_removes_witness :
  deletePost sampleStore alice (_id draftPost) = (Ok200 tt, [firstPost; secondPost]) /\
  findById [firstPost; secondPost] (_id draftPost) = Some None /\
  deletePost [firstPost; secondPost] root (_id draftPost)
  = (NotFound404, [firstPost; secondPost]).
Proof.
  split; [reflexivity|].
  assert (Hnd : NoDup (map _id sampleStore)).
  { repeat constructor; simpl; intuition discriminate. }
  destruct (deletePost_removes sampleStore alice (_id draftPost) tt
              [firstPost; secondPost] Hnd eq_refl)
    as (post & _ & _ & _ & _ & Hgone & Hagain).
  split; [exact Hgone|exact (Hagain root)].
Defined.

(** ** A text that is not an identifier *)

Lemma cast_invalid : forall s, ObjectId.isValid s = false -> ObjectId.cast s = None.
Proof. intros s H. unfold ObjectId.cast. rewrite H. reflexivity. Qed.

(** X7: a parameter that is not a 24-digit hexadecimal identifier is read
    as a slug by [getPost], which answers 404 when no post has that slug;
    the same parameter makes [deletePost], [updatePost] (body valid) and
    [addComment] (content present) fail on the cast instead of answering
    404, and none of them changes the collection. *)
Theorem malformed_id :
  forall sv store user id b file text,
    ObjectId.isValid id = false ->
    (findOneBySlug store id = None -> getPost store id = (NotFound404, store)) /\
    deletePost store user id = (Failed, store) /\
    (postValidation b = true -> updatePost sv store user id b file = (Failed, store)) /\
    (postValidation b = false ->
     updatePost sv store user id b file = (BadRequest400, store)) /\
    (Str.truthy text = true -> addComment store user id text = (Failed, store)) /\
    (Str.truthy text = false -> addComment store user id text = (BadRequest400, store)).
Proof.
  intros sv store user id b file text Hv.
  pose proof (cast_invalid id Hv) as Hc.
  unfold getPost, deletePost, updatePost, addComment, findById.
  rewrite Hv, Hc. repeat split.
  - intro Hs. rewrite Hs. reflexivity.
  - intro Hb. rewrite Hb. reflexivity.
  - intro Hb. rewrite Hb. reflexivity.
  - intro Ht. rewrite Ht. reflexivity.
  - intro Ht. rewrite Ht. reflexivity.
Qed.

(** [malformed_id] at the text "latest" on the sample collection. *)
Lemma malformed_id_witness :
  getPost sampleStore "latest" = (NotFound404, sampleStore) /\
  deletePost sampleStore root "latest" = (Failed, sampleStore) /\
  updatePost acceptUpdates sampleStore root "latest" sampleBody None = (Failed, sampleStore) /\
  addComment sampleStore root "latest" (Some "Hello") = (Failed, sampleStore).
Proof.
  destruct (malformed_id acceptUpdates sampleStore root "latest" sampleBody None
              (Some "Hello") eq_refl) as (Hget & Hdel & Hupd & _ & Hadd & _).
  split; [exact (Hget eq_refl)|]. split; [exact Hdel|].
  split; [exact (Hupd eq_refl)|exact (Hadd eq_refl)].
Defined.

(** ** Creating, then changing or deleting *)

Lemma find_appended :
  forall oid store doc,
    ~ In oid (map _id store) -> _id doc = oid ->
    find (hasId oid) (store ++ [doc])%list = Some doc.
Proof.
  intros oid store doc. induction store as [|q store IH]; intros Hnot Hid.
  - simpl. unfold hasId. rewrite Hid, String.eqb_refl. reflexivity.
  - simpl in *.
    assert (Hq : hasId oid q = false).
    { unfold hasId. apply String.eqb_neq. intro E. apply Hnot. left. exact E. }
    rewrite Hq. apply IH; [|exact Hid]. intro Hin. apply Hnot. right. exact Hin.
Qed.

Lemma deleteById_appended :
  forall oid store doc,
    ~ In oid (map _id store) -> _id doc = oid ->
    deleteById oid (store ++ [doc])%list = store.
Proof.
  intros oid store doc. induction store as [|q store IH]; intros Hnot Hid.
  - simpl. unfold hasId. rewrite Hid, String.eqb_refl. reflexivity.
  - simpl in *.
    assert (Hq : hasId oid q = false).
    { unfold hasId. apply String.eqb_neq. intro E. apply Hnot. left. exact E. }
    rewrite Hq. f_equal. apply IH; [|exact Hid]. intro Hin. apply Hnot. right. exact Hin.
Qed.

(** X8: when [createPost] answers 201 with a fresh canonical identifier,
    the post is recorded with the acting user as its author, whatever the
    body says; that user is never answered 403 or 404 on a valid update of
    it, a user who is neither that user nor an admin is answered 403 on
    deleting it, and a deletion by the author gives back the collection as
    it was before the creation. *)
Theorem createPost_owner :
  forall sv store user b file fresh doc store',
    createPost sv store user b file fresh = (Created201 doc, store') ->
    ObjectId.cast (fresh_id fresh) = Some (fresh_id fresh) ->
    ~ In (fresh_id fresh) (map _id store) ->
    findById store' (fresh_id fresh) = Some (Some doc) /\
    author doc = user_id user /\
    viewCount doc = 0 /\ comments doc = [] /\
    (forall sv' b' file',
        postValidation b' = true ->
        fst (updatePost sv' store' user (fresh_id fresh) b' file') <> Forbidden403 /\
        fst (updatePost sv' store' user (fresh_id fresh) b' file') <> NotFound404) /\
    (forall other,
        user_id other <> user_id user -> role other <> "admin" ->
        deletePost store' other (fresh_id fresh) = (Forbidden403, store')) /\
    deletePost store' user (fresh_id fresh) = (Ok200 tt, store).
Proof.
  intros sv store user b file fresh doc store' H Hc Hfresh.
  destruct (createPost_created_inv _ _ _ _ _ _ _ _ H)
    as (text & cat & catId & _ & _ & _ & _ & Hdoc & _ & Hs).
  assert (Hid : _id doc = fresh_id fresh) by (subst doc; reflexivity).
  assert (Ha : author doc = user_id user) by (subst doc; reflexivity).
  assert (Hf : findById store' (fresh_id fresh) = Some (Some doc)).
  { unfold findById. rewrite Hc. subst store'.
    rewrite (find_appended (fresh_id fresh) store doc Hfresh Hid). reflexivity. }
  assert (Hown : notAuthorized doc user = false).
  { unfold notAuthorized. rewrite Ha, String.eqb_refl. reflexivity. }
  split; [exact Hf|]. split; [exact Ha|].
  split; [subst doc; reflexivity|]. split; [subst doc; reflexivity|].
  split; [|split].
  - intros sv' b' file' Hv. unfold updatePost. rewrite Hv, Hf, Hown. cbn [negb].
    unfold findByIdAndUpdate. rewrite Hf.
    destruct (updateValid sv' (updateDataOf b' file' doc));
      [destruct (applyUpdate (updateDataOf b' file' doc) doc)|];
      simpl; split; discriminate.
  - intros other Hu Hr. unfold deletePost. rewrite Hf.
    assert (Hno : notAuthorized doc other = true).
    { unfold notAuthorized. rewrite Ha.
      destruct (String.eqb_spec (user_id user) (user_id other)) as [E|_];
        [symmetry in E; contradiction|].
      destruct (String.eqb_spec (role other) "admin") as [E|_]; [contradiction|].
      reflexivity. }
    rewrite Hno. reflexivity.
  - unfold deletePost. rewrite Hf, Hown. unfold findByIdAndDelete. rewrite Hc.
    simpl. subst store'.
    rewrite (deleteById_appended (fresh_id fresh) store doc Hfresh Hid). reflexivity.
Qed.

(** [createPost_owner] at a creation by bob on the sample collection. *)
Lemma createPost_owner_witness :
  exists doc store',
    createPost lengthLimits sampleStore bob sampleBody None sampleFresh
    = (Created201 doc, store') /\
    author doc = user_id bob /\
    deletePost store' alice (fresh_id sampleFresh) = (Forbidden403, store') /\
    deletePost store' bob (fresh_id sampleFresh) = (Ok200 tt, sampleStore).
Proof.
  eexists; eexists. split; [reflexivity|].
  destruct (createPost_owner lengthLimits sampleStore bob sampleBody None sampleFresh
              _ _ eq_refl eq_refl)
    as (_ & Ha & _ & _ & _ & Hother & Hdel).
  - simpl. intuition discriminate.
  - split; [exact Ha|]. split; [|exact Hdel].
    apply Hother; discriminate.
Defined.

(** ** The excerpt is never empty *)

Lemma generatedExcerpt_nonempty : forall text, generatedExcerpt text <> "".
Proof.
  intros text H. apply (f_equal String.length) in H.
  rewrite generatedExcerpt_length in H. simpl in H. lia.
Qed.

Lemma cardExcerpt_stored : forall p, excerpt p <> "" -> cardExcerpt p = excerpt p.
Proof.
  intros p H. unfold cardExcerpt. rewrite (truthy_some (excerpt p) H). reflexivity.
Qed.

Lemma save_Forall :
  forall (P : Post -> Prop) p' store,
    P p' -> Forall P store -> Forall P (save p' store).
Proof.
  intros P p' store Hp H. induction H as [|q store Hq Hs IH]; simpl; [constructor|].
  destruct (hasId (_id p') q); constructor; assumption.
Qed.

Lemma deleteById_Forall :
  forall (P : Post -> Prop) oid store,
    Forall P store -> Forall P (deleteById oid store).
Proof.
  intros P oid store H. induction H as [|q store Hq Hs IH]; simpl; [constructor|].
  destruct (hasId oid q); [exact Hs|constructor; assumption].
Qed.

Lemma findById_In :
  forall store id post, findById store id = Some (Some post) -> In post store.
Proof.
  intros store id post H. unfold findById in H.
  destruct (ObjectId.cast id); [|discriminate H].
  injection H as H. apply (find_hasId _ _ _ H).
Qed.

(** A creation appends a document or changes nothing. *)
Lemma createPost_store :
  forall sv store user b file fresh,
    snd (createPost sv store user b file fresh) = store \/
    exists doc,
      createPost sv store user b file fresh = (Created201 doc, (store ++ [doc])%list).
Proof.
  intros sv store user b file fresh. unfold createPost.
  destruct (negb (postValidation b)); [left; reflexivity|].
  destruct (body_content b) as [text|]; [|left; reflexivity].
  destruct (body_category b) as [cat|]; [|left; reflexivity].
  destruct (ObjectId.cast cat) as [catId|]; [|left; reflexivity].
  match goal with
  | |- context [if sv ?d then _ else _] => destruct (sv d)
  end; [right; eexists; reflexivity|left; reflexivity].
Qed.

(** An update is answered 200 or changes nothing. *)
Lemma updatePost_store :
  forall uv store user id b file,
    snd (updatePost uv store user id b file) = store \/
    exists r store', updatePost uv store user id b file = (Ok200 r, store').
Proof.
  intros uv store user id b file. unfold updatePost.
  destruct (negb (postValidation b)); [left; reflexivity|].
  destruct (findById store id) as [[post|]|]; try (left; reflexivity).
  destruct (notAuthorized post user); [left; reflexivity|].
  destruct (findByIdAndUpdate uv store id (updateDataOf b file post)) as [[u s']|];
    [right; eexists; eexists; reflexivity|left; reflexivity].
Qed.

(** X9: no request to [createPost], [updatePost] or [deletePost], whatever
    its answer, leaves a post with an empty excerpt in a collection that had
    none: the post a creation appends has the excerpt supplied or the
    derived one, which ends in "...", and the post an update writes back
    keeps or replaces a non-empty excerpt.  For the posts of such a
    collection the post card shows the stored excerpt, never its own cut of
    the content at 150 characters. *)
Theorem excerpt_never_empty :
  forall sv uv store user id b file fresh,
    Forall (fun p => excerpt p <> "") store ->
    Forall (fun p => excerpt p <> "") (snd (createPost sv store user b file fresh)) /\
    Forall (fun p => excerpt p <> "") (snd (updatePost uv store user id b file)) /\
    Forall (fun p => excerpt p <> "") (snd (deletePost store user id)) /\
    (forall doc store',
        createPost sv store user b file fresh = (Created201 doc, store') ->
        In doc store' /\ excerpt doc <> "" /\ cardExcerpt doc = excerpt doc) /\
    (forall r store',
        updatePost uv store user id b file = (Ok200 r, store') ->
        exists p', r = Some p' /\ findById store' id = Some (Some p') /\
                   excerpt p' <> "" /\ cardExcerpt p' = excerpt p') /\
    Forall (fun p => cardExcerpt p = excerpt p) store.
Proof.
  intros sv uv store user id b file fresh Hall.
  assert (Hcreate : forall doc store',
             createPost sv store user b file fresh = (Created201 doc, store') ->
             store' = (store ++ [doc])%list /\ excerpt doc <> "").
  { intros doc store' H.
    destruct (createPost_created_inv _ _ _ _ _ _ _ _ H)
      as (text & cat & catId & _ & _ & _ & _ & Hdoc & _ & Hs).
    split; [exact Hs|]. subst doc. cbn [excerpt].
    destruct (body_excerpt b) as [[|c e]|]; cbn [Str.truthy orKeep];
      try apply generatedExcerpt_nonempty. discriminate. }
  assert (Hupdate : forall r store',
             updatePost uv store user id b file = (Ok200 r, store') ->
             exists post p', findById store id = Some (Some post) /\ r = Some p' /\
                             _id p' = _id post /\ store' = save p' store /\
                             excerpt p' <> "").
  { intros r store' H.
    destruct (updatePost_ok_inv _ _ _ _ _ _ _ _ H)
      as (post & p' & _ & Hf & _ & Hu & _ & Hr & Hs).
    exists post, p'. split; [exact Hf|]. split; [exact Hr|].
    apply applyUpdate_fields in Hu. destruct Hu as (Hid & _ & _ & _ & He & _).
    split; [exact Hid|]. split; [exact Hs|].
    cbn [updateDataOf set_excerpt] in He.
    assert (Hold : excerpt post <> "").
    { rewrite Forall_forall in Hall. apply Hall. apply (findById_In store id post Hf). }
    rewrite He. unfold updateExcerpt.
    destruct (Str.truthy (body_excerpt b)) eqn:Ee.
    - destruct (body_excerpt b) as [[|c e]|]; try discriminate Ee.
      cbn [orKeep]. discriminate.
    - destruct (body_content b) as [t|]; [|exact Hold].
      destruct (Str.truthy (Some t) && negb (String.eqb t (content post)))%bool;
        cbn [orKeep]; [apply generatedExcerpt_nonempty|exact Hold]. }
  split; [|split; [|split; [|split; [|split]]]].
  - destruct (createPost_store sv store user b file fresh) as [E|(doc & E)].
    + rewrite E. exact Hall.
    + destruct (Hcreate doc _ E) as [_ Hne]. rewrite E. cbn [snd].
      apply Forall_app. split; [exact Hall|]. constructor; [exact Hne|constructor].
  - destruct (updatePost_store uv store user id b file) as [E|(r & store' & E)].
    + rewrite E. exact Hall.
    + destruct (Hupdate r store' E) as (post & p' & _ & _ & _ & Hs & Hne).
      rewrite E. cbn [snd]. rewrite Hs. apply save_Forall; assumption.
  - unfold deletePost.
    destruct (findById store id) as [[post|]|]; cbn [snd]; try exact Hall.
    destruct (notAuthorized post user); cbn [snd]; [exact Hall|].
    unfold findByIdAndDelete. destruct (ObjectId.cast id); cbn [option_map snd];
      [apply deleteById_Forall|]; exact Hall.
  - intros doc store' H. destruct (Hcreate doc store' H) as [-> Hne].
    split; [apply in_or_app; right; left; reflexivity|].
    split; [exact Hne|apply cardExcerpt_stored; exact Hne].
  - intros r store' H.
    destruct (Hupdate r store' H) as (post & p' & Hf & Hr & Hid & -> & Hne).
    exists p'. split; [exact Hr|].
    split; [apply (findById_save store id post p' Hf Hid)|].
    split; [exact Hne|apply cardExcerpt_stored; exact Hne].
  - apply Forall_impl with (2 := Hall). intros p Hp. apply cardExcerpt_stored. exact Hp.
Qed.

(** [excerpt_never_empty] at a creation without excerpt and with a content
    shorter than the card's own cut. *)
Lemma excerpt_never_empty_witness :
  Forall (fun p => excerpt p <> "") sampleStore /\
  exists doc store',
    createPost acceptAll sampleStore alice
      (mkBody (Some "Note") (Some "hi") (Some techCategory) None None None)
      None sampleFresh = (Created201 doc, store') /\
    In doc store' /\ excerpt doc <> "" /\ cardExcerpt doc = "hi..." /\
    Forall (fun p => excerpt p <> "") store'.
Proof.
  assert (Hall : Forall (fun p => excerpt p <> "") sampleStore)
    by (repeat constructor; discriminate).
  split; [exact Hall|].
  eexists; eexists. split; [reflexivity|].
  destruct (excerpt_never_empty acceptAll acceptUpdates sampleStore alice (_id firstPost)
              (mkBody (Some "Note") (Some "hi") (Some techCategory) None None None)
              None sampleFresh Hall) as (Hkept & _ & _ & Hcreate & _).
  destruct (Hcreate _ _ eq_refl) as (Hin & Hne & Hcard).
  split; [exact Hin|]. split; [exact Hne|]. split; [exact Hcard|exact Hkept].
Defined.

(** ** Walking the pages *)









(** * Properties of the pages that call the post routes *)

(** ** Tags through the edit form *)

Lemma split_clean_prefix :
  forall a r,
    Str.count "," a = O ->
    Str.split "," (a ++ String "," r) = a :: Str.split "," r.
Proof.
  induction a as [|c a IH]; intros r H; [reflexivity|].
  simpl in H. simpl. destruct (Ascii.eqb c ","); [discriminate H|].
  rewrite (IH r H). reflexivity.
Qed.

Lemma split_clean :
  forall a, Str.count "," a = O -> Str.split "," a = [a].
Proof.
  induction a as [|c a IH]; intro H; [reflexivity|].
  simpl in H. simpl. destruct (Ascii.eqb c ","); [discriminate H|].
  rewrite (IH H). reflexivity.
Qed.

Lemma split_joinWith :
  forall a l,
    Forall (fun t => Str.count "," t = O) (a :: l) ->
    Str.split "," (joinWith ", " (a :: l)) = a :: map (String " ") l.
Proof.
  intros a l. revert a. induction l as [|b l IH]; intros a H.
  - inversion H; subst. simpl. apply split_clean. assumption.
  - inversion H as [|x m Ha Hrest]; subst.
    change (joinWith ", " (a :: b :: l))
      with (a ++ String "," (String " " (joinWith ", " (b :: l)))).
    rewrite (split_clean_prefix a _ Ha).
    change (Str.split "," (String " " (joinWith ", " (b :: l))))
      with (match Str.split "," (joinWith ", " (b :: l)) with
            | [] => [String " " EmptyString]
            | piece :: rest => String " " piece :: rest
            end).
    rewrite (IH b Hrest). reflexivity.
Qed.

Lemma count_trimStart :
  forall c s, Str.count c s = O -> Str.count c (Str.trimStart s) = O.
Proof.
  intros c s. induction s as [|d s IH]; intro H; [reflexivity|].
  simpl. destruct (Str.isWhiteSpace d); [|exact H].
  apply IH. simpl in H. destruct (Ascii.eqb d c); [discriminate H|exact H].
Qed.

Lemma count_trimEnd :
  forall c s, Str.count c s = O -> Str.count c (Str.trimEnd s) = O.
Proof.
  intros c s. induction s as [|d s IH]; intro H; [reflexivity|].
  simpl in H. destruct (Ascii.eqb d c) eqn:Ed; [discriminate H|].
  simpl. specialize (IH H). destruct (Str.trimEnd s) as [|e t].
  - destruct (Str.isWhiteSpace d); [reflexivity|]. simpl. rewrite Ed. reflexivity.
  - cbn [Str.count]. rewrite Ed. exact IH.
Qed.

(** Every stored tag is trimmed and free of commas. *)
Lemma tagsOf_clean :
  forall t, Forall (fun x => Str.trim x = x /\ Str.count "," x = O) (tagsOf t).
Proof.
  intros [[|c s]|]; try constructor.
  unfold tagsOf. cbn [Str.truthy].
  pose proof (split_pieces_clean "," (String c s)) as H.
  induction H as [|piece rest Hp _ IH]; simpl; constructor; [|exact IH].
  split; [apply trim_idempotent|].
  unfold Str.trim. apply count_trimEnd, count_trimStart. exact Hp.
Qed.

Lemma joinWith_truthy :
  forall l, l <> [] -> l <> [""] -> Str.truthy (Some (joinWith ", " l)) = true.
Proof.
  intros [|a [|b l]] H1 H2; try contradiction.
  - destruct a; [contradiction|reflexivity].
  - change (joinWith ", " (a :: b :: l))
      with (a ++ String "," (String " " (joinWith ", " (b :: l)))).
    destruct a; reflexivity.
Qed.

Lemma tags_read_back :
  forall l,
    Forall (fun x => Str.trim x = x /\ Str.count "," x = O) l ->
    l <> [""] ->
    tagsOf (Some (joinWith ", " l)) = l.
Proof.
  intros l H Hne. destruct l as [|a l]; [reflexivity|].
  unfold tagsOf. rewrite joinWith_truthy by (assumption || discriminate).
  rewrite split_joinWith.
  - inversion H as [|x m [Ha _] Hrest]; subst. simpl. rewrite Ha. f_equal.
    clear - Hrest. induction Hrest as [|b l [Hb _] _ IH]; [reflexivity|].
    simpl. f_equal; [|exact IH].
    change (Str.trim (String " " b)) with (Str.trim b). exact Hb.
  - apply Forall_impl with (2 := H). intros x [_ Hx]. exact Hx.
Qed.

(** X11: the edit form writes the stored tags as one text joined with
    ", "; sent back unchanged, that text is stored as the same tag list,
    except for the list made of a single empty tag, which comes back as the
    empty list. *)
Theorem tags_round_trip :
  forall t,
    (tagsOf t <> [""] -> tagsOf (Some (joinWith ", " (tagsOf t))) = tagsOf t) /\
    (tagsOf t = [""] -> tagsOf (Some (joinWith ", " (tagsOf t))) = []).
Proof.
  intro t. split.
  - intro H. apply tags_read_back; [apply tagsOf_clean|exact H].
  - intro H. rewrite H. reflexivity.
Qed.

(** [tags_round_trip] at the tags texts "react, javascript" and " ". *)
Lemma tags_round_trip_witness :
  tagsOf (Some "react, javascript") = ["react"; "javascript"] /\
  joinWith ", " ["react"; "javascript"] = "react, javascript" /\
  tagsOf (Some (joinWith ", " (tagsOf (Some "react, javascript"))))
  = tagsOf (Some "react, javascript") /\
  tagsOf (Some " ") = [""] /\
  tagsOf (Some (joinWith ", " (tagsOf (Some " ")))) = [].
Proof.
  split; [reflexivity|]. split; [reflexivity|]. split.
  - apply (proj1 (tags_round_trip (Some "react, javascript"))). discriminate.
  - split; [reflexivity|].
    apply (proj2 (tags_round_trip (Some " "))). reflexivity.
Defined.

(** ** Saving the edit form unchanged *)

Lemma all_nonempty_length :
  forall s, Nat.eqb (String.length s) 24 = true -> isEmptyString s = false.
Proof. intros [|c s] H; [discriminate H|reflexivity]. Qed.

Lemma isValid_isMongoId :
  forall s, ObjectId.isValid s = true -> isMongoId (Some s) = true.
Proof.
  intros s H. unfold ObjectId.isValid in H. apply andb_true_iff in H.
  destruct H as [Hlen Hhex]. unfold isMongoId, isHexadecimal.
  rewrite Hlen, Hhex, (all_nonempty_length s Hlen). reflexivity.
Qed.

Lemma editValid_inv :
  forall f,
    editValid f = true ->
    form_title f <> "" /\ form_content f <> "" /\ form_category f <> "".
Proof.
  intros f H. unfold editValid, editErrors in H.
  cbn [error_title error_content error_category error_excerpt] in H.
  repeat (apply andb_true_iff in H; destruct H as [H ?]).
  repeat split; intro E.
  - rewrite E in H. discriminate H.
  - rewrite E in H2. discriminate H2.
  - rewrite E in H1. discriminate H1.
Qed.

(** X12: opening a post in the edit form and saving it with nothing
    changed is a read that counts one view followed by an update that sets
    the published flag and leaves every other modelled field of the post as
    the read left it: the form starts from [isPublished || true], so a draft
    saved this way comes out published.  (The page is opened under the
    identifier of the post; the tags are those stored by the server, and not
    the single empty tag; the validators accept the values the post has.) *)
Theorem edit_unchanged_publishes :
  forall uv store user id shown store1 t,
    ObjectId.isValid id = true ->
    getPost store id = (Ok200 shown, store1) ->
    permitted shown user ->
    editValid (loadEditForm shown) = true ->
    ObjectId.cast (category shown) = Some (category shown) ->
    tags shown = tagsOf t ->
    tags shown <> [""] ->
    (valid_title uv (title shown) && valid_content uv (content shown)
     && valid_category uv (category shown) && valid_tags uv (tags shown)
     && valid_isPublished uv true && valid_excerpt uv (excerpt shown))%bool = true ->
    openEditForm store id = (Some (loadEditForm shown), store1) /\
    (exists old,
        findById store id = Some (Some old) /\
        shown = incrementViewCount old /\
        store1 = save shown store) /\
    exists b,
      submitEdit (loadEditForm shown) = Some (b, None) /\
      body_isPublished b = Some "true" /\
      updatePost uv store1 user id b None
      = (Ok200 (Some (mkPost (_id shown) (title shown) (slug shown) (content shown)
                        (excerpt shown) (author shown) (category shown) (tags shown)
                        (featuredImage shown) true (viewCount shown) (comments shown)
                        (createdAt shown))),
         save (mkPost (_id shown) (title shown) (slug shown) (content shown)
                 (excerpt shown) (author shown) (category shown) (tags shown)
                 (featuredImage shown) true (viewCount shown) (comments shown)
                 (createdAt shown)) store1).
Proof.
  intros uv store user id shown store1 t Hid Hget Hp Hvalid Hcat Htags Hne Huv.
  assert (Hopen : exists old,
             findById store id = Some (Some old) /\
             shown = incrementViewCount old /\ store1 = save shown store).
  { unfold getPost in Hget. rewrite Hid in Hget.
    destruct (findById store id) as [[old|]|] eqn:Ef; try discriminate Hget.
    injection Hget as Hs H1. exists old. split; [reflexivity|].
    split; [symmetry; exact Hs|]. rewrite <- H1, Hs. reflexivity. }
  split; [unfold openEditForm; rewrite Hget; reflexivity|].
  split; [exact Hopen|].
  destruct Hopen as (old & Hfold & Hshown & Hstore).
  assert (Hf : findById store1 id = Some (Some shown)).
  { rewrite Hstore. apply (findById_save store id old shown Hfold).
    rewrite Hshown. reflexivity. }
  destruct (editValid_inv _ Hvalid) as (Ht & Hc & _).
  cbn [loadEditForm form_title form_content] in Ht, Hc.
  eexists. split.
  - unfold submitEdit. rewrite Hvalid. cbn [negb]. reflexivity.
  - cbn [loadEditForm form_title form_content form_category form_tags form_excerpt
           form_isPublished form_featuredImage body_isPublished].
    rewrite orb_true_r. split; [reflexivity|].
    set (b := mkBody (Some (title shown)) (Some (content shown))
                (Some (category shown)) (Some (joinWith ", " (tags shown)))
                (Some (excerpt shown)) (Some (boolText true))).
    assert (Hv : postValidation b = true).
    { unfold postValidation, notEmpty, b. cbn [body_title body_content body_category].
      rewrite (truthy_some _ Ht), (truthy_some _ Hc).
      rewrite (isValid_isMongoId _ (cast_isValid _ _ Hcat)). reflexivity. }
    apply notAuthorized_false in Hp.
    rewrite (updatePost_outcome uv store1 user id b None shown Hf Hv Hp).
    assert (Htagsback : tagsOf (Some (joinWith ", " (tags shown))) = tags shown).
    { apply tags_read_back; [rewrite Htags; apply tagsOf_clean|exact Hne]. }
    assert (Hex : updateExcerpt b shown
                  = if Str.truthy (Some (excerpt shown)) then Some (excerpt shown) else None).
    { unfold updateExcerpt, b. cbn [body_excerpt body_content].
      destruct (Str.truthy (Some (excerpt shown))); [reflexivity|].
      rewrite String.eqb_refl, andb_false_r. reflexivity. }
    assert (Hu : applyUpdate (updateDataOf b None shown) shown
                 = Some (mkPost (_id shown) (title shown) (slug shown) (content shown)
                           (excerpt shown) (author shown) (category shown) (tags shown)
                           (featuredImage shown) true (viewCount shown) (comments shown)
                           (createdAt shown))).
    { unfold applyUpdate, updateDataOf.
      cbn [set_title set_content set_category set_tags set_isPublished set_excerpt
             set_featuredImage uploadPath option_map orKeep].
      rewrite Hex. unfold b at 1 2 3 4 5.
      cbn [body_title body_content body_category body_tags body_isPublished orKeep].
      rewrite Hcat, Htagsback.
      destruct (excerpt shown) as [|c e]; reflexivity. }
    assert (Hok : updateValid uv (updateDataOf b None shown) = true).
    { unfold updateValid, updateDataOf.
      cbn [set_title set_content set_category set_tags set_isPublished set_excerpt
             set_featuredImage uploadPath option_map].
      rewrite Hex. unfold b.
      cbn [body_title body_content body_category body_tags body_isPublished validIfSet].
      rewrite Hcat, Htagsback. cbn [validIfSet].
      repeat (apply andb_true_iff in Huv; destruct Huv as [Huv ?]).
      repeat (apply andb_true_iff; split); try assumption; try reflexivity.
      destruct (Str.truthy (Some (excerpt shown))); [assumption|reflexivity]. }
    rewrite Hu, Hok. reflexivity.
Qed.

(** [edit_unchanged_publishes] at the draft of the sample collection,
    opened and saved by its author. *)
Lemma edit_unchanged_publishes_witness :
  isPublished draftPost = false /\
  exists form b p',
    openEditForm sampleStore (_id draftPost)
    = (Some form, [firstPost; secondPost; incrementViewCount draftPost]) /\
    submitEdit form = Some (b, None) /\
    updatePost updateLimits [firstPost; secondPost; incrementViewCount draftPost] alice
      (_id draftPost) b None
    = (Ok200 (Some p'), [firstPost; secondPost; p']) /\
    isPublished p' = true /\ viewCount p' = 1 /\
    title p' = title draftPost /\ excerpt p' = excerpt draftPost.
Proof.
  split; [reflexivity|].
  destruct (edit_unchanged_publishes updateLimits sampleStore alice (_id draftPost)
              (incrementViewCount draftPost)
              [firstPost; secondPost; incrementViewCount draftPost] None
              eq_refl eq_refl (or_introl eq_refl) eq_refl eq_refl eq_refl)
    as (Hopen & _ & b & Hb & _ & Hu); [discriminate|reflexivity|].
  eexists; exists b; eexists. split; [exact Hopen|]. split; [exact Hb|].
  split; [exact Hu|]. repeat split; reflexivity.
Defined.

(** ** The automatic excerpt of the creation form *)

Lemma generateExcerpt_length :
  forall content n,
    String.length (generateExcerpt content n)
    = if Nat.leb (String.length (stripTags false content)) n
      then String.length (stripTags false content)
      else (n + 3)%nat.
Proof.
  intros content n. unfold generateExcerpt.
  destruct (Nat.leb_spec (String.length (stripTags false content)) n) as [H|H];
    [reflexivity|].
  rewrite length_append_string, length_substring_prefix. simpl. lia.
Qed.

Lemma stripTags_length :
  forall s inTag, (String.length (stripTags inTag s) <= String.length s)%nat.
Proof.
  induction s as [|c s IH]; intro inTag; [destruct inTag; simpl; lia|].
  simpl. destruct inTag.
  - destruct (Ascii.eqb c ">"); [specialize (IH false)|specialize (IH true)]; lia.
  - destruct (Ascii.eqb c "<" && negb (Nat.eqb (Str.count ">" s) 0))%bool; simpl.
    + specialize (IH true). lia.
    + specialize (IH false). lia.
Qed.

(** X13: with the automatic excerpt on, typing a content sets the excerpt
    to the content without its tags, cut at 200 characters and followed by
    "..." when it is longer; that excerpt is never longer than 203
    characters, and it passes the form's own excerpt check exactly when the
    content without its tags has at most 200 characters: for a longer
    content the form refuses the excerpt it has just generated. *)
Theorem automatic_excerpt_check :
  forall content f,
    content <> "" ->
    create_excerpt (typeContent content f) = generateExcerpt content 200 /\
    (String.length (create_excerpt (typeContent content f)) <= 203)%nat /\
    (create_error_excerpt (createErrors (typeContent content f)) = None <->
     (String.length (stripTags false content) <= 200)%nat) /\
    ((String.length content <= 200)%nat ->
     create_error_excerpt (createErrors (typeContent content f)) = None).
Proof.
  intros content f Hne.
  assert (He : create_excerpt (typeContent content f) = generateExcerpt content 200).
  { unfold typeContent. cbn [create_excerpt].
    destruct content; [contradiction|reflexivity]. }
  assert (Hcheck : create_error_excerpt (createErrors (typeContent content f)) = None <->
                   (String.length (stripTags false content) <= 200)%nat).
  { unfold createErrors. cbn [create_error_excerpt]. rewrite He.
    pose proof (generateExcerpt_length content 200) as Hlen.
    destruct (Nat.leb_spec (String.length (stripTags false content)) 200) as [H|H].
    - split; [intros _; exact H|intros _].
      replace (Nat.ltb 200 (String.length (generateExcerpt content 200))) with false.
      + rewrite andb_false_r. reflexivity.
      + symmetry. apply Nat.ltb_ge. lia.
    - split; [|intro; lia]. intro Hnone. exfalso.
      replace (Nat.ltb 200 (String.length (generateExcerpt content 200))) with true
        in Hnone by (symmetry; apply Nat.ltb_lt; lia).
      destruct (generateExcerpt content 200); [simpl in Hlen; lia|].
      discriminate Hnone. }
  split; [exact He|]. split; [|split; [exact Hcheck|]].
  - rewrite He, generateExcerpt_length.
    destruct (Nat.leb_spec (String.length (stripTags false content)) 200); lia.
  - intro Hshort. apply Hcheck.
    pose proof (stripTags_length content false). lia.
Qed.

(** [automatic_excerpt_check] at a short content with tags. *)
Lemma automatic_excerpt_check_witness :
  create_excerpt (typeContent "<p>Hello <b>world</b></p>"
                    (mkCreateForm "T" "" "c" "" "" "" "" true))
  = "Hello world" /\
  create_error_excerpt
    (createErrors (typeContent "<p>Hello <b>world</b></p>"
                     (mkCreateForm "T" "" "c" "" "" "" "" true))) = None.
Proof.
  destruct (automatic_excerpt_check "<p>Hello <b>world</b></p>"
              (mkCreateForm "T" "" "c" "" "" "" "" true)) as (He & _ & _ & Hshort);
    [discriminate|].
  split; [rewrite He; reflexivity|]. apply Hshort. simpl. lia.
Defined.

(** ** The slug the creation form derives *)

Lemma lower_underscore :
  forall c, Ascii.eqb (Str.toLowerChar c) "_" = Ascii.eqb c "_".
Proof. intro c. ascii_cases c; reflexivity. Qed.

Lemma kept_lower_class :
  forall c,
    (isWordChar (Str.toLowerChar c) || Ascii.eqb (Str.toLowerChar c) " ")%bool = true ->
    (Str.isLower (Str.toLowerChar c) || Str.isDigit (Str.toLowerChar c)
     || Ascii.eqb (Str.toLowerChar c) "-" || Ascii.eqb (Str.toLowerChar c) "_"
     || Ascii.eqb (Str.toLowerChar c) " ")%bool = true.
Proof. intro c. ascii_cases c; vm_compute; intro H; try reflexivity; discriminate H. Qed.

Lemma count_toLowerCase_underscore :
  forall s, Str.count "_" (Str.toLowerCase s) = Str.count "_" s.
Proof.
  induction s as [|c s IH]; [reflexivity|].
  simpl. rewrite lower_underscore, IH. reflexivity.
Qed.

Lemma count_keepChars :
  forall keep c s,
    keep c = true -> Str.count c (keepChars keep s) = Str.count c s.
Proof.
  intros keep c s Hk. induction s as [|d s IH]; [reflexivity|].
  simpl. destruct (Ascii.eqb_spec d c) as [->|Hne].
  - rewrite Hk. simpl. rewrite Ascii.eqb_refl, IH. reflexivity.
  - destruct (keep d); [simpl|exact IH].
    destruct (Ascii.eqb_spec d c); [contradiction|exact IH].
Qed.

Lemma count_hyphenate_underscore :
  forall s inRun, Str.count "_" (hyphenate inRun s) = Str.count "_" s.
Proof.
  induction s as [|c s IH]; intro inRun; [reflexivity|].
  simpl. destruct (Ascii.eqb_spec c " ") as [->|Hne].
  - destruct inRun; simpl; apply IH.
  - simpl. rewrite IH. reflexivity.
Qed.

Lemma count_generateSlug :
  forall title, Str.count "_" (generateSlug title) = Str.count "_" title.
Proof.
  intro title. unfold generateSlug.
  rewrite count_hyphenate_underscore, count_keepChars by reflexivity.
  apply count_toLowerCase_underscore.
Qed.

Lemma kept_chars_class :
  forall s,
    Str.all (fun c => (slugClass c || Ascii.eqb c " ")%bool)
      (keepChars (fun c => (isWordChar c || Ascii.eqb c " ")%bool) (Str.toLowerCase s))
    = true.
Proof.
  induction s as [|c s IH]; [reflexivity|].
  simpl.
  destruct (isWordChar (Str.toLowerChar c) || Ascii.eqb (Str.toLowerChar c) " ")%bool
    eqn:Ek; [|exact IH].
  simpl. rewrite IH, andb_true_r. unfold slugClass. apply kept_lower_class. exact Ek.
Qed.

Lemma hyphenate_class :
  forall s inRun,
    Str.all (fun c => (slugClass c || Ascii.eqb c " ")%bool) s = true ->
    Str.all slugClass (hyphenate inRun s) = true.
Proof.
  induction s as [|c s IH]; intros inRun H; [reflexivity|].
  simpl in H. apply andb_true_iff in H. destruct H as [Hc Hs].
  simpl. destruct (Ascii.eqb_spec c " ") as [->|Hne].
  - destruct inRun; [apply IH; exact Hs|]. simpl. apply IH. exact Hs.
  - simpl. rewrite (IH false Hs), andb_true_r.
    rewrite orb_false_r in Hc. exact Hc.
Qed.

Lemma generateSlug_class : forall title, Str.all slugClass (generateSlug title) = true.
Proof. intro title. apply hyphenate_class, kept_chars_class. Qed.

Lemma slugClass_pattern_char :
  forall c,
    slugClass c = true ->
    (Str.isLower c || Str.isDigit c || Ascii.eqb c "-")%bool = negb (Ascii.eqb c "_").
Proof. intro c. ascii_cases c; vm_compute; intro H; try reflexivity; discriminate H. Qed.

Lemma slugPattern_class :
  forall s,
    Str.all slugClass s = true ->
    slugPattern s = (negb (isEmptyString s) && Nat.eqb (Str.count "_" s) 0)%bool.
Proof.
  intros s H. unfold slugPattern. f_equal.
  induction s as [|c s IH]; [reflexivity|].
  simpl in H. apply andb_true_iff in H. destruct H as [Hc Hs].
  simpl. rewrite (slugClass_pattern_char c Hc), (IH Hs).
  destruct (Ascii.eqb c "_"); reflexivity.
Qed.

(** X14: the slug the creation form derives from a title is made only of
    lower-case letters, digits, hyphens and underscores, and the form's own
    slug check refuses it exactly when the title contains an underscore. *)
Theorem derived_slug_check :
  forall f,
    create_title f <> "" ->
    create_slug f = "" ->
    create_slug (deriveSlug f) = generateSlug (create_title f) /\
    Str.all slugClass (create_slug (deriveSlug f)) = true /\
    (create_error_slug (createErrors (deriveSlug f)) <> None <->
     (0 < Str.count "_" (create_title f))%nat).
Proof.
  intros f Ht Hs.
  assert (Hd : create_slug (deriveSlug f) = generateSlug (create_title f)).
  { unfold deriveSlug. rewrite Hs, (truthy_some _ Ht). reflexivity. }
  split; [exact Hd|]. split; [rewrite Hd; apply generateSlug_class|].
  unfold createErrors. cbn [create_error_slug]. rewrite Hd.
  rewrite (slugPattern_class _ (generateSlug_class (create_title f))).
  rewrite count_generateSlug.
  destruct (generateSlug (create_title f)) as [|c s] eqn:Eg.
  - pose proof (count_generateSlug (create_title f)) as Hc. rewrite Eg in Hc.
    simpl in Hc. rewrite <- Hc. simpl. split; [intro H; contradiction|intro; lia].
  - cbn [Str.truthy isEmptyString negb andb].
    destruct (Str.count "_" (create_title f)) as [|n]; simpl.
    + split; [intro H; contradiction|intro; lia].
    + split; [intro; lia|intro; discriminate].
Qed.

(** [derived_slug_check] at the titles "My First Post!" and "my_post". *)
Lemma derived_slug_check_witness :
  create_slug (deriveSlug (mkCreateForm "My First Post!" "" "" "" "" "" "" true))
  = "my-first-post" /\
  create_error_slug
    (createErrors (deriveSlug (mkCreateForm "my_post" "" "" "" "" "" "" true))) <> None.
Proof.
  split.
  - destruct (derived_slug_check (mkCreateForm "My First Post!" "" "" "" "" "" "" true))
      as (Hd & _); [discriminate|reflexivity|].
    rewrite Hd. reflexivity.
  - destruct (derived_slug_check (mkCreateForm "my_post" "" "" "" "" "" "" true))
      as (_ & _ & He); [discriminate|reflexivity|].
    apply He. simpl. lia.
Defined.

(** ** Password strength on the registration page *)

Lemma nonempty_has_class :
  forall p,
    p <> "" ->
    (hasChar Str.isUpper p || hasChar Str.isLower p || hasChar Str.isDigit p
     || hasChar (fun c => negb (Str.isUpper c || Str.isLower c || Str.isDigit c)) p)%bool
    = true.
Proof.
  intros [|c p] H; [contradiction|]. simpl.
  destruct (Str.isUpper c), (Str.isLower c), (Str.isDigit c); simpl;
    rewrite ?orb_true_r; reflexivity.
Qed.

(** X15: [checkPasswordStrength] gives a score from 0 to 5, the number
    of criteria met, and lists one message for each criterion missed; a
    password that is not empty scores at least 1; and there is a strength
    level for every score but 5: the password that meets all five criteria,
    the one told "Strong password!", gets no level at all. *)
Theorem password_strength_levels :
  forall p,
    (score (checkPasswordStrength p) <= 5)%nat /\
    (p <> "" -> (1 <= score (checkPasswordStrength p))%nat) /\
    (level (checkPasswordStrength p) = None <-> score (checkPasswordStrength p) = 5%nat) /\
    (feedback (checkPasswordStrength p) = ["Strong password!"] <->
     score (checkPasswordStrength p) = 5%nat) /\
    ((score (checkPasswordStrength p) < 5)%nat ->
     (score (checkPasswordStrength p) + List.length (feedback (checkPasswordStrength p))
      = 5)%nat) /\
    (score (checkPasswordStrength p) = 5%nat <->
     (8 <= String.length p)%nat /\
     hasChar Str.isUpper p = true /\ hasChar Str.isLower p = true /\
     hasChar Str.isDigit p = true /\
     hasChar (fun c => negb (Str.isUpper c || Str.isLower c || Str.isDigit c)) p = true).
Proof.
  intro p. unfold checkPasswordStrength.
  pose proof (nonempty_has_class p) as Hclass.
  destruct (Nat.leb_spec 8 (String.length p)) as [Hlen|Hlen];
    destruct (hasChar Str.isUpper p);
    destruct (hasChar Str.isLower p);
    destruct (hasChar Str.isDigit p);
    destruct (hasChar (fun c => negb (Str.isUpper c || Str.isLower c || Str.isDigit c)) p);
    cbn [criterion fst snd score level feedback app List.length Nat.ltb Nat.leb
           nth_error strengthLevels];
    (split; [lia|]);
    (split; [intro Hne; try lia; specialize (Hclass Hne); discriminate Hclass|]);
    (split; [split; intro H; try discriminate H; try reflexivity; try lia|]);
    (split; [split; intro H; try discriminate H; try reflexivity; try lia|]);
    (split; [intro H; try reflexivity; try lia|]);
    (split; [intro H; try discriminate H; try lia;
             repeat split; try reflexivity; try lia
            |intros (H1 & H2 & H3 & H4 & H5);
             try discriminate; try reflexivity; try lia]).
Qed.

(** [password_strength_levels] at a password that meets every criterion
    and at one that meets only one. *)
Lemma password_strength_levels_witness :
  score (checkPasswordStrength "Abcdef1!") = 5%nat /\
  level (checkPasswordStrength "Abcdef1!") = None /\
  feedback (checkPasswordStrength "Abcdef1!") = ["Strong password!"] /\
  (1 <= score (checkPasswordStrength "abc"))%nat /\
  (score (checkPasswordStrength "abc")
   + List.length (feedback (checkPasswordStrength "abc")) = 5)%nat.
Proof.
  destruct (password_strength_levels "Abcdef1!") as (_ & _ & Hlevel & Hfeed & _ & Hall).
  destruct (password_strength_levels "abc") as (_ & Hone & _ & _ & Hsum & _).
  assert (H5 : score (checkPasswordStrength "Abcdef1!") = 5%nat).
  { apply Hall; repeat split; try reflexivity; simpl; lia. }
  split; [exact H5|]. split; [apply Hlevel; exact H5|].
  split; [apply Hfeed; exact H5|].
  split; [apply Hone; discriminate|]. apply Hsum. simpl. lia.
Defined.

(** ** Words and minutes *)

Lemma splitSpaces_flag :
  forall c s,
    Str.isWhiteSpace c = false ->
    splitSpaces true (String c s) = splitSpaces false (String c s).
Proof. intros c s H. simpl. rewrite H. reflexivity. Qed.

Lemma splitSpaces_rest :
  forall s piece rest,
    splitSpaces false s = piece :: rest ->
    Forall (fun w => w <> "") (splitSpaces true s) ->
    Forall (fun w => w <> "") rest.
Proof.
  intros [|d s] piece rest H Hall.
  - simpl in H. injection H as _ Hr. subst rest. constructor.
  - destruct (Str.isWhiteSpace d) eqn:Ed.
    + simpl in H, Hall. rewrite Ed in H, Hall. injection H as _ Hr. subst rest. exact Hall.
    + rewrite (splitSpaces_flag d s Ed), H in Hall. inversion Hall; assumption.
Qed.

Lemma splitSpaces_trimmed :
  forall s,
    Str.trimEnd s = s -> s <> "" ->
    Forall (fun w => w <> "") (splitSpaces true s).
Proof.
  induction s as [|c s IH]; intros Ht Hne; [contradiction|].
  simpl in Ht. simpl. destruct (Str.isWhiteSpace c) eqn:Ec.
  - destruct (Str.trimEnd s) as [|d t] eqn:Es; [discriminate Ht|].
    injection Ht as Ht. apply IH; [exact Ht|rewrite <- Ht; discriminate].
  - destruct (Str.trimEnd s) as [|d t] eqn:Es.
    + injection Ht as Ht. subst s. simpl. constructor; [discriminate|constructor].
    + injection Ht as Ht.
      assert (Hs : Forall (fun w => w <> "") (splitSpaces true s)).
      { apply IH; [exact Ht|rewrite <- Ht; discriminate]. }
      destruct (splitSpaces false s) as [|piece rest] eqn:Ep.
      * constructor; [discriminate|constructor].
      * constructor; [discriminate|]. apply (splitSpaces_rest s piece rest Ep Hs).
Qed.

Lemma trim_shape :
  forall s,
    Str.trim s = "" \/
    (Str.trimEnd (Str.trim s) = Str.trim s /\
     exists c u, Str.trim s = String c u /\ Str.isWhiteSpace c = false).
Proof.
  intro s. destruct (Str.trim s) as [|c u] eqn:E; [left; reflexivity|right].
  split; [rewrite <- E; unfold Str.trim; apply trimEnd_idempotent|].
  exists c, u. split; [reflexivity|].
  unfold Str.trim in E.
  destruct (trimStart_head s) as [H|(d & t & H & Hd)]; rewrite H in E.
  - discriminate E.
  - destruct (trimEnd_head d t Hd) as (v & Hv). rewrite Hv in E.
    injection E as -> _. exact Hd.
Qed.

Lemma filter_all :
  forall (l : list string),
    Forall (fun w => w <> "") l ->
    filter (fun word => Nat.ltb 0 (String.length word)) l = l.
Proof.
  intros l H. induction H as [|w l Hw _ IH]; [reflexivity|].
  simpl. destruct w; [contradiction|]. simpl. rewrite IH. reflexivity.
Qed.

(** X16: the reading time of the post page counts at least one word, so
    it is never below one minute; for a content with a word in it, it is the
    minutes the creation form shows for the same content; for a content of
    white space only, the form counts no word and shows 0 minutes while the
    post page shows 1. *)
Theorem reading_time_words :
  forall content,
    readingWords content = Nat.max 1 (wordCount content) /\
    Num.atLeast 1 (calculateReadingTime content) /\
    (Str.trim content <> "" ->
     wordCount content = readingWords content /\
     calculateReadingTime content = formMinutes content) /\
    (Str.trim content = "" ->
     wordCount content = 0%nat /\
     formMinutes content = Num.Int 0 /\ calculateReadingTime content = Num.Int 1).
Proof.
  intro content.
  unfold calculateReadingTime, formMinutes, readingWords, wordCount.
  destruct (trim_shape content) as [E|(Hend & c & u & E & Hc)].
  - rewrite E. split; [reflexivity|]. split; [vm_compute; discriminate|].
    split; [intro H; contradiction|]. intros _.
    split; [reflexivity|]. split; reflexivity.
  - assert (Hall : Forall (fun w => w <> "") (splitSpaces false (Str.trim content))).
    { rewrite E, <- (splitSpaces_flag c u Hc), <- E.
      apply splitSpaces_trimmed; [exact Hend|rewrite E; discriminate]. }
    rewrite (filter_all _ Hall).
    assert (Hpos : (1 <= List.length (splitSpaces false (Str.trim content)))%nat).
    { rewrite E. simpl. rewrite Hc. destruct (splitSpaces false u); simpl; lia. }
    split; [lia|]. split; [apply ceilDiv_200_at_least_one; lia|].
    split; [intros _; split; reflexivity|].
    intro H. rewrite E in H. discriminate H.
Qed.

(** [reading_time_words] at a content of three words and at a content made
    of one no-break space. *)
Lemma reading_time_words_witness :
  wordCount "  to be  continued " = 3%nat /\
  calculateReadingTime "  to be  continued " = formMinutes "  to be  continued " /\
  formMinutes (String "160" "") = Num.Int 0 /\
  calculateReadingTime (String "160" "") = Num.Int 1.
Proof.
  destruct (reading_time_words "  to be  continued ") as (_ & _ & Hwords & _).
  destruct (reading_time_words (String "160" "")) as (_ & _ & _ & Hblank).
  split; [reflexivity|].
  split; [apply Hwords; vm_compute; discriminate|].
  destruct (Hblank eq_refl) as (_ & Hform & Hpage).
  split; [exact Hform|exact Hpage].
Defined.

(** ** What a search leaves out *)

Lemma insertNewestFirst_In :
  forall p q l, In q (insertNewestFirst p l) <-> q = p \/ In q l.
Proof.
  intros p q l. induction l as [|r l IH]; simpl.
  - split; [intros [H|[]]; left; symmetry; exact H|intros [H|[]]; left; symmetry; exact H].
  - destruct (createdAt r <=? createdAt p); simpl.
    + split; [intros [H|H]; [left; symmetry; exact H|right; exact H]
             |intros [H|H]; [left; symmetry; exact H|right; exact H]].
    + rewrite IH. tauto.
Qed.

Lemma sortNewestFirst_In :
  forall q l, In q (sortNewestFirst l) <-> In q l.
Proof.
  intros q l. induction l as [|p l IH]; simpl; [tauto|].
  rewrite insertNewestFirst_In, IH. split; intros [H|H]; auto.
Qed.

(** X17: for a search term without pattern syntax and without the
    character U+0000, [searchPosts] answers only with published posts in
    which the term occurs, letter case aside, and a published post in which
    the term occurs is missing from the answer only when the answer is full,
    that is, holds 20 posts; with the character U+0000 in the term the
    request fails. *)
Theorem search_complete :
  forall beyond server store term,
    term <> "" ->
    Str.all (fun c => negb (isMetaChar c)) term = true ->
    (Str.count "000" term <> O -> searchPosts beyond server store (Some term) = Failed) /\
    (Str.count "000" term = O ->
     exists posts,
       searchPosts beyond server store (Some term) = Ok200 posts /\
       (forall p, In p posts ->
                  In p store /\ isPublished p = true /\ specMatches term p) /\
       (forall p, In p store -> isPublished p = true -> specMatches term p ->
                  In p posts \/ List.length posts = 20%nat)).
Proof.
  intros beyond server store term Hne Hplain.
  pose proof (truthy_some term Hne) as Ht.
  pose proof (searchFilter_plain beyond term None Hne Hplain) as Hsf.
  split.
  - intro Hnul. unfold searchPosts. rewrite Ht, Hsf.
    destruct (Nat.eqb_spec (Str.count "000" term) 0); [contradiction|reflexivity].
  - intro Hnul. rewrite Hnul in Hsf. cbn [Nat.eqb] in Hsf.
    set (f := mkFilter true None (Some (Regex.test (Regex.literal term)))) in *.
    assert (Hmatch : forall p, In p (find_ f store) <->
                               In p store /\ isPublished p = true /\ specMatches term p).
    { intro p. unfold find_. rewrite filter_In. unfold f.
      rewrite matchesFilter_search, matchesSearch_literal. tauto. }
    exists (firstn 20 (sortNewestFirst (find_ f store))). split; [|split].
    + unfold searchPosts. rewrite Ht, Hsf. reflexivity.
    + intros p Hin. apply Hmatch, sortNewestFirst_In.
      rewrite <- (firstn_skipn 20 (sortNewestFirst (find_ f store))).
      apply in_or_app. left. exact Hin.
    + intros p Hin Hpub Hspec.
      destruct (Nat.le_gt_cases (List.length (sortNewestFirst (find_ f store))) 20)
        as [Hle|Hgt].
      * left. rewrite firstn_all2 by exact Hle.
        apply sortNewestFirst_In, Hmatch. repeat split; assumption.
      * right. rewrite length_firstn. lia.
Qed.

(** [search_complete] at the term "POST" on the sample collection. *)
Lemma search_complete_witness :
  searchPosts strictSyntax sampleServer sampleStore (Some "POST") = Ok200 [firstPost] /\
  specMatches "POST" firstPost /\
  ~ specMatches "POST" secondPost.
Proof.
  destruct (search_complete strictSyntax sampleServer sampleStore "POST") as (_ & Hok);
    [discriminate|reflexivity|].
  destruct (Hok eq_refl) as (posts & Hs & Hsound & Hcomplete).
  vm_compute in Hs. injection Hs as Hs. subst posts.
  split; [reflexivity|]. split.
  - apply (Hsound firstPost). left. reflexivity.
  - intro H.
    destruct (Hcomplete secondPost) as [[E|[]]|E];
      [right; left; reflexivity|reflexivity|exact H|discriminate E|discriminate E].
Defined.
